(** * WinLamb message-dispatch core: a shallow embedding

    The development follows the layout of the library's [internals]
    directory: [store.h], [catch_all_excps.h], [base_msg_handler.h],
    [base_window.h], [base_dialog.h] and [base_native_control.h], followed
    by the byte and string conversions of [bin_aux.h], [bin.h] and [str.h].
    Each C++ class or namespace becomes a module of the same name, each
    function a definition of the same name.

    Conventions.
    - Win32 integer types ([UINT], [WORD], [WPARAM], [LPARAM], [LRESULT],
      [HWND], pointers) are [Z]; the null handle and the null pointer are [0].
    - A C++ call ends in one of three ways, see [outcome]: it returns, it
      throws, or its behaviour is undefined (a read through a null or
      dangling pointer, an index past the end of a vector).
    - The operating system is the environment: what an OS call answers is
      an argument of the definition that makes the call, and the calls that
      have an effect are appended to the [os_log] of the [world].
    - User lambdas act on a [world]; they cannot reach the handler tables,
      which the library freezes once the window exists. *)

From stdpp Require Import base option list gmap strings.
From Stdlib Require Import ZArith Lia.

Local Open Scope Z_scope.

(** ** Win32 constants (values of the Windows SDK headers) *)

Definition WM_CREATE : Z := 0x0001.
Definition WM_CLOSE : Z := 0x0010.
Definition WM_NCCREATE : Z := 0x0081.
Definition WM_NCDESTROY : Z := 0x0082.
Definition WM_NOTIFY : Z := 0x004E.
Definition WM_INITDIALOG : Z := 0x0110.
Definition WM_COMMAND : Z := 0x0111.
Definition WM_SETFONT : Z := 0x0030.
Definition WM_APP : Z := 0x8000.
Definition ERROR_SUCCESS : Z := 0.
Definition ERROR_CLASS_ALREADY_EXISTS : Z := 1410.
Definition FALSE : Z := 0.

(** [LOWORD(wp)]: the low 16 bits. *)
Definition LOWORD (wp : Z) : Z := Z.land wp 0xFFFF.

(** [static_cast<int>(u)] of a 32-bit unsigned value. *)
Definition int_of_UINT (u : Z) : Z :=
  let v := u mod 2 ^ 32 in if Z_lt_dec v (2 ^ 31) then v else v - 2 ^ 32.

(** ** Exceptions and outcomes *)

(** The exception classes [catch_all_excps] tells apart, most derived first.
    [system_error] derives from [runtime_error], [invalid_argument] from
    [logic_error]; [bad_function_call] is what an empty [std::function]
    throws; [other_exception] is any further [std::exception];
    [unknown_exception] is anything else. *)
Inductive exn :=
| system_error (code : Z) (what : string)
| runtime_error (what : string)
| invalid_argument (what : string)
| logic_error (what : string)
| bad_function_call
| other_exception (what : string)
| unknown_exception.

Inductive outcome (A : Type) :=
| Ret (a : A)
| Throw (e : exn)
| Undef.
Arguments Ret {A} a.
Arguments Throw {A} e.
Arguments Undef {A}.

(** [wl::param::any] *)
Record any := Any { wparam : Z; lparam : Z }.

(** The sentinel key the constructor of [store<idT>] writes: [0] for [UINT]
    and [WORD], [(0, 0)] for [std::pair<UINT_PTR, int>]. *)
Class SentinelInit (idT : Type) := sentinel_init : idT.
Global Instance sentinel_init_Z : SentinelInit Z := 0.
Global Instance sentinel_init_pair : SentinelInit (Z * Z) := (0, 0).

(** ** store.h *)

Module store.
Section store.
Context {idT : Type} `{EqDecision idT} `{SentinelInit idT} {W : Type}.

(** A user lambda [LRESULT(wl::param::any)], with the state it captures. *)
Definition lambda : Type := any → W → outcome Z * W.

(** The content of a [std::function<LRESULT(wl::param::any)>] held by the
    store: empty ([nullptr]), a user lambda, or the light wrapper of the
    multi-key [add], which captures [this] and [funcIdx]. *)
Inductive function :=
| Null
| UserFunc (f : lambda)
| Wrapper (funcIdx : nat).

Record handler := Handler { id : idT; func : function }.

Record t := Store { _handlers : list handler }.

(** [store()] *)
Definition new : t := Store [Handler sentinel_init Null].

(** [empty()] *)
Definition empty (s : t) : bool := bool_decide (length (_handlers s) ≤ 1)%nat.

(** [add(idT id, F&& func)] *)
Definition add (i : idT) (f : function) (s : t) : t :=
  Store (_handlers s ++ [Handler i f]).

(** [add(std::initializer_list<idT> ids, F&& func)].  [pIds[0]] of an empty
    list reads past the end. *)
Definition add_ids (ids : list idT) (f : function) (s : t) : outcome t :=
  match ids with
  | [] => Undef
  | id0 :: rest =>
      let s1 := add id0 f s in
      let funcIdx := (length (_handlers s1) - 1)%nat in
      Ret (foldl (λ acc idi,
                    if decide (idi ≠ id0) then add idi (Wrapper funcIdx) acc
                    else acc)
                 s1 rest)
  end.

(** [while (revRunner->id != id) --revRunner;] started at index [i].
    Stepping below index [0], or starting past the end, is undefined. *)
Fixpoint rev_scan (hs : list handler) (i0 : idT) (i : nat) : option nat :=
  match hs !! i with
  | None => None
  | Some h =>
      if decide (id h = i0) then Some i
      else match i with
           | O => None
           | S j => rev_scan hs i0 j
           end
  end.

(** [find(idT id)]: the state after the sentinel was written, and the
    returned pointer as the index of the handler it points into ([None] for
    [nullptr]). *)
Definition find (i0 : idT) (s : t) : outcome (option nat) * t :=
  match _handlers s with
  | [] => (Undef, s)
  | h0 :: rest =>
      let hs := Handler i0 (func h0) :: rest in
      match rev_scan hs i0 (length hs - 1) with
      | None => (Undef, Store hs)
      | Some O => (Ret None, Store hs)
      | Some (S j) => (Ret (Some (S j)), Store hs)
      end
  end.

(** Calling a stored [std::function]: an empty one throws, a wrapper calls
    [this->_handlers[funcIdx].func].  The recursion through wrappers is cut
    after as many steps as the vector has elements: a longer chain goes
    through some index twice and never returns. *)
Fixpoint call_function (fuel : nat) (hs : list handler) (f : function)
    (p : any) (w : W) : outcome Z * W :=
  match f with
  | Null => (Throw bad_function_call, w)
  | UserFunc g => g p w
  | Wrapper i =>
      match fuel with
      | O => (Undef, w)
      | S n =>
          match hs !! i with
          | None => (Undef, w)
          | Some h => call_function n hs (func h) p w
          end
      end
  end.

(** Calling through a pointer returned by [find]. *)
Definition call (s : t) (ptr : nat) (p : any) (w : W) : outcome Z * W :=
  match _handlers s !! ptr with
  | None => (Undef, w)
  | Some h => call_function (length (_handlers s)) (_handlers s) (func h) p w
  end.

End store.
Arguments lambda : clear implicits.
Arguments function : clear implicits.
Arguments handler : clear implicits.
Arguments t : clear implicits.
End store.

(** ** The world user code and the OS share *)

(** [NMHDR], the header every [WM_NOTIFY] points to. *)
Record NMHDR := { hwndFrom : Z; idFrom : Z; code : Z }.

(** [WNDCLASSEXW] *)
Record WNDCLASSEXW := {
  cbSize : Z; style : Z; lpfnWndProc : string; cbClsExtra : Z; cbWndExtra : Z;
  hInstance : Z; hIcon : Z; hCursor : Z; hbrBackground : Z;
  lpszMenuName : Z; lpszClassName : string; hIconSm : Z }.

(** The arguments of [CreateWindowExW] that the library only passes on. *)
Record create_args := {
  ca_exStyles : Z; ca_className : string; ca_title : option string;
  ca_styles : Z; ca_pos : Z * Z; ca_size : Z * Z; ca_parent : Z;
  ca_hMenu : Z; ca_hInst : Z; ca_lpParam : Z }.

(** The OS calls with an effect, in the order the library makes them. *)
Inductive os_call :=
| MessageBox (caption : string) (e : exn)
| PostQuitMessage (nExitCode : Z)
| DefWindowProcW (hWnd msg wp lp : Z)
| DefSubclassProc (hWnd msg wp lp : Z)
| SetWindowSubclass (hWnd : Z) (pfnSubclass : string) (uIdSubclass dwRefData : Z)
| RemoveWindowSubclass (hWnd : Z) (pfnSubclass : string) (uIdSubclass : Z)
| SendMessageW (hWnd msg wp lp : Z)
| EnumChildWindows (hWndParent : Z) (lp : Z)
| CreateWindowExW (args : create_args)
| CreateDialogParamW (hInst dialogId hParent lp : Z)
| DialogBoxParamW (hInst dialogId hParent lp : Z)
| RegisterClassExW (wcx : WNDCLASSEXW)
| GetClassInfoExW (hInst : Z) (className : string).

Section world.
Context {U : Type}.

(** [U] is the state the user's closures capture.  [packs] is the heap of
    [thread_pack] objects by address, [nmhdrs] the notification headers the
    OS keeps in memory, by address.  [slots] is the user-data slot of each
    window handle ([GWLP_USERDATA] of a window, [DWLP_USER] of a dialog),
    which [GetWindowLongPtrW] reads and [SetWindowLongPtrW] writes; an
    unset slot reads [0].  [handles] is the [_hWnd] field of the window and
    dialog objects by address, as [hwnd()] returns it to a lambda that
    captured the object; an unset one reads null. *)
Record world := World {
  user : U;
  packs : gmap Z (U → outcome unit * U);
  nmhdrs : gmap Z NMHDR;
  slots : gmap Z Z;
  handles : gmap Z Z;
  os_log : list os_call }.

Definition set_user (u : U) (w : world) : world :=
  World u (packs w) (nmhdrs w) (slots w) (handles w) (os_log w).
Definition set_packs (ps : gmap Z (U → outcome unit * U)) (w : world) : world :=
  World (user w) ps (nmhdrs w) (slots w) (handles w) (os_log w).
Definition set_slot (hWnd v : Z) (w : world) : world :=
  World (user w) (packs w) (nmhdrs w) (<[hWnd := v]> (slots w)) (handles w) (os_log w).
Definition set_handle (this_ v : Z) (w : world) : world :=
  World (user w) (packs w) (nmhdrs w) (slots w) (<[this_ := v]> (handles w)) (os_log w).
Definition log (c : os_call) (w : world) : world :=
  World (user w) (packs w) (nmhdrs w) (slots w) (handles w) (os_log w ++ [c]).

Definition slot_of (hWnd : Z) (w : world) : Z := default 0 (slots w !! hWnd).
Definition handle_of (this_ : Z) (w : world) : Z := default 0 (handles w !! this_).

(** *** catch_all_excps.h *)

Inductive post_quit_on_catch := YES | NO.

(** The caption of the [MessageBox] the first matching [catch] clause shows. *)
Definition caption_of (e : exn) : string :=
  match e with
  | system_error _ _ => "System exception"
  | runtime_error _ => "Runtime exception"
  | invalid_argument _ => "Invalid argument exception"
  | logic_error _ => "Logic exception"
  | bad_function_call | other_exception _ => "Exception"
  | unknown_exception => "Unknown exception"
  end.

(** [catch_all_excps(func, catchAction)].  The C++ function returns [void];
    the lambdas passed to it assign a local of the caller by reference, so
    the model hands that assignment back: [Some a] when [func] ran to its
    end, [None] when an exception cut it short. *)
Definition catch_all_excps {A} (func : world → outcome A * world)
    (catchAction : post_quit_on_catch) (w : world) : outcome (option A) * world :=
  match func w with
  | (Ret a, w1) => (Ret (Some a), w1)
  | (Throw e, w1) =>
      let w2 := log (MessageBox (caption_of e) e) w1 in
      (Ret None,
       match catchAction with
       | YES => log (PostQuitMessage (-1)) w2
       | NO => w2
       end)
  | (Undef, w1) => (Undef, w1)
  end.

End world.
Arguments world : clear implicits.

(** ** base_msg_handler.h *)

Module base_msg_handler.
Section base_msg_handler.
Context {U : Type}.

Definition WM_UI_THREAD : Z := WM_APP + 0x3FFF.

Record t := Make {
  _msgs : store.t Z (world U);
  _cmds : store.t Z (world U);
  _nfys : store.t (Z * Z) (world U) }.

(** [on_message(UINT msg, F&& func)] *)
Definition on_message (msg : Z) (f : store.function (world U)) (h : t) : t :=
  Make (store.add msg f (_msgs h)) (_cmds h) (_nfys h).

(** [on_message(std::initializer_list<UINT> msgs, F&& func)] *)
Definition on_message_ids (msgs : list Z) (f : store.function (world U)) (h : t)
    : outcome t :=
  match store.add_ids msgs f (_msgs h) with
  | Ret s => Ret (Make s (_cmds h) (_nfys h))
  | Throw e => Throw e
  | Undef => Undef
  end.

(** [on_command(WORD cmd, F&& func)] *)
Definition on_command (cmd : Z) (f : store.function (world U)) (h : t) : t :=
  Make (_msgs h) (store.add cmd f (_cmds h)) (_nfys h).

(** [on_command(std::initializer_list<WORD> cmds, F&& func)] *)
Definition on_command_ids (cmds : list Z) (f : store.function (world U)) (h : t)
    : outcome t :=
  match store.add_ids cmds f (_cmds h) with
  | Ret s => Ret (Make (_msgs h) s (_nfys h))
  | Throw e => Throw e
  | Undef => Undef
  end.

(** [on_notify(UINT_PTR idFrom, int code, F&& func)]: the braces build the
    pair, so this is the single-key [add]. *)
Definition on_notify (idFrom0 code0 : Z) (f : store.function (world U)) (h : t)
    : t :=
  Make (_msgs h) (_cmds h) (store.add (idFrom0, code0) f (_nfys h)).

(** [on_notify(std::initializer_list<std::pair<UINT_PTR, int>>, F&& func)] *)
Definition on_notify_ids (idFromAndCodes : list (Z * Z))
    (f : store.function (world U)) (h : t) : outcome t :=
  match store.add_ids idFromAndCodes f (_nfys h) with
  | Ret s => Ret (Make (_msgs h) (_cmds h) s)
  | Throw e => Throw e
  | Undef => Undef
  end.

(** The lambda [_default_msg_handlers] registers for [WM_UI_THREAD]. *)
Definition ui_thread_lambda : store.lambda (world U) := λ p w,
  if bool_decide (wparam p = 0xc0def00d) && bool_decide (lparam p ≠ 0) then
    match packs w !! lparam p with
    | None => (Undef, w)
    | Some pk =>
        match catch_all_excps
                (λ w0, let '(o, u) := pk (user w0) in (o, set_user u w0)) YES w with
        | (Undef, w1) => (Undef, w1)
        | (_, w1) => (Ret 0, set_packs (delete (lparam p) (packs w1)) w1)
        end
    end
  else (Ret 0, w).

(** [_default_msg_handlers()] *)
Definition _default_msg_handlers (h : t) : t :=
  on_message WM_UI_THREAD (store.UserFunc ui_thread_lambda) h.

(** [base_msg_handler()] *)
Definition new : t :=
  _default_msg_handlers (Make store.new store.new store.new).

(** Which of the three stores [exec] searched. *)
Inductive table := Msgs | Cmds | Nfys.

(** The first half of [exec]: the search.  Returns the table searched, the
    pointer found and the handler tables after the search wrote its
    sentinel. *)
Definition lookup (msg wp lp : Z) (h : t) (w : world U)
    : table * outcome (option nat) * t :=
  if decide (msg = WM_COMMAND) then
    let '(r, s) := store.find (LOWORD wp) (_cmds h) in
    (Cmds, r, Make (_msgs h) s (_nfys h))
  else if decide (msg = WM_NOTIFY) then
    match nmhdrs w !! lp with
    | None => (Nfys, Undef, h)
    | Some nmhdr =>
        let '(r, s) := store.find (idFrom nmhdr, int_of_UINT (code nmhdr)) (_nfys h) in
        (Nfys, r, Make (_msgs h) (_cmds h) s)
    end
  else
    let '(r, s) := store.find msg (_msgs h) in
    (Msgs, r, Make s (_cmds h) (_nfys h)).

(** Calling through [userFunc], a pointer into the table searched. *)
Definition call_in (tb : table) (h : t) (ptr : nat) (p : any) (w : world U)
    : outcome Z * world U :=
  match tb with
  | Msgs => store.call (_msgs h) ptr p w
  | Cmds => store.call (_cmds h) ptr p w
  | Nfys => store.call (_nfys h) ptr p w
  end.

(** [exec(UINT msg, WPARAM wp, LPARAM lp)] *)
Definition exec (msg wp lp : Z) (h : t) (w : world U)
    : outcome (option Z) * t * world U :=
  let '(tb, userFunc, h1) := lookup msg wp lp h w in
  match userFunc with
  | Undef => (Undef, h1, w)
  | Throw e => (Throw e, h1, w)
  | Ret None => (Ret None, h1, w)
  | Ret (Some ptr) =>
      match catch_all_excps (call_in tb h1 ptr (Any wp lp)) YES w with
      | (Ret retVal, w1) => (Ret (Some (default 0 retVal)), h1, w1)
      | (Throw e, w1) => (Throw e, h1, w1)
      | (Undef, w1) => (Undef, h1, w1)
      end
  end.

End base_msg_handler.
Arguments t : clear implicits.
End base_msg_handler.

(** ** base_window.h *)

(** What the OS does inside a creation call: the window-procedure calls it
    makes before the call returns (each with its [hWnd], [msg], [wp], [lp]),
    the value returned and the last-error value left behind. *)
Record creation_os := {
  during : list (Z * Z * Z * Z);
  returned : Z;
  last_error : Z }.

Module base_window.
Section base_window.
Context {U : Type}.

Record t := Make { _hWnd : Z; _msgHandler : base_msg_handler.t U }.

Definition new : t := Make 0 base_msg_handler.new.

(** [sizeof(WNDCLASSEXW)] of the 64-bit build. *)
Definition sizeof_WNDCLASSEXW : Z := 80.

(** What [RegisterClassExW] and [GetClassInfoExW] answer: the atom and the
    last-error value the first leaves ([None]: it does not touch it), the
    value the second returns and the class data it writes ([None]: none). *)
Record register_os := {
  reg_atom : Z;
  reg_last_error : option Z;
  info_ret : Z;
  info_wcx : option WNDCLASSEXW }.

(** [register_class(WNDCLASSEXW& wcx)]: returns the atom and the [wcx] the
    caller holds afterwards.  [atom] is an [ATOM], a 16-bit [WORD]: the
    [BOOL] of [GetClassInfoExW] assigned to it keeps its low 16 bits. *)
Definition register_class (wcx : WNDCLASSEXW) (os : register_os) (w : world U)
    : outcome Z * WNDCLASSEXW * world U :=
  let wcx1 := {| cbSize := sizeof_WNDCLASSEXW; style := style wcx;
                 lpfnWndProc := "_window_proc"; cbClsExtra := cbClsExtra wcx;
                 cbWndExtra := cbWndExtra wcx; hInstance := hInstance wcx;
                 hIcon := hIcon wcx; hCursor := hCursor wcx;
                 hbrBackground := hbrBackground wcx;
                 lpszMenuName := lpszMenuName wcx;
                 lpszClassName := lpszClassName wcx; hIconSm := hIconSm wcx |} in
  let w1 := log (RegisterClassExW wcx1) w in
  let atom := reg_atom os in
  let lerr := default ERROR_SUCCESS (reg_last_error os) in
  if decide (lerr = ERROR_CLASS_ALREADY_EXISTS) then
    let w2 := log (GetClassInfoExW (hInstance wcx1) (lpszClassName wcx1)) w1 in
    let atom := info_ret os mod 2 ^ 16 in
    (Ret atom, default wcx1 (info_wcx os), w2)
  else if decide (lerr ≠ ERROR_SUCCESS) then
    (Throw (system_error (int_of_UINT lerr) "RegisterClassEx failed."), wcx1, w1)
  else (Ret atom, wcx1, w1).

(** The registration members, on the object itself. *)
Definition guarded {A} (what : string) (this : t) (body : outcome A * t)
    : outcome A * t :=
  if decide (_hWnd this ≠ 0) then (Throw (logic_error what), this) else body.

Definition lift_ids (this : t) (r : outcome (base_msg_handler.t U))
    : outcome unit * t :=
  match r with
  | Ret h => (Ret (), Make (_hWnd this) h)
  | Throw e => (Throw e, this)
  | Undef => (Undef, this)
  end.

Definition on_message (msg : Z) (f : store.function (world U)) (this : t)
    : outcome unit * t :=
  guarded "Cannot add a message handler after the window was created." this
    (Ret (), Make (_hWnd this) (base_msg_handler.on_message msg f (_msgHandler this))).

Definition on_message_ids (msgs : list Z) (f : store.function (world U)) (this : t)
    : outcome unit * t :=
  guarded "Cannot add message handlers after the window was created." this
    (lift_ids this (base_msg_handler.on_message_ids msgs f (_msgHandler this))).

Definition on_command (cmd : Z) (f : store.function (world U)) (this : t)
    : outcome unit * t :=
  guarded "Cannot add a command handler after the window was created." this
    (Ret (), Make (_hWnd this) (base_msg_handler.on_command cmd f (_msgHandler this))).

Definition on_command_ids (cmds : list Z) (f : store.function (world U)) (this : t)
    : outcome unit * t :=
  guarded "Cannot add command handlers after the window was created." this
    (lift_ids this (base_msg_handler.on_command_ids cmds f (_msgHandler this))).

Definition on_notify (idFrom0 code0 : Z) (f : store.function (world U)) (this : t)
    : outcome unit * t :=
  guarded "Cannot add a notify handler after the window was created." this
    (Ret (), Make (_hWnd this)
                  (base_msg_handler.on_notify idFrom0 code0 f (_msgHandler this))).

Definition on_notify_ids (idFromAndCodes : list (Z * Z))
    (f : store.function (world U)) (this : t) : outcome unit * t :=
  guarded "Cannot add notify handlers after the window was created." this
    (lift_ids this (base_msg_handler.on_notify_ids idFromAndCodes f (_msgHandler this))).

(** The window system as the procedure sees it: the [base_window] objects
    by address, the [lpCreateParams] of the [CREATESTRUCTW] at each
    address, and the world, which holds the [GWLP_USERDATA] slot of each
    handle. *)
Record machine := Machine {
  objects : gmap Z t;
  createstructs : gmap Z Z;
  env : world U }.

(** The [GWLP_USERDATA] slots. *)
Definition userdata (m : machine) : gmap Z Z := slots (env m).

Definition set_object (pSelf : Z) (o : t) (m : machine) : machine :=
  Machine (<[pSelf := o]> (objects m)) (createstructs m) (env m).

Definition set_env (w : world U) (m : machine) : machine :=
  Machine (objects m) (createstructs m) w.

Definition GetWindowLongPtrW (hWnd : Z) (m : machine) : Z :=
  slot_of hWnd (env m).

Definition SetWindowLongPtrW (hWnd v : Z) (m : machine) : machine :=
  set_env (set_slot hWnd v (env m)) m.

(** [pSelf->_hWnd = v], for the object [self] at [pSelf]: from then on
    [hwnd()] returns [v] to the lambdas too. *)
Definition set_hWnd (pSelf v : Z) (self : t) (m : machine) : machine :=
  set_env (set_handle pSelf v (env m))
          (set_object pSelf (Make v (_msgHandler self)) m).

(** [DefWindowProcW(hWnd, msg, wp, lp)]; [def] is what the OS answers. *)
Definition default_proc (def : Z → Z → Z → Z → Z) (hWnd msg wp lp : Z)
    (m : machine) : outcome Z * machine :=
  (Ret (def hWnd msg wp lp), set_env (log (DefWindowProcW hWnd msg wp lp) (env m)) m).

(** [_window_proc], from the point where [pSelf] is known and not null. *)
Definition dispatch (def : Z → Z → Z → Z → Z) (pSelf hWnd msg wp lp : Z)
    (m : machine) : outcome Z * machine :=
  match objects m !! pSelf with
  | None => (Undef, m)
  | Some self =>
      match base_msg_handler.exec msg wp lp (_msgHandler self) (env m) with
      | (Ret ret, h1, w1) =>
          let self1 := Make (_hWnd self) h1 in
          let m1 := set_env w1 (set_object pSelf self1 m) in
          let m2 :=
            if decide (msg = WM_NCDESTROY) then
              set_hWnd pSelf 0 self1 (SetWindowLongPtrW hWnd 0 m1)
            else m1 in
          match ret with
          | Some r => (Ret r, m2)
          | None => default_proc def hWnd msg wp lp m2
          end
      | (Throw e, h1, w1) => (Throw e, set_env w1 m)
      | (Undef, h1, w1) => (Undef, set_env w1 m)
      end
  end.

(** [_window_proc(HWND hWnd, UINT msg, WPARAM wp, LPARAM lp)] *)
Definition _window_proc (def : Z → Z → Z → Z → Z) (hWnd msg wp lp : Z)
    (m : machine) : outcome Z * machine :=
  if decide (msg = WM_NCCREATE) then
    match createstructs m !! lp with
    | None => (Undef, m)
    | Some pSelf =>
        let m1 := SetWindowLongPtrW hWnd pSelf m in
        match objects m1 !! pSelf with
        | None => (Undef, m1)
        | Some self =>
            if decide (pSelf = 0) then (Undef, m1)
            else dispatch def pSelf hWnd msg wp lp (set_hWnd pSelf hWnd self m1)
        end
    end
  else
    let pSelf := GetWindowLongPtrW hWnd m in
    if decide (pSelf = 0) then default_proc def hWnd msg wp lp m
    else dispatch def pSelf hWnd msg wp lp m.

(** The procedure calls the OS makes, one after the other. *)
Fixpoint deliver (def : Z → Z → Z → Z → Z) (msgs : list (Z * Z * Z * Z))
    (m : machine) : outcome unit * machine :=
  match msgs with
  | [] => (Ret (), m)
  | (hWnd, msg, wp, lp) :: rest =>
      match _window_proc def hWnd msg wp lp m with
      | (Ret _, m1) => deliver def rest m1
      | (Throw e, m1) => (Throw e, m1)
      | (Undef, m1) => (Undef, m1)
      end
  end.

(** [create_window(...)] of the object at address [this_]; [parent] is
    [parent ? parent->hwnd() : nullptr]. *)
Definition create_window (def : Z → Z → Z → Z → Z) (this_ : Z)
    (hInst parent : Z) (className : string) (title : option string)
    (hMenu : Z) (pos size : Z * Z) (exStyles styles : Z)
    (os : creation_os) (m : machine) : outcome Z * machine :=
  match objects m !! this_ with
  | None => (Undef, m)
  | Some this =>
      if decide (_hWnd this ≠ 0) then
        (Throw (logic_error "Cannot create a window twice."), m)
      else
        let args := {| ca_exStyles := exStyles; ca_className := className;
                       ca_title := title; ca_styles := styles; ca_pos := pos;
                       ca_size := size; ca_parent := parent; ca_hMenu := hMenu;
                       ca_hInst := hInst; ca_lpParam := this_ |} in
        match deliver def (during os) (set_env (log (CreateWindowExW args) (env m)) m) with
        | (Ret _, m1) =>
            if decide (returned os = 0) then
              (Throw (system_error (int_of_UINT (last_error os)) "CreateWindowEx failed."), m1)
            else (Ret (returned os), m1)
        | (Throw e, m1) => (Throw e, m1)
        | (Undef, m1) => (Undef, m1)
        end
  end.

(** [~base_window()] of the object at address [this_]. *)
Definition destructor (this_ : Z) (m : machine) : outcome unit * machine :=
  match objects m !! this_ with
  | None => (Undef, m)
  | Some this =>
      let m1 := if decide (_hWnd this ≠ 0) then SetWindowLongPtrW (_hWnd this) 0 m
                else m in
      (Ret (), Machine (delete this_ (objects m1)) (createstructs m1) (env m1))
  end.

(** [run_thread_ui(F&& func)] of the object at address [this_], which hands
    its [_hWnd] to [base_msg_handler::run_thread_ui].  [pPack] is the
    address [new thread_pack] returns.  [SendMessageW] fails on a null
    handle; otherwise it calls the procedure of the window, [_window_proc],
    and returns when that has returned. *)
Definition run_thread_ui (def : Z → Z → Z → Z → Z) (this_ : Z)
    (func : U → outcome unit * U) (pPack : Z) (m : machine)
    : outcome unit * machine :=
  match objects m !! this_ with
  | None => (Undef, m)
  | Some this =>
      let hWnd := _hWnd this in
      let w1 := set_packs (<[pPack := func]> (packs (env m))) (env m) in
      let m1 :=
        set_env (log (SendMessageW hWnd base_msg_handler.WM_UI_THREAD 0xc0def00d pPack) w1)
                m in
      if decide (hWnd = 0) then (Ret (), m1)
      else
        match _window_proc def hWnd base_msg_handler.WM_UI_THREAD 0xc0def00d pPack m1 with
        | (Ret _, m2) => (Ret (), m2)
        | (Throw e, m2) => (Throw e, m2)
        | (Undef, m2) => (Undef, m2)
        end
  end.

End base_window.
Arguments t : clear implicits.
Arguments machine : clear implicits.
End base_window.

(** ** base_dialog.h *)

Module base_dialog.
Section base_dialog.
Context {U : Type}.

Record t := Make { _hWnd : Z; _msgHandler : base_msg_handler.t U }.

Definition new : t := Make 0 base_msg_handler.new.

Definition guarded {A} (what : string) (this : t) (body : outcome A * t)
    : outcome A * t :=
  if decide (_hWnd this ≠ 0) then (Throw (logic_error what), this) else body.

Definition lift_ids (this : t) (r : outcome (base_msg_handler.t U))
    : outcome unit * t :=
  match r with
  | Ret h => (Ret (), Make (_hWnd this) h)
  | Throw e => (Throw e, this)
  | Undef => (Undef, this)
  end.

Definition on_message (msg : Z) (f : store.function (world U)) (this : t)
    : outcome unit * t :=
  guarded "Cannot add a message handler after the dialog was created." this
    (Ret (), Make (_hWnd this) (base_msg_handler.on_message msg f (_msgHandler this))).

Definition on_message_ids (msgs : list Z) (f : store.function (world U)) (this : t)
    : outcome unit * t :=
  guarded "Cannot add message handlers after the dialog was created." this
    (lift_ids this (base_msg_handler.on_message_ids msgs f (_msgHandler this))).

Definition on_command (cmd : Z) (f : store.function (world U)) (this : t)
    : outcome unit * t :=
  guarded "Cannot add a command handler after the dialog was created." this
    (Ret (), Make (_hWnd this) (base_msg_handler.on_command cmd f (_msgHandler this))).

Definition on_command_ids (cmds : list Z) (f : store.function (world U)) (this : t)
    : outcome unit * t :=
  guarded "Cannot add command handlers after the dialog was created." this
    (lift_ids this (base_msg_handler.on_command_ids cmds f (_msgHandler this))).

Definition on_notify (idFrom0 code0 : Z) (f : store.function (world U)) (this : t)
    : outcome unit * t :=
  guarded "Cannot add a notify handler after the dialog was created." this
    (Ret (), Make (_hWnd this)
                  (base_msg_handler.on_notify idFrom0 code0 f (_msgHandler this))).

Definition on_notify_ids (idFromAndCodes : list (Z * Z))
    (f : store.function (world U)) (this : t) : outcome unit * t :=
  guarded "Cannot add notify handlers after the dialog was created." this
    (lift_ids this (base_msg_handler.on_notify_ids idFromAndCodes f (_msgHandler this))).

(** [_creation_checks(int dialogId)] *)
Definition _creation_checks (dialogId : Z) (this : t) : outcome unit :=
  if decide (_hWnd this ≠ 0) then Throw (logic_error "Cannot create a dialog twice.")
  else if decide (dialogId = 0) then
    Throw (logic_error "No dialog resource ID given on dialog setup.")
  else Ret ().

(** The dialog manager as the procedure sees it: the [base_dialog] objects
    by address, the font handle [globalUiFont.hfont()] returns, and the
    world, which holds the [DWLP_USER] slot of each handle. *)
Record machine := Machine {
  objects : gmap Z t;
  globalUiFont : Z;
  env : world U }.

(** The [DWLP_USER] slots. *)
Definition userdata (m : machine) : gmap Z Z := slots (env m).

Definition set_object (pSelf : Z) (o : t) (m : machine) : machine :=
  Machine (<[pSelf := o]> (objects m)) (globalUiFont m) (env m).

Definition set_env (w : world U) (m : machine) : machine :=
  Machine (objects m) (globalUiFont m) w.

Definition GetWindowLongPtrW (hWnd : Z) (m : machine) : Z :=
  slot_of hWnd (env m).

Definition SetWindowLongPtrW (hWnd v : Z) (m : machine) : machine :=
  set_env (set_slot hWnd v (env m)) m.

(** [pSelf->_hWnd = v], for the object [self] at [pSelf]: from then on
    [hwnd()] returns [v] to the lambdas too. *)
Definition set_hWnd (pSelf v : Z) (self : t) (m : machine) : machine :=
  set_env (set_handle pSelf v (env m))
          (set_object pSelf (Make v (_msgHandler self)) m).

(** [_dialog_proc], from the point where [pSelf] is known and not null. *)
Definition dispatch (pSelf hWnd msg wp lp : Z) (m : machine)
    : outcome Z * machine :=
  match objects m !! pSelf with
  | None => (Undef, m)
  | Some self =>
      match base_msg_handler.exec msg wp lp (_msgHandler self) (env m) with
      | (Ret ret, h1, w1) =>
          let self1 := Make (_hWnd self) h1 in
          let m1 := set_env w1 (set_object pSelf self1 m) in
          let m2 :=
            if decide (msg = WM_NCDESTROY) then
              set_hWnd pSelf 0 self1 (SetWindowLongPtrW hWnd 0 m1)
            else m1 in
          (Ret (default FALSE ret), m2)
      | (Throw e, h1, w1) => (Throw e, set_env w1 m)
      | (Undef, h1, w1) => (Undef, set_env w1 m)
      end
  end.

(** [_dialog_proc] on a message other than [WM_INITDIALOG]: the owner is
    the one the slot of the handle names. *)
Definition retrieved (hWnd msg wp lp : Z) (m : machine) : outcome Z * machine :=
  let pSelf := GetWindowLongPtrW hWnd m in
  if decide (pSelf = 0) then (Ret FALSE, m)
  else dispatch pSelf hWnd msg wp lp m.

(** [_set_ui_font_on_children(HWND hDlg)]; [MAKELPARAM(FALSE, 0)] is [0].
    [SendMessageW] to the dialog calls its procedure, [_dialog_proc], with
    [WM_SETFONT] and returns when that has returned; the children
    [EnumChildWindows] sends the message to have procedures of their own. *)
Definition _set_ui_font_on_children (hDlg : Z) (m : machine)
    : outcome unit * machine :=
  let font := globalUiFont m in
  match retrieved hDlg WM_SETFONT font 0
          (set_env (log (SendMessageW hDlg WM_SETFONT font 0) (env m)) m) with
  | (Ret _, m1) => (Ret (), set_env (log (EnumChildWindows hDlg font) (env m1)) m1)
  | (Throw e, m1) => (Throw e, m1)
  | (Undef, m1) => (Undef, m1)
  end.

(** [_dialog_proc(HWND hWnd, UINT msg, WPARAM wp, LPARAM lp)] *)
Definition _dialog_proc (hWnd msg wp lp : Z) (m : machine)
    : outcome Z * machine :=
  if decide (msg = WM_INITDIALOG) then
    let pSelf := lp in
    match _set_ui_font_on_children hWnd (SetWindowLongPtrW hWnd pSelf m) with
    | (Ret _, m1) =>
        match objects m1 !! pSelf with
        | None => (Undef, m1)
        | Some self =>
            if decide (pSelf = 0) then (Undef, m1)
            else dispatch pSelf hWnd msg wp lp (set_hWnd pSelf hWnd self m1)
        end
    | (Throw e, m1) => (Throw e, m1)
    | (Undef, m1) => (Undef, m1)
    end
  else retrieved hWnd msg wp lp m.

(** The procedure calls the OS makes, one after the other. *)
Fixpoint deliver (msgs : list (Z * Z * Z * Z)) (m : machine)
    : outcome unit * machine :=
  match msgs with
  | [] => (Ret (), m)
  | (hWnd, msg, wp, lp) :: rest =>
      match _dialog_proc hWnd msg wp lp m with
      | (Ret _, m1) => deliver rest m1
      | (Throw e, m1) => (Throw e, m1)
      | (Undef, m1) => (Undef, m1)
      end
  end.

(** [create_dialog_param(...)] of the object at address [this_]; [parent] is
    [parent ? parent->hwnd() : nullptr]. *)
Definition create_dialog_param (this_ : Z) (hInst parent dialogId : Z)
    (os : creation_os) (m : machine) : outcome Z * machine :=
  match objects m !! this_ with
  | None => (Undef, m)
  | Some this =>
      match _creation_checks dialogId this with
      | Ret _ =>
          match deliver (during os)
                  (set_env (log (CreateDialogParamW hInst dialogId parent this_) (env m)) m) with
          | (Ret _, m1) =>
              if decide (returned os = 0) then
                (Throw (system_error (int_of_UINT (last_error os))
                          "CreateDialogParam failed."), m1)
              else (Ret (returned os), m1)
          | (Throw e, m1) => (Throw e, m1)
          | (Undef, m1) => (Undef, m1)
          end
      | Throw e => (Throw e, m)
      | Undef => (Undef, m)
      end
  end.

(** [dialog_box_param(...)]; [lerr == -1] compares the [DWORD] with
    [0xFFFFFFFF]. *)
Definition dialog_box_param (this_ : Z) (hInst parent dialogId : Z)
    (os : creation_os) (m : machine) : outcome Z * machine :=
  match objects m !! this_ with
  | None => (Undef, m)
  | Some this =>
      match _creation_checks dialogId this with
      | Ret _ =>
          match deliver (during os)
                  (set_env (log (DialogBoxParamW hInst dialogId parent this_) (env m)) m) with
          | (Ret _, m1) =>
              if decide (last_error os mod 2 ^ 32 = 2 ^ 32 - 1) then
                (Throw (system_error (int_of_UINT (last_error os))
                          "DialogBoxParam failed."), m1)
              else (Ret (returned os), m1)
          | (Throw e, m1) => (Throw e, m1)
          | (Undef, m1) => (Undef, m1)
          end
      | Throw e => (Throw e, m)
      | Undef => (Undef, m)
      end
  end.

(** [~base_dialog()] of the object at address [this_]. *)
Definition destructor (this_ : Z) (m : machine) : outcome unit * machine :=
  match objects m !! this_ with
  | None => (Undef, m)
  | Some this =>
      let m1 := if decide (_hWnd this ≠ 0) then SetWindowLongPtrW (_hWnd this) 0 m
                else m in
      (Ret (), Machine (delete this_ (objects m1)) (globalUiFont m1) (env m1))
  end.

(** [run_thread_ui(F&& func)] of the object at address [this_]; as for a
    window, with the dialog manager calling [_dialog_proc]. *)
Definition run_thread_ui (this_ : Z) (func : U → outcome unit * U) (pPack : Z)
    (m : machine) : outcome unit * machine :=
  match objects m !! this_ with
  | None => (Undef, m)
  | Some this =>
      let hWnd := _hWnd this in
      let w1 := set_packs (<[pPack := func]> (packs (env m))) (env m) in
      let m1 :=
        set_env (log (SendMessageW hWnd base_msg_handler.WM_UI_THREAD 0xc0def00d pPack) w1)
                m in
      if decide (hWnd = 0) then (Ret (), m1)
      else
        match _dialog_proc hWnd base_msg_handler.WM_UI_THREAD 0xc0def00d pPack m1 with
        | (Ret _, m2) => (Ret (), m2)
        | (Throw e, m2) => (Throw e, m2)
        | (Undef, m2) => (Undef, m2)
        end
  end.

End base_dialog.
Arguments t : clear implicits.
Arguments machine : clear implicits.
End base_dialog.

(** ** base_native_control.h *)

Module base_native_control.
Section base_native_control.
Context {U : Type}.

Record t := Make {
  _hWnd : Z;
  _subclassId : Z;
  _msgs : store.t Z (world U) }.

Definition new : t := Make 0 0 store.new.

(** [on_subclass_message(UINT msg, F&& func)] *)
Definition on_subclass_message (msg : Z) (f : store.function (world U)) (this : t)
    : outcome unit * t :=
  if decide (_hWnd this ≠ 0) then
    (Throw (logic_error "Cannot add a subclass handler after the window was created."),
     this)
  else (Ret (), Make (_hWnd this) (_subclassId this) (store.add msg f (_msgs this))).

(** [on_subclass_message(std::initializer_list<UINT> msgs, F&& func)] *)
Definition on_subclass_message_ids (msgs : list Z) (f : store.function (world U))
    (this : t) : outcome unit * t :=
  if decide (_hWnd this ≠ 0) then
    (Throw (logic_error "Cannot add subclass handlers after the window was created."),
     this)
  else
    match store.add_ids msgs f (_msgs this) with
    | Ret s => (Ret (), Make (_hWnd this) (_subclassId this) s)
    | Throw e => (Throw e, this)
    | Undef => (Undef, this)
    end.

(** The [base_native_control] objects by address, the function-local static
    [firstId] (a [UINT_PTR] of the 64-bit build), and the world. *)
Record machine := Machine {
  objects : gmap Z t;
  firstId : Z;
  env : world U }.

(** [_install_subclass_if_needed()] of the object at address [this_]. *)
Definition _install_subclass_if_needed (this_ : Z) (m : machine)
    : outcome unit * machine :=
  match objects m !! this_ with
  | None => (Undef, m)
  | Some this =>
      if negb (store.empty (_msgs this)) then
        let firstId1 := (firstId m + 1) mod 2 ^ 64 in
        (Ret (),
         Machine (<[this_ := Make (_hWnd this) firstId1 (_msgs this)]> (objects m))
                 firstId1
                 (log (SetWindowSubclass (_hWnd this) "_subclass_proc" firstId1 this_)
                      (env m)))
      else (Ret (), m)
  end.

(** [assign(const wl::i_window* parent, int ctrlId)]; [parent] is [None] for
    a null pointer and [Some (parent->hwnd())] otherwise; [dlgItem] is what
    [GetDlgItem] answers. *)
Definition assign (this_ : Z) (parent : option Z) (ctrlId : Z) (dlgItem : Z)
    (m : machine) : outcome unit * machine :=
  match objects m !! this_ with
  | None => (Undef, m)
  | Some this =>
      if decide (_hWnd this ≠ 0) then
        (Throw (logic_error "Cannot assign an alredy created control."), m)
      else
        match parent with
        | None =>
            (Throw (invalid_argument "No parent passed to base_native_control::show()."),
             m)
        | Some _ =>
            _install_subclass_if_needed this_
              (Machine (<[this_ := Make dlgItem (_subclassId this) (_msgs this)]> (objects m))
                       (firstId m) (env m))
        end
  end.

(** [create_window(...)]; [hInst] is what [GetWindowLongPtrW(parent->hwnd(),
    GWLP_HINSTANCE)] answers; the control's class procedure is the system's,
    so [CreateWindowExW] makes no call into this library. *)
Definition create_window (this_ : Z) (parent : option Z) (id0 : Z)
    (className : string) (title : option string) (pos size : Z * Z)
    (styles exStyles : Z) (hInst : Z) (os : creation_os) (m : machine)
    : outcome Z * machine :=
  match objects m !! this_ with
  | None => (Undef, m)
  | Some this =>
      if decide (_hWnd this ≠ 0) then
        (Throw (logic_error "Cannot create a control twice."), m)
      else
        match parent with
        | None =>
            (Throw (invalid_argument "No parent passed to base_native_control::show()."),
             m)
        | Some hParent =>
            let args := {| ca_exStyles := exStyles; ca_className := className;
                           ca_title := title; ca_styles := styles; ca_pos := pos;
                           ca_size := size; ca_parent := hParent;
                           ca_hMenu := id0 mod 2 ^ 64; ca_hInst := hInst;
                           ca_lpParam := 0 |} in
            let m1 := Machine (objects m) (firstId m) (log (CreateWindowExW args) (env m)) in
            let h := returned os in
            if decide (h = 0) then
              (Throw (system_error (int_of_UINT (last_error os))
                        "CreateWindowEx failed for native control."), m1)
            else
              match _install_subclass_if_needed this_
                      (Machine (<[this_ := Make h (_subclassId this) (_msgs this)]> (objects m1))
                               (firstId m1) (env m1)) with
              | (Ret _, m2) => (Ret h, m2)
              | (Throw e, m2) => (Throw e, m2)
              | (Undef, m2) => (Undef, m2)
              end
        end
  end.

(** The first part of [_subclass_proc]: the search for a user lambda and
    its execution.  Answers [Some retVal] when [userFunc] was found, [None]
    when it stayed null. *)
Definition searched (msg wp lp refData : Z) (m : machine)
    : outcome (option Z) * machine :=
  let pSelf := refData in
  if decide (pSelf = 0) then (Ret None, m)
  else
    match objects m !! pSelf with
    | None => (Undef, m)
    | Some self =>
        if decide (_hWnd self = 0) then (Ret None, m)
        else
          match store.find msg (_msgs self) with
          | (Ret userFunc, s1) =>
              let m1 := Machine (<[pSelf := Make (_hWnd self) (_subclassId self) s1]> (objects m))
                                (firstId m) (env m) in
              match userFunc with
              | None => (Ret None, m1)
              | Some ptr =>
                  match catch_all_excps (store.call s1 ptr (Any wp lp)) YES (env m1) with
                  | (Ret retVal, w1) =>
                      (Ret (Some (default 0 retVal)),
                       Machine (objects m1) (firstId m1) w1)
                  | (Throw e, w1) => (Throw e, Machine (objects m1) (firstId m1) w1)
                  | (Undef, w1) => (Undef, Machine (objects m1) (firstId m1) w1)
                  end
              end
          | (Throw e, s1) => (Throw e, m)
          | (Undef, s1) => (Undef, m)
          end
    end.

(** [_subclass_proc(hWnd, msg, wp, lp, idSubclass, refData)]; [def] is what
    [DefSubclassProc] answers. *)
Definition _subclass_proc (def : Z → Z → Z → Z → Z)
    (hWnd msg wp lp idSubclass refData : Z) (m : machine) : outcome Z * machine :=
  match searched msg wp lp refData m with
  | (Ret ran, m1) =>
      let m2 :=
        if decide (msg = WM_NCDESTROY) then
          Machine (objects m1) (firstId m1)
                  (log (RemoveWindowSubclass hWnd "_subclass_proc" idSubclass) (env m1))
        else m1 in
      match ran with
      | Some retVal => (Ret retVal, m2)
      | None =>
          (Ret (def hWnd msg wp lp),
           Machine (objects m2) (firstId m2)
                   (log (DefSubclassProc hWnd msg wp lp) (env m2)))
      end
  | (Throw e, m1) => (Throw e, m1)
  | (Undef, m1) => (Undef, m1)
  end.

End base_native_control.
Arguments t : clear implicits.
Arguments machine : clear implicits.
End base_native_control.

(** ** Sequencing of calls *)

Global Instance outcome_ret : MRet outcome := λ A a, Ret a.
Global Instance outcome_bind : MBind outcome := λ A B f m,
  match m with
  | Ret a => f a
  | Throw e => Throw e
  | Undef => Undef
  end.

(** Conversions to the unsigned types. *)
Definition BYTE_of (z : Z) : Z := z mod 2 ^ 8.
Definition WORD_of (z : Z) : Z := z mod 2 ^ 16.
Definition DWORD_of (z : Z) : Z := z mod 2 ^ 32.

(** [a << k] on [int]. *)
Definition shl_int (a k : Z) : Z := int_of_UINT (Z.shiftl a k).

(** ** internals/bin_aux.h *)

Module bin_aux.

(** A [const BYTE*] is [None] for the null pointer and otherwise the bytes
    of the buffer from the pointer to the buffer's end; [data[i]] past that
    end, or through the null pointer, is undefined. *)
Definition at_ (data : option (list Z)) (i : nat) : outcome Z :=
  match data with
  | None => Undef
  | Some bs => match bs !! i with Some b => Ret b | None => Undef end
  end.

(** [&data[i]], [data + i] *)
Definition advance (data : option (list Z)) (i : nat) : option (list Z) :=
  drop i <$> data.

(** [parse_uint16_be(const BYTE* data)] *)
Definition parse_uint16_be (data : option (list Z)) : outcome Z :=
  d0 ← at_ data 0; d1 ← at_ data 1;
  mret (WORD_of (Z.lor (shl_int d0 8) d1)).

(** [parse_uint16_le(const BYTE* data)] *)
Definition parse_uint16_le (data : option (list Z)) : outcome Z :=
  d0 ← at_ data 0; d1 ← at_ data 1;
  mret (WORD_of (Z.lor d0 (shl_int d1 8))).

(** [parse_uint32_be(const BYTE* data)] *)
Definition parse_uint32_be (data : option (list Z)) : outcome Z :=
  d0 ← at_ data 0; d1 ← at_ data 1; d2 ← at_ data 2; d3 ← at_ data 3;
  mret (DWORD_of (Z.lor (Z.lor (Z.lor (shl_int d0 24) (shl_int d1 16))
                               (shl_int d2 8)) d3)).

(** [parse_uint32_le(const BYTE* data)] *)
Definition parse_uint32_le (data : option (list Z)) : outcome Z :=
  d0 ← at_ data 0; d1 ← at_ data 1; d2 ← at_ data 2; d3 ← at_ data 3;
  mret (DWORD_of (Z.lor (Z.lor (Z.lor d0 (shl_int d1 8)) (shl_int d2 16))
                        (shl_int d3 24))).

(** The loop of [str_from_ansi], with [n] iterations left at index [i]. *)
Fixpoint ansi_loop (data : option (list Z)) (n i : nat) (ret : list Z)
    : outcome (list Z) :=
  match n with
  | O => Ret ret
  | S n' =>
      b ← at_ data i;
      if decide (b = 0) then Ret (take i ret)
      else ansi_loop data n' (S i) (<[i := b]> ret)
  end.

(** [str_from_ansi(const BYTE* data, size_t sz)]; the string is the list of
    its [wchar_t] values. *)
Definition str_from_ansi (data : option (list Z)) (sz : nat) : outcome (list Z) :=
  match data with
  | Some _ =>
      if decide (sz ≠ O) then ansi_loop data sz 0 (replicate sz 0) else Ret []
  | None => Ret []
  end.

(** [lstrlenW(ret.c_str())] followed by [resize]: the string up to its
    first null. *)
Fixpoint trim_nulls (s : list Z) : list Z :=
  match s with
  | [] => []
  | c :: tl => if decide (c = 0) then [] else c :: trim_nulls tl
  end.

(** [str_from_code_page(data, sz, codePage)].  [MultiByteToWideChar] is the
    OS's conversion of [cbMultiByte] bytes at [data] under a code page: the
    string both calls agree on ([neededLen] is its length), or [None] when
    the OS reads past the buffer's end.  [cbMultiByte] is
    [static_cast<int>(sz)]. *)
Definition str_from_code_page
    (MultiByteToWideChar : Z → list Z → Z → option (list Z))
    (data : option (list Z)) (sz : nat) (codePage : Z) : outcome (list Z) :=
  match data with
  | Some bs =>
      if decide (sz ≠ O) then
        match MultiByteToWideChar codePage bs (int_of_UINT (Z.of_nat sz)) with
        | Some ret => Ret (trim_nulls ret)
        | None => Undef
        end
      else Ret []
  | None => Ret []
  end.

(** The loop of [str_from_utf16], with [n] iterations left at index [i]
    ([i] goes [0, 2, 4, ...] below the even [sz]). *)
Fixpoint utf16_loop (data : option (list Z)) (n i : nat) (isBigEndian : bool)
    (buf : list Z) : outcome (list Z) :=
  match n with
  | O => Ret buf
  | S n' =>
      c ← (if isBigEndian then parse_uint16_be (advance data i)
           else parse_uint16_le (advance data i));
      utf16_loop data n' (i + 2) isBigEndian (buf ++ [c])
  end.

(** [str_from_utf16(const BYTE* data, size_t sz, bool isBigEndian)] *)
Definition str_from_utf16 (data : option (list Z)) (sz : nat) (isBigEndian : bool)
    : outcome (list Z) :=
  let sz := if decide (sz `mod` 2 ≠ 0)%nat then (sz - 1)%nat else sz in
  utf16_loop data (sz `div` 2) 0 isBigEndian [].

(** The loop of [format_file_filter], with [n] iterations left at index [i]. *)
Fixpoint filter_loop (filterWithPipes : list Z) (n i : nat) (multiZ : list Z)
    : outcome (list Z) :=
  match n with
  | O => Ret multiZ
  | S n' =>
      match filterWithPipes !! i with
      | None => Undef
      | Some c =>
          filter_loop filterWithPipes n' (S i)
            (<[i := if decide (c ≠ 124) then c else 0]> multiZ)
      end
  end.

(** [format_file_filter(std::wstring_view filterWithPipes)]; ['|'] is [124]. *)
Definition format_file_filter (filterWithPipes : list Z) : outcome (list Z) :=
  filter_loop filterWithPipes (length filterWithPipes) 0
    (replicate (length filterWithPipes + 2) 0).

End bin_aux.

(** ** bin.h *)

Module bin.

Inductive encoding :=
| UNKNOWN | ASCII | WIN1252 | UTF8 | UTF16BE | UTF16LE | UTF32BE | UTF32LE
| SCSU | BOCU1.

Record encoding_info := { encType : encoding; bomSize : nat }.

(** [CP_UTF8] *)
Definition CP_UTF8 : Z := 65001.

(** The lambda [match] of [guess_encoding]: [memcmp] reads [szBom] bytes. *)
Definition bom_match (data : option (list Z)) (sz : nat) (pBom : list Z)
    : outcome bool :=
  if decide (length pBom ≤ sz)%nat then
    match data with
    | Some bs =>
        if decide (length pBom ≤ length bs)%nat
        then Ret (bool_decide (take (length pBom) bs = pBom))
        else Undef
    | None => Undef
    end
  else Ret false.

(** The loop of [guess_encoding], with [n] iterations left at index [i];
    [sz - 2] is computed on [size_t], of 64 bits, and [&&] and [||] read
    [data[i+1]] only when [data[i]] is [0xC2] or [0xC3]. *)
Fixpoint guess_loop (data : option (list Z)) (sz n i : nat) (canBeWin1252 : bool)
    : outcome encoding_info :=
  match n with
  | O => Ret {| encType := if canBeWin1252 then WIN1252 else ASCII; bomSize := 0 |}
  | S n' =>
      b ← bin_aux.at_ data i;
      if decide (b > 0x7F) then
        isUtf8 ←
          (if decide (Z.of_nat i ≤ (Z.of_nat sz - 2) mod 2 ^ 64) then
             if decide (b = 0xC2) then
               b1 ← bin_aux.at_ data (S i);
               mret (bool_decide (0xA1 ≤ b1) && bool_decide (b1 ≤ 0xBF))
             else if decide (b = 0xC3) then
               b1 ← bin_aux.at_ data (S i);
               mret (bool_decide (0x80 ≤ b1) && bool_decide (b1 ≤ 0xBF))
             else mret false
           else mret false);
        if isUtf8 : bool then Ret {| encType := UTF8; bomSize := 0 |}
        else guess_loop data sz n' (S i) true
      else guess_loop data sz n' (S i) canBeWin1252
  end.

(** [guess_encoding(const BYTE* data, size_t sz)] *)
Definition guess_encoding (data : option (list Z)) (sz : nat)
    : outcome encoding_info :=
  m ← bom_match data sz [0xEF; 0xBB; 0xBF];
  if m : bool then Ret {| encType := UTF8; bomSize := 3 |} else
  m ← bom_match data sz [0xFE; 0xFF];
  if m : bool then Ret {| encType := UTF16BE; bomSize := 2 |} else
  m ← bom_match data sz [0xFF; 0xFE];
  if m : bool then Ret {| encType := UTF16LE; bomSize := 2 |} else
  m ← bom_match data sz [0x00; 0x00; 0xFE; 0xFF];
  if m : bool then Ret {| encType := UTF32BE; bomSize := 4 |} else
  m ← bom_match data sz [0xFF; 0xFE; 0x00; 0x00];
  if m : bool then Ret {| encType := UTF32LE; bomSize := 4 |} else
  m ← bom_match data sz [0x0E; 0xFE; 0xFF];
  if m : bool then Ret {| encType := SCSU; bomSize := 3 |} else
  m ← bom_match data sz [0xFB; 0xEE; 0x28];
  if m : bool then Ret {| encType := BOCU1; bomSize := 3 |} else
  guess_loop data sz sz 0 false.

(** [&data[0]] of a [std::vector<BYTE>]; index [0] of an empty vector is
    past its end. *)
Definition vector_data (data : list Z) : outcome (option (list Z)) :=
  match data with
  | [] => Undef
  | _ :: _ => Ret (Some data)
  end.

(** [guess_encoding(const std::vector<BYTE>& data)] *)
Definition guess_encoding_vec (data : list Z) : outcome encoding_info :=
  p ← vector_data data; guess_encoding p (length data).

(** [parse_str(const BYTE* data, size_t sz)] *)
Definition parse_str (MultiByteToWideChar : Z → list Z → Z → option (list Z))
    (data : option (list Z)) (sz : nat) : outcome (list Z) :=
  match data with
  | None => Ret []
  | Some _ =>
      if decide (sz = O) then Ret [] else
      fileEnc ← guess_encoding data sz;
      let data := bin_aux.advance data (bomSize fileEnc) in
      match encType fileEnc with
      | UNKNOWN | ASCII => bin_aux.str_from_ansi data sz
      | WIN1252 => bin_aux.str_from_code_page MultiByteToWideChar data sz 1252
      | UTF8 => bin_aux.str_from_code_page MultiByteToWideChar data sz CP_UTF8
      | UTF16BE => bin_aux.str_from_utf16 data sz true
      | UTF16LE => bin_aux.str_from_utf16 data sz false
      | UTF32BE =>
          Throw (invalid_argument "UTF-32 big endian: encoding not implemented.")
      | UTF32LE =>
          Throw (invalid_argument "UTF-32 little endian: encoding not implemented.")
      | SCSU =>
          Throw (invalid_argument
                   "Standard compression scheme for Unicode: encoding not implemented.")
      | BOCU1 =>
          Throw (invalid_argument
                   "Binary ordered compression for Unicode: encoding not implemented.")
      end
  end.

(** [parse_str(const std::vector<BYTE>& data)] *)
Definition parse_str_vec (MultiByteToWideChar : Z → list Z → Z → option (list Z))
    (data : list Z) : outcome (list Z) :=
  p ← vector_data data; parse_str MultiByteToWideChar p (length data).

(** [parse_uint16_be] and its three siblings hand on to [bin_aux]. *)
Definition parse_uint16_be := bin_aux.parse_uint16_be.
Definition parse_uint16_le := bin_aux.parse_uint16_le.
Definition parse_uint32_be := bin_aux.parse_uint32_be.
Definition parse_uint32_le := bin_aux.parse_uint32_le.

(** [dest[0] = a; dest[1] = b; ...]: writing past the buffer's end is
    undefined. *)
Fixpoint put_bytes (dest : list Z) (i : nat) (bytes : list Z) : outcome (list Z) :=
  match bytes with
  | [] => Ret dest
  | b :: tl =>
      if decide (i < length dest)%nat
      then put_bytes (<[i := BYTE_of b]> dest) (S i) tl
      else Undef
  end.

(** [put_uint16_be(WORD n, BYTE* dest)]: the buffer from [dest] on, after
    the writes. *)
Definition put_uint16_be (n : Z) (dest : list Z) : outcome (list Z) :=
  put_bytes dest 0 [Z.shiftr (Z.land n 0xFF00) 8; Z.land n 0xFF].

(** [put_uint16_le(WORD n, BYTE* dest)] *)
Definition put_uint16_le (n : Z) (dest : list Z) : outcome (list Z) :=
  put_bytes dest 0 [Z.land n 0xFF; Z.shiftr (Z.land n 0xFF00) 8].

(** [put_uint32_be(DWORD n, BYTE* dest)] *)
Definition put_uint32_be (n : Z) (dest : list Z) : outcome (list Z) :=
  put_bytes dest 0
    [Z.shiftr (Z.land n 0xFF000000) 24; Z.shiftr (Z.land n 0xFF0000) 16;
     Z.shiftr (Z.land n 0xFF00) 8; Z.land n 0xFF].

(** [put_uint32_le(DWORD n, BYTE* dest)] *)
Definition put_uint32_le (n : Z) (dest : list Z) : outcome (list Z) :=
  put_bytes dest 0
    [Z.land n 0xFF; Z.shiftr (Z.land n 0xFF00) 8;
     Z.shiftr (Z.land n 0xFF0000) 16; Z.shiftr (Z.land n 0xFF000000) 24].

End bin.

(** ** str.h: the conversions built on [bin_aux] *)

Module str.

(** [ansi_to_unicode(std::string_view s)]; a [char] of the view is the byte
    it holds, and [s.data()] points to [s.length()] of them. *)
Definition ansi_to_unicode (s : list Z) : outcome (list Z) :=
  bin_aux.str_from_ansi (Some s) (length s).

(** The loop of [unicode_to_ansi], with [n] iterations left at index [i];
    [static_cast<char>] keeps the low byte. *)
Fixpoint to_ansi_loop (s : list Z) (n i : nat) (ret : list Z) : outcome (list Z) :=
  match n with
  | O => Ret ret
  | S n' =>
      match s !! i with
      | None => Undef
      | Some c => to_ansi_loop s n' (S i) (<[i := BYTE_of c]> ret)
      end
  end.

(** [unicode_to_ansi(std::wstring_view s)] *)
Definition unicode_to_ansi (s : list Z) : outcome (list Z) :=
  to_ansi_loop s (length s) 0 (replicate (length s) 0).

End str.

(** ** Specification-side definitions

    The properties below are stated against these descriptions, which
    follow the wording of the library's documentation rather than its
    loops. *)

Section spec.
Context {idT : Type} `{EqDecision idT} {W : Type}.

(** The position of the last handler registered under [k], if any. *)
Fixpoint last_match (k : idT) (hs : list (store.handler idT W)) : option nat :=
  match hs with
  | [] => None
  | h :: tl =>
      match last_match k tl with
      | Some j => Some (S j)
      | None => if decide (store.id h = k) then Some O else None
      end
  end.

(** The callback most recently added under [k] in a sequence of
    [add(key, callback)] calls. *)
Fixpoint last_added (k : idT) (l : list (idT * store.function W))
    : option (store.function W) :=
  match l with
  | [] => None
  | (k', f) :: tl =>
      match last_added k tl with
      | Some g => Some g
      | None => if decide (k' = k) then Some f else None
      end
  end.

(** A sequence of single-key [add] calls. *)
Definition adds (l : list (idT * store.function W)) (s : store.t idT W)
    : store.t idT W :=
  foldl (λ acc kf, store.add kf.1 kf.2 acc) s l.

(** The registrations of a store: everything after the sentinel. *)
Definition registrations (s : store.t idT W) : list (store.handler idT W) :=
  tail (store._handlers s).

(** The store after [find] wrote [k] into the sentinel. *)
Definition probed (k : idT) (s : store.t idT W) : store.t idT W :=
  match store._handlers s with
  | [] => s
  | h0 :: rest => store.Store (store.Handler k (store.func h0) :: rest)
  end.

(** A store the constructor has run on: the sentinel is there. *)
Definition constructed (s : store.t idT W) : Prop := store._handlers s ≠ [].

(** Calls to [add] and [find] in any order. *)
Inductive op :=
| Add (k : idT) (f : store.function W)
| Find (k : idT).

Definition run_op (s : store.t idT W) (o : op) : store.t idT W :=
  match o with
  | Add k f => store.add k f s
  | Find k => (store.find k s).2
  end.

Definition added (ops : list op) : list (idT * store.function W) :=
  omap (λ o, match o with Add k f => Some (k, f) | Find _ => None end) ops.

End spec.

Section dispatch_spec.
Context {U : Type}.

(** What dispatching key [k] to table [s] amounts to: no registration under
    [k], nothing happens and the answer is empty; otherwise the last one
    registered under [k] runs, its result is the answer, and an exception
    it throws is shown in a message box, followed by [PostQuitMessage(-1)],
    with [0] as the answer. *)
Definition answer {K : Type} `{EqDecision K} (s : store.t K (world U)) (k : K)
    (p : any) (w : world U) : outcome (option Z) * world U :=
  match last_match k (registrations s) with
  | None => (Ret None, w)
  | Some j =>
      match store.call s (S j) p w with
      | (Ret v, w1) => (Ret (Some v), w1)
      | (Throw e, w1) =>
          (Ret (Some 0),
           log (PostQuitMessage (-1)) (log (MessageBox (caption_of e) e) w1))
      | (Undef, w1) => (Undef, w1)
      end
  end.

(** A [base_msg_handler] whose three stores were constructed. *)
Definition constructed_handler (h : base_msg_handler.t U) : Prop :=
  constructed (base_msg_handler._msgs h) ∧
  constructed (base_msg_handler._cmds h) ∧
  constructed (base_msg_handler._nfys h).

End dispatch_spec.

Section control_spec.
Context {U : Type}.

(** One call of [on_subclass_message], in either overload. *)
Inductive registration :=
| One (msg : Z) (f : store.function (world U))
| Many (msgs : list Z) (f : store.function (world U)).

Definition register (r : registration) (this : base_native_control.t U)
    : outcome unit * base_native_control.t U :=
  match r with
  | One msg f => base_native_control.on_subclass_message msg f this
  | Many msgs f => base_native_control.on_subclass_message_ids msgs f this
  end.

(** The registrations made on a control before it is assigned or created. *)
Fixpoint register_all (regs : list registration) (this : base_native_control.t U)
    : outcome unit * base_native_control.t U :=
  match regs with
  | [] => (Ret (), this)
  | r :: rest =>
      match register r this with
      | (Ret _, this1) => register_all rest this1
      | (Throw e, this1) => (Throw e, this1)
      | (Undef, this1) => (Undef, this1)
      end
  end.

(** The call of [SetWindowSubclass], made when something was registered. *)
Definition installs (regs : list registration) (hWnd firstId this_ : Z)
    : list os_call :=
  match regs with
  | [] => []
  | _ :: _ =>
      [SetWindowSubclass hWnd "_subclass_proc" ((firstId + 1) mod 2 ^ 64) this_]
  end.

End control_spec.

(** ** Descriptions of the binary helpers *)

(** The 16-bit units of a byte string, two bytes at a time; a last odd byte
    is left over. *)
Fixpoint units16 (isBigEndian : bool) (bs : list Z) : list Z :=
  match bs with
  | a :: b :: tl =>
      (if isBigEndian then a * 2 ^ 8 + b else a + b * 2 ^ 8) :: units16 isBigEndian tl
  | _ => []
  end.

Definition is_byte (b : Z) : Prop := 0 ≤ b < 2 ^ 8.

(** A filter string with every ['|'] turned into a null. *)
Definition pipes_to_nulls (s : list Z) : list Z :=
  (λ c, if decide (c = 124) then 0 else c) <$> s.

Definition is_7bit (b : Z) : Prop := 0 ≤ b ≤ 0x7F.

(** The buffer starts with the byte order mark [bom], within its first
    [sz] bytes. *)
Definition has_bom (bom : list Z) (sz : nat) (bs : list Z) : bool :=
  bool_decide ((length bom ≤ sz)%nat ∧ take (length bom) bs = bom).

(** A two-byte UTF-8 sequence of the ranges [guess_encoding] looks for:
    [C2 A1..BF] or [C3 80..BF]. *)
Definition utf8_pair (b b1 : Z) : bool :=
  bool_decide (b = 0xC2 ∧ 0xA1 ≤ b1 ≤ 0xBF)
  || bool_decide (b = 0xC3 ∧ 0x80 ≤ b1 ≤ 0xBF).

(** Some two neighbouring bytes are such a sequence. *)
Fixpoint has_utf8_pair (bs : list Z) : bool :=
  match bs with
  | b :: tl =>
      match tl with
      | b1 :: _ => utf8_pair b b1 || has_utf8_pair tl
      | [] => false
      end
  | [] => false
  end.

(** Some byte is above [0x7F]. *)
Definition has_high (bs : list Z) : bool :=
  existsb (λ b, bool_decide (b > 0x7F)) bs.

(** The encoding of text without a byte order mark. *)
Definition classify (bs : list Z) : bin.encoding :=
  if has_utf8_pair bs then bin.UTF8
  else if has_high bs then bin.WIN1252 else bin.ASCII.

(** The byte order marks [parse_str] has no decoder for, with the message
    of the exception. *)
Definition unsupported_boms : list (list Z * string) :=
  [ ([0x00; 0x00; 0xFE; 0xFF], "UTF-32 big endian: encoding not implemented.");
    ([0x0E; 0xFE; 0xFF],
     "Standard compression scheme for Unicode: encoding not implemented.");
    ([0xFB; 0xEE; 0x28],
     "Binary ordered compression for Unicode: encoding not implemented.") ].

(** The byte order marks [guess_encoding] knows. *)
Definition all_boms : list (list Z) :=
  [ [0xEF; 0xBB; 0xBF]; [0xFE; 0xFF]; [0xFF; 0xFE]; [0x00; 0x00; 0xFE; 0xFF];
    [0xFF; 0xFE; 0x00; 0x00]; [0x0E; 0xFE; 0xFF]; [0xFB; 0xEE; 0x28] ].

Section registration_spec.
Context {idT : Type} `{EqDecision idT} {W : Type}.

(** One registration call on a store: [add(id, func)] with a user lambda,
    or [add({ids...}, func)]. *)
Inductive reg_call :=
| Single (k : idT) (g : store.lambda W)
| Multi (ks : list idT) (g : store.lambda W).

Definition reg_keys (c : reg_call) : list idT :=
  match c with Single k _ => [k] | Multi ks _ => ks end.

Definition reg_func (c : reg_call) : store.lambda W :=
  match c with Single _ g | Multi _ g => g end.

Definition do_reg (c : reg_call) (s : store.t idT W) : outcome (store.t idT W) :=
  match c with
  | Single k g => Ret (store.add k (store.UserFunc g) s)
  | Multi ks g => store.add_ids ks (store.UserFunc g) s
  end.

(** Registration calls made one after the other. *)
Definition do_regs (cs : list reg_call) (s : store.t idT W)
    : outcome (store.t idT W) :=
  foldl (λ acc c, s1 ← acc; do_reg c s1) (Ret s) cs.

(** The lambda of the most recent call that names [k]. *)
Fixpoint last_naming (k : idT) (cs : list reg_call) : option (store.lambda W) :=
  match cs with
  | [] => None
  | c :: tl =>
      match last_naming k tl with
      | Some g => Some g
      | None => if decide (k ∈ reg_keys c) then Some (reg_func c) else None
      end
  end.

(** The handler [h] of the vector [hs] ends in the user lambda [g]: it
    holds [g], or a wrapper of an element that holds [g]. *)
Definition resolves (hs : list (store.handler idT W)) (h : store.handler idT W)
    (g : store.lambda W) : Prop :=
  store.func h = store.UserFunc g ∨
  ∃ i k', store.func h = store.Wrapper i ∧
          hs !! i = Some (store.Handler k' (store.UserFunc g)).

(** What a run of registration calls keeps true of the store. *)
Definition regs_inv (cs : list reg_call) (s : store.t idT W) : Prop :=
  (length cs < length (store._handlers s))%nat ∧
  ∀ k, match last_match k (registrations s) with
       | Some j =>
           ∃ h g, registrations s !! j = Some h ∧
                  resolves (store._handlers s) h g ∧ last_naming k cs = Some g
       | None => last_naming k cs = None
       end.

(** A store on which the registration calls [cs] were made, one after the
    other, since its construction; [find] may have written its sentinel
    since. *)
Definition built `{SentinelInit idT} (cs : list reg_call) (s : store.t idT W)
    : Prop :=
  ∃ s0, do_regs cs store.new = Ret s0 ∧ (s = s0 ∨ ∃ k, s = probed k s0).

(** The same registration call with another lambda. *)
Definition with_lambda (g : store.lambda W) (c : reg_call) : reg_call :=
  match c with
  | Single k _ => Single k g
  | Multi ks _ => Multi ks g
  end.

End registration_spec.

Section dispatch_spec_more.
Context {U : Type}.

(** What running the user lambda [g] for a message amounts to, seen from
    the caller of [exec]: its result; or, when it throws, a message box,
    [PostQuitMessage(-1)] and the answer [0]. *)
Definition ran (g : store.lambda (world U)) (p : any) (w : world U)
    : outcome (option Z) * world U :=
  match g p w with
  | (Ret v, w1) => (Ret (Some v), w1)
  | (Throw e, w1) =>
      (Ret (Some 0),
       log (PostQuitMessage (-1)) (log (MessageBox (caption_of e) e) w1))
  | (Undef, w1) => (Undef, w1)
  end.

(** The OS calls [catch_all_excps] makes for the outcome of a function run
    under [post_quit_on_catch::YES]. *)
Definition caught {A} (o : outcome A) : list os_call :=
  match o with
  | Throw e => [MessageBox (caption_of e) e; PostQuitMessage (-1)]
  | _ => []
  end.

(** What dispatching the key [k] to a table amounts to, given the
    registration calls [cs] made on it: the lambda of the most recent call
    that names [k] runs, as [ran] describes; when no call names [k],
    nothing happens and the answer is empty. *)
Definition dispatched {K : Type} `{EqDecision K}
    (cs : list (reg_call (idT:=K) (W:=world U))) (k : K) (p : any) (w : world U)
    : outcome (option Z) * world U :=
  match last_naming k cs with
  | Some g => ran g p w
  | None => (Ret None, w)
  end.

(** A handler whose message, command and notification tables hold the
    registration calls [ms], [cs] and [ns]. *)
Definition registered (ms : list (reg_call (idT:=Z) (W:=world U)))
    (cs : list (reg_call (idT:=Z) (W:=world U)))
    (ns : list (reg_call (idT:=Z * Z) (W:=world U)))
    (h : base_msg_handler.t U) : Prop :=
  built ms (base_msg_handler._msgs h) ∧
  built cs (base_msg_handler._cmds h) ∧
  built ns (base_msg_handler._nfys h).

(** What a window or dialog procedure does to the world once the handlers
    of a message have run: nothing, except on [WM_NCDESTROY], where it
    zeroes the slot of the handle and then the handle field of the owner. *)
Definition after_message (msg hWnd pSelf : Z) (w : world U) : world U :=
  if decide (msg = WM_NCDESTROY) then set_handle pSelf 0 (set_slot hWnd 0 w)
  else w.

End dispatch_spec_more.

Section control_spec_more.
Context {U : Type}.

(** A registration call on a store, made through [on_subclass_message]. *)
Definition to_registration (c : reg_call (idT:=Z) (W:=world U))
    : registration (U:=U) :=
  match c with
  | Single k g => One k (store.UserFunc g)
  | Multi ks g => Many ks (store.UserFunc g)
  end.

(** What a procedure returns for the answer of the search: the handler's
    value, or [d] when no handler was found. *)
Definition passed_on (d : Z) (r : outcome (option Z) * world U)
    : outcome Z * world U :=
  (match r.1 with
   | Ret v => Ret (default d v)
   | Throw e => Throw e
   | Undef => Undef
   end, r.2).

(** The calls the OS makes to the subclass procedure installed with
    [refData], one after the other, each with its [hWnd], [msg], [wp], [lp]
    and [idSubclass]. *)
Fixpoint subclass_run (def : Z → Z → Z → Z → Z) (refData : Z)
    (calls : list (Z * Z * Z * Z * Z)) (m : base_native_control.machine U)
    : outcome unit * base_native_control.machine U :=
  match calls with
  | [] => (Ret (), m)
  | (hWnd, msg, wp, lp, idSubclass) :: rest =>
      match base_native_control._subclass_proc def hWnd msg wp lp idSubclass
              refData m with
      | (Ret _, m1) => subclass_run def refData rest m1
      | (Throw e, m1) => (Throw e, m1)
      | (Undef, m1) => (Undef, m1)
      end
  end.

(** Controls assigned one after the other to items of the same parent:
    each with its address, its control id and what [GetDlgItem] answers. *)
Fixpoint assign_each (ctrls : list (Z * Z * Z)) (hParent : Z)
    (m : base_native_control.machine U)
    : outcome unit * base_native_control.machine U :=
  match ctrls with
  | [] => (Ret (), m)
  | (this_, ctrlId, dlgItem) :: rest =>
      match base_native_control.assign this_ (Some hParent) ctrlId dlgItem m with
      | (Ret _, m1) => assign_each rest hParent m1
      | (Throw e, m1) => (Throw e, m1)
      | (Undef, m1) => (Undef, m1)
      end
  end.

End control_spec_more.

(** ** Concrete instances

    The user state is a counter of callback runs. *)

Module examples.

(** A callback that counts its runs and returns [r]. *)
Definition counting (r : Z) : store.lambda (world nat) :=
  λ p w, (Ret r, set_user (S (user w)) w).

(** A callback that throws. *)
Definition throwing : store.lambda (world nat) :=
  λ p w, (Throw (runtime_error "boom"), w).

Definition w0 : world nat := World O ∅ ∅ ∅ ∅ [].

(** The world of a live window or dialog: the slot of handle [7] names the
    object at [100], whose handle field is [7]. *)
Definition w_live : world nat := World O ∅ ∅ {[ 7 := 100 ]} {[ 100 := 7 ]} [].

(** The OS answers [99] from its default procedures. *)
Definition def0 : Z → Z → Z → Z → Z := λ _ _ _ _, 99.

(** A store after [add({1, 2, 2}, counting 5)]. *)
Definition s122 : outcome (store.t Z (world nat)) :=
  store.add_ids [1; 2; 2] (store.UserFunc (counting 5)) store.new.

(** A handler with [on_command(5, counting 7)]. *)
Definition h_cmd : base_msg_handler.t nat :=
  base_msg_handler.on_command 5 (store.UserFunc (counting 7)) base_msg_handler.new.

(** A handler with [on_notify(3, NM_CLICK, counting 9)]; [NM_CLICK] is [-2]. *)
Definition h_nfy : base_msg_handler.t nat :=
  base_msg_handler.on_notify 3 (-2) (store.UserFunc (counting 9)) base_msg_handler.new.

(** A world with the header of an [NM_CLICK] from control [3] at address
    [900]; the header holds the code as the [UINT] [0xFFFFFFFE]. *)
Definition w_nfy : world nat :=
  World O ∅ {[ 900 := {| hwndFrom := 55; idFrom := 3; code := 0xFFFFFFFE |} ]} ∅ ∅ [].

(** A handler with [on_message(WM_CLOSE, throwing)]. *)
Definition h_throw : base_msg_handler.t nat :=
  base_msg_handler.on_message WM_CLOSE (store.UserFunc throwing) base_msg_handler.new.

(** A handler with [on_message({WM_COMMAND, WM_CREATE}, counting 7)]. *)
Definition h_multi : outcome (base_msg_handler.t nat) :=
  base_msg_handler.on_message_ids [WM_COMMAND; WM_CREATE]
    (store.UserFunc (counting 7)) base_msg_handler.new.

(** A window object at address [100], not created yet, and the
    [CREATESTRUCTW] the OS will pass for it at address [500]. *)
Definition m_fresh : base_window.machine nat :=
  base_window.Machine {[ 100 := base_window.new ]} {[ 500 := 100 ]} w0.

(** The OS creates the window under handle [7]. *)
Definition os_create7 : creation_os :=
  {| during := [(7, WM_NCCREATE, 0, 500)]; returned := 7; last_error := 0 |}.

Definition create7 (m : base_window.machine nat) : outcome Z * base_window.machine nat :=
  base_window.create_window def0 100 1 0 "main" None 0 (0, 0) (0, 0) 0 0 os_create7 m.

(** A live window: object [100] owns handle [7]. *)
Definition m_live : base_window.machine nat :=
  base_window.Machine {[ 100 := base_window.Make 7 h_throw ]} ∅ w_live.

(** A live dialog: object [100] owns handle [7]. *)
Definition d_live : base_dialog.machine nat :=
  base_dialog.Machine {[ 100 := base_dialog.Make 7 h_cmd ]} 0 w_live.

(** A dialog object at address [100], not created yet, and the OS creating
    the dialog under handle [7]. *)
Definition d_fresh : base_dialog.machine nat :=
  base_dialog.Machine {[ 100 := base_dialog.new ]} 0 w0.

Definition os_dialog7 : creation_os :=
  {| during := [(7, WM_INITDIALOG, 0, 100)]; returned := 7; last_error := 0 |}.

(** The same with the other handler tables. *)
Definition m_cmd : base_window.machine nat :=
  base_window.Machine {[ 100 := base_window.Make 7 h_cmd ]} ∅ w_live.

Definition d_throw : base_dialog.machine nat :=
  base_dialog.Machine {[ 100 := base_dialog.Make 7 h_throw ]} 0 w_live.

(** The registration the constructor of a handler makes on its message
    table. *)
Definition ms_new : list (reg_call (idT:=Z) (W:=world nat)) :=
  [Single base_msg_handler.WM_UI_THREAD base_msg_handler.ui_thread_lambda].

(** A handler with [on_message(WM_COMMAND, g)]. *)
Definition h_under_command (g : store.lambda (world nat)) : base_msg_handler.t nat :=
  base_msg_handler.on_message WM_COMMAND (store.UserFunc g) base_msg_handler.new.

(** A callback that records what it finds: the handle [hwnd()] returns for
    the object at [100] plus the slot of handle [7]; that is [107] on the
    live window of [w_live], [100] when only the slot is set, [7] when
    only the handle field is. *)
Definition watching : store.lambda (world nat) :=
  λ p w, (Ret 0, set_user (Z.to_nat (handle_of 100 w + slot_of 7 w)) w).

(** A live window and a live dialog whose [WM_NCDESTROY] handler is
    [watching]. *)
Definition h_watch : base_msg_handler.t nat :=
  base_msg_handler.on_message WM_NCDESTROY (store.UserFunc watching)
    base_msg_handler.new.

Definition m_watch : base_window.machine nat :=
  base_window.Machine {[ 100 := base_window.Make 7 h_watch ]} ∅ w_live.

Definition d_watch : base_dialog.machine nat :=
  base_dialog.Machine {[ 100 := base_dialog.Make 7 h_watch ]} 0 w_live.

(** A dialog object at address [100], not created yet, whose [WM_SETFONT]
    handler is [watching]. *)
Definition h_font : base_msg_handler.t nat :=
  base_msg_handler.on_message WM_SETFONT (store.UserFunc watching)
    base_msg_handler.new.

Definition d_font : base_dialog.machine nat :=
  base_dialog.Machine {[ 100 := base_dialog.Make 0 h_font ]} 0 w0.

(** A control with one subclass handler, not assigned yet. *)
Definition regs1 : list (registration (U:=nat)) :=
  [One WM_CLOSE (store.UserFunc (counting 0))].

Definition c_fresh : base_native_control.machine nat :=
  base_native_control.Machine
    {[ 200 := (register_all regs1 base_native_control.new).2 ]} 0 w0.

(** The same control, assigned: it owns handle [55]. *)
Definition c_live : base_native_control.machine nat :=
  (base_native_control.assign 200 (Some 7) 10 55 c_fresh).2.

(** The OS creates a control under handle [56]. *)
Definition os_create56 : creation_os :=
  {| during := []; returned := 56; last_error := 0 |}.

Definition wcx0 : WNDCLASSEXW :=
  {| cbSize := 0; style := 0; lpfnWndProc := ""; cbClsExtra := 0; cbWndExtra := 0;
     hInstance := 1; hIcon := 0; hCursor := 0; hbrBackground := 0;
     lpszMenuName := 0; lpszClassName := "main"; hIconSm := 0 |}.

(** The class exists already. *)
Definition os_exists : base_window.register_os :=
  {| base_window.reg_atom := 0;
     base_window.reg_last_error := Some ERROR_CLASS_ALREADY_EXISTS;
     base_window.info_ret := 49152; base_window.info_wcx := Some wcx0 |}.

(** The class exists already, and [GetClassInfoExW] answers with a
    non-zero [BOOL] whose low word is zero. *)
Definition os_exists_wide : base_window.register_os :=
  {| base_window.reg_atom := 0;
     base_window.reg_last_error := Some ERROR_CLASS_ALREADY_EXISTS;
     base_window.info_ret := 65536; base_window.info_wcx := Some wcx0 |}.

(** Registration is refused with [ERROR_ACCESS_DENIED]. *)
Definition os_denied : base_window.register_os :=
  {| base_window.reg_atom := 0; base_window.reg_last_error := Some 5;
     base_window.info_ret := 0; base_window.info_wcx := None |}.

(** Registration succeeds with atom [49153]. *)
Definition os_fresh : base_window.register_os :=
  {| base_window.reg_atom := 49153; base_window.reg_last_error := None;
     base_window.info_ret := 0; base_window.info_wcx := None |}.

End examples.

(** ** Further concrete instances *)

Module more_examples.
Import examples.

(** An OS whose conversion reads past every buffer. *)
Definition no_conversion : Z → list Z → Z → option (list Z) := λ _ _ _, None.

(** The bytes of [Hi], a null and one more byte. *)
Definition hi_null : list Z := [72; 105; 0; 33].

(** [AB] in UTF-16 big endian, followed by a fifth byte. *)
Definition ab_utf16be : list Z := [0x00; 0x41; 0x00; 0x42; 0x99].

(** The filter [a|b]. *)
Definition a_pipe_b : list Z := [97; 124; 98].

(** [a] and [e] with an acute accent, in UTF-8. *)
Definition a_eacute : list Z := [0x61; 0xC3; 0xA9].

(** [add({1, 2}, counting 5)] followed by [add(2, counting 7)]. *)
Definition regs_mixed : list (reg_call (idT:=Z) (W:=world nat)) :=
  [Multi [1; 2] (counting 5); Single 2 (counting 7)].

(** A live window whose handler holds what its constructor registered:
    object [100] owns handle [7]. *)
Definition m_plain : base_window.machine nat :=
  base_window.Machine {[ 100 := base_window.Make 7 base_msg_handler.new ]}
    ∅ w_live.

(** A function for [run_thread_ui] that counts its runs. *)
Definition bump : nat → outcome unit * nat := λ u, (Ret (), S u).

(** [on_subclass_message(WM_CLOSE, counting 0)] on a control at address
    [200], not created yet. *)
Definition regs_close : list (reg_call (idT:=Z) (W:=world nat)) :=
  [Single WM_CLOSE (counting 0)].

Definition c_new : base_native_control.machine nat :=
  base_native_control.Machine
    {[ 200 := (register_all (to_registration <$> regs_close)
                 base_native_control.new).2 ]} 0 w0.

(** The control object of [c_live]. *)
Definition c_live_obj : base_native_control.t nat :=
  default base_native_control.new (base_native_control.objects c_live !! 200).

(** Two such controls, at addresses [200] and [201], and their assignment
    to the items [55] and [56] of the parent. *)
Definition c_two : base_native_control.machine nat :=
  base_native_control.Machine
    {[ 200 := (register_all (to_registration <$> regs_close)
                 base_native_control.new).2;
       201 := (register_all (to_registration <$> regs_close)
                 base_native_control.new).2 ]} 0 w0.

Definition two_items : list (Z * Z * Z) := [(200, 10, 55); (201, 11, 56)].

End more_examples.

(** * Properties *)

(** ** The handler table *)

Section store_facts.
Context {idT : Type} `{EqDecision idT} {W : Type}.
Implicit Types (k : idT) (hs : list (store.handler idT W)) (s : store.t idT W).

Lemma last_match_snoc k hs h :
  last_match k (hs ++ [h]) =
  if decide (store.id h = k) then Some (length hs) else last_match k hs.
Proof.
  induction hs as [|a hs IH]; simpl.
  - by destruct (decide (store.id h = k)).
  - rewrite IH. destruct (decide (store.id h = k)); [done|].
    by destruct (last_match k hs).
Qed.

Lemma last_match_app k hs1 hs2 :
  last_match k (hs1 ++ hs2) =
  match last_match k hs2 with
  | Some j => Some (length hs1 + j)%nat
  | None => last_match k hs1
  end.
Proof.
  induction hs1 as [|a hs1 IH]; simpl.
  - by destruct (last_match k hs2).
  - rewrite IH. destruct (last_match k hs2); [done|].
    by destruct (last_match k hs1).
Qed.

Lemma last_match_Some k hs j :
  last_match k hs = Some j → ∃ h, hs !! j = Some h ∧ store.id h = k.
Proof.
  revert j. induction hs as [|a hs IH]; intros j; simpl; [done|].
  destruct (last_match k hs) as [i|] eqn:E.
  - intros [= <-]. simpl. by apply IH.
  - destruct (decide (store.id a = k)); [|done]. intros [= <-]. eauto.
Qed.

Lemma last_match_None k hs :
  last_match k hs = None ↔ k ∉ store.id <$> hs.
Proof.
  induction hs as [|a hs IH]; simpl.
  - split; [intros _; apply not_elem_of_nil | done].
  - rewrite not_elem_of_cons. destruct (last_match k hs) as [i|].
    + split; [done|]. intros [_ Hk]. apply IH in Hk. done.
    + destruct (decide (store.id a = k)) as [->|]; split; try done.
      * by intros [].
      * intros _. split; [done|]. by apply IH.
Qed.

Lemma rev_scan_prefix k hs ext i :
  (i < length hs)%nat →
  store.rev_scan (hs ++ ext) k i = store.rev_scan hs k i.
Proof.
  induction i as [|i IH]; intros Hi; simpl;
    rewrite lookup_app_l by done; [done|].
  destruct (hs !! S i); [|done].
  destruct (decide _); [done|]. apply IH. lia.
Qed.

(** The backward loop stops on the last handler whose key matches. *)
Lemma rev_scan_last_match k hs :
  store.rev_scan hs k (length hs - 1) = last_match k hs.
Proof.
  induction hs as [|h hs IH] using rev_ind; [done|].
  rewrite length_app, last_match_snoc. simpl.
  replace (length hs + 1 - 1)%nat with (length hs) by lia.
  destruct hs as [|a hs'] eqn:E.
  - simpl. by destruct (decide _).
  - rewrite <- E in *. assert (length hs = S (length hs')) as Hl by (by subst).
    rewrite Hl. simpl. rewrite <- Hl.
    rewrite lookup_app_r, Nat.sub_diag by done. simpl.
    destruct (decide _); [done|].
    rewrite rev_scan_prefix by lia. rewrite <- IH. f_equal. lia.
Qed.

(** What [find] does on any store that has its sentinel: it never reads
    out of range, it answers from the registrations alone, and it leaves
    the probed key in the sentinel. *)
Lemma find_spec k s :
  constructed s →
  store.find k s = (Ret (S <$> last_match k (registrations s)), probed k s).
Proof.
  destruct s as [[|h0 rest]]; [done|]. intros _.
  unfold store.find, registrations, probed. simpl store._handlers.
  cbv beta iota zeta. rewrite rev_scan_last_match. simpl.
  destruct (last_match k rest); simpl; [done|].
  by destruct (decide (k = k)).
Qed.

End store_facts.

Section store_claims.
Context {idT : Type} `{EqDecision idT} {W : Type}.
Implicit Types (k : idT) (hs : list (store.handler idT W)) (s : store.t idT W).

Lemma adds_handlers (l : list (idT * store.function W)) s :
  store._handlers (adds l s) =
  store._handlers s ++ ((λ kf, store.Handler kf.1 kf.2) <$> l).
Proof.
  revert s. induction l as [|[k f] l IH]; intros s; simpl.
  - by rewrite app_nil_r.
  - unfold adds in *. simpl. rewrite IH. simpl. by rewrite <- app_assoc.
Qed.

Lemma last_added_last_match k (l : list (idT * store.function W)) :
  match last_match k ((λ kf, store.Handler kf.1 kf.2) <$> l) with
  | Some j =>
      ∃ f, last_added k l = Some f ∧
           ((λ kf, store.Handler kf.1 kf.2) <$> l) !! j = Some (store.Handler k f)
  | None => last_added k l = None
  end.
Proof.
  induction l as [|[k' f] l IH]; simpl; [done|].
  destruct (last_match k _) as [j|].
  - destruct IH as (g & -> & ?). eauto.
  - rewrite IH. destruct (decide (k' = k)) as [->|]; [|done]. eauto.
Qed.

Lemma find_probed_registrations k s : registrations (probed k s) = registrations s.
Proof. by destruct s as [[|h0 rest]]. Qed.

Lemma probed_lookup_S k s j :
  store._handlers (probed k s) !! S j = registrations s !! j.
Proof. by destruct s as [[|h0 rest]]. Qed.

Lemma call_function_user fuel hs (g : store.lambda W) p w :
  store.call_function fuel hs (store.UserFunc g) p w = g p w.
Proof. by destruct fuel. Qed.

Lemma adds_constructed `{SentinelInit idT} (l : list (idT * store.function W)) :
  constructed (adds l store.new).
Proof. unfold constructed. rewrite adds_handlers. done. Qed.

(** C1. After any sequence of [add(key, callback)] calls on a fresh store,
    [find(key)] returns a pointer to the callback most recently added under
    exactly that key, and the null pointer when the key was never added;
    the registrations are left as they were. *)
Theorem C1_find_returns_last_added `{SentinelInit idT}
    (l : list (idT * store.function W)) k :
  let s := adds l store.new in
  registrations (store.find k s).2 = registrations s ∧
  match last_added k l with
  | Some f =>
      ∃ ptr, (store.find k s).1 = Ret (Some ptr) ∧
             store._handlers (store.find k s).2 !! ptr = Some (store.Handler k f)
  | None => (store.find k s).1 = Ret None
  end.
Proof.
  intros s. rewrite find_spec by apply adds_constructed. simpl.
  split; [apply find_probed_registrations|].
  assert (registrations s = (λ kf, store.Handler kf.1 kf.2) <$> l) as Hr.
  { unfold registrations, s. by rewrite adds_handlers. }
  pose proof (last_added_last_match k l) as Hl. rewrite <- Hr in Hl.
  destruct (last_match k (registrations s)) as [j|].
  - destruct Hl as (f & -> & Hj). exists (S j). split; [done|].
    by rewrite probed_lookup_S.
  - by rewrite Hl.
Qed.

Lemma run_ops_handlers (ops : list (op (idT:=idT) (W:=W))) s :
  constructed s →
  constructed (foldl run_op s ops) ∧
  registrations (foldl run_op s ops) = registrations (adds (added ops) s).
Proof.
  revert s. induction ops as [|o ops IH]; intros s Hs; [done|].
  destruct o as [k f|k]; simpl.
  - apply IH. unfold constructed. simpl. by destruct (store._handlers s).
  - rewrite find_spec by done. simpl.
    assert (constructed (probed k s)) as Hp.
    { unfold constructed, probed in *. by destruct (store._handlers s). }
    destruct (IH _ Hp) as [? ->]. split; [done|].
    unfold registrations. rewrite !adds_handlers.
    unfold constructed, probed in *. by destruct (store._handlers s).
Qed.

(** C6. [find] answers the null pointer on a table that holds nothing but
    the sentinel, whatever the sentinel holds and whatever was searched
    before; on any table, what earlier searches left in the sentinel has no
    effect on the answer, and a returned pointer always is a registration
    under the probed key, never the sentinel. *)
Theorem C6_sentinel_is_never_a_match `{SentinelInit idT} :
  (∀ (h0 : store.handler idT W) k,
     store.empty (store.Store [h0]) = true ∧
     (store.find k (store.Store [h0])).1 = Ret None) ∧
  (∀ (finds : list idT) k,
     (store.find k (foldl (λ acc k', (store.find k' acc).2)
                          (store.new (W:=W)) finds)).1 = Ret None) ∧
  (∀ (ops : list op) k,
     (store.find k (foldl run_op (store.new (W:=W)) ops)).1
     = (store.find k (adds (added ops) store.new)).1) ∧
  (∀ (h0 h0' : store.handler idT W) rest k,
     (store.find k (store.Store (h0 :: rest))).1
     = (store.find k (store.Store (h0' :: rest))).1) ∧
  (∀ (h0 : store.handler idT W) rest k,
     match (store.find k (store.Store (h0 :: rest))).1 with
     | Ret (Some ptr) =>
         ptr ≠ O ∧ ∃ h, rest !! (ptr - 1)%nat = Some h ∧ store.id h = k
     | Ret None => k ∉ store.id <$> rest
     | _ => False
     end).
Proof.
  split_and!.
  - intros h0 k. split; [done|]. by rewrite find_spec.
  - intros finds k.
    assert (∀ s : store.t idT W, constructed s → registrations s = [] →
              (store.find k (foldl (λ acc k', (store.find k' acc).2) s finds)).1
              = Ret None) as Hgen.
    { induction finds as [|k' finds IH]; intros s Hs Hr; simpl.
      - rewrite find_spec by done. simpl. by rewrite Hr.
      - apply IH.
        + rewrite find_spec by done. simpl.
          unfold constructed, probed in *. by destruct (store._handlers s).
        + rewrite find_spec by done. simpl. by rewrite find_probed_registrations. }
    by apply Hgen.
  - intros ops k.
    destruct (run_ops_handlers ops (store.new (W:=W))) as [Hc Hr]; [done|].
    rewrite !find_spec by (done || apply adds_constructed). simpl. by rewrite Hr.
  - intros h0 h0' rest k. by rewrite !find_spec.
  - intros h0 rest k. rewrite find_spec by done. simpl.
    unfold registrations. simpl.
    destruct (last_match k rest) as [j|] eqn:E; simpl.
    + split; [done|]. rewrite Nat.sub_0_r. by apply last_match_Some.
    + by apply last_match_None.
Qed.

Lemma add_ids_handlers k1 (rest : list idT) (f : store.function W) s :
  store.add_ids (k1 :: rest) f s =
  Ret (store.Store
         (store._handlers s ++
          store.Handler k1 f ::
          ((λ k, store.Handler k (store.Wrapper (length (store._handlers s))))
             <$> filter (λ k, k ≠ k1) rest))).
Proof.
  unfold store.add_ids. f_equal. simpl store._handlers.
  rewrite length_app. simpl.
  replace (length (store._handlers s) + 1 - 1)%nat
    with (length (store._handlers s)) by lia.
  set (n := length (store._handlers s)).
  assert (∀ acc : list (store.handler idT W),
    foldl (λ a idi, if decide (idi ≠ k1) then store.add idi (store.Wrapper n) a else a)
          (store.Store acc) rest
    = store.Store (acc ++ ((λ k, store.Handler k (store.Wrapper n))
                             <$> filter (λ k, k ≠ k1) rest))) as Hfold.
  { induction rest as [|k rest IH]; intros acc; simpl.
    - by rewrite app_nil_r.
    - rewrite filter_cons. destruct (decide (k ≠ k1)); simpl.
      + change (store.add k (store.Wrapper n) (store.Store acc))
          with (store.Store (acc ++ [store.Handler k (store.Wrapper (W:=W) n)])).
        rewrite IH. by rewrite <- app_assoc.
      + apply IH. }
  change (store.add k1 f s)
    with (store.Store (store._handlers s ++ [store.Handler k1 f])).
  rewrite Hfold. by rewrite <- app_assoc.
Qed.

Lemma call_after_add_ids (h0 : store.handler idT W) hs k1 g wr k j h p w :
  (hs ++ store.Handler k1 (store.UserFunc g) :: wr) !! j = Some h →
  store.func h = store.UserFunc g ∨ store.func h = store.Wrapper (S (length hs)) →
  store.call
    (probed k (store.Store (h0 :: hs ++ store.Handler k1 (store.UserFunc g) :: wr)))
    (S j) p w = g p w.
Proof.
  intros Hj Hh. unfold store.call, probed. simpl store._handlers.
  rewrite lookup_cons. simpl. rewrite Hj.
  destruct Hh as [->| ->]; simpl; [done|].
  rewrite lookup_app_r, Nat.sub_diag by done. simpl. apply call_function_user.
Qed.

Lemma find_after_add_ids (h0 : store.handler idT W) hs k1 g wr k :
  Forall (λ h, store.id h ≠ k1 ∧ store.func h = store.Wrapper (S (length hs))) wr →
  k = k1 ∨ k ∈ store.id <$> wr →
  let s' := store.Store (h0 :: hs ++ store.Handler k1 (store.UserFunc g) :: wr) in
  ∃ ptr, store.find k s' = (Ret (Some ptr), probed k s') ∧
         ∀ p w, store.call (probed k s') ptr p w = g p w.
Proof.
  intros Hwr Hk s'. rewrite find_spec by done. unfold registrations, s'.
  simpl tail. rewrite last_match_app. simpl last_match.
  destruct (last_match k wr) as [j|] eqn:Ej.
  - eexists. split; [done|]. intros p w.
    destruct (last_match_Some _ _ _ Ej) as (h & Hj & Hid).
    apply (call_after_add_ids _ _ _ _ _ _ _ h).
    + rewrite lookup_app_r by lia.
      replace (length hs + S j - length hs)%nat with (S j) by lia. done.
    + right. apply list_elem_of_lookup_2 in Hj.
      rewrite Forall_forall in Hwr. by apply Hwr.
  - apply last_match_None in Ej. destruct Hk as [->|]; [|done].
    destruct (decide (k1 = k1)); [|done].
    eexists. split; [done|]. intros p w.
    apply (call_after_add_ids _ _ _ _ _ _ _ (store.Handler k1 (store.UserFunc g))).
    + rewrite lookup_app_r by lia.
      replace (length hs + 0 - length hs)%nat with O by lia. done.
    + by left.
Qed.

Lemma add_ids_then_find (h0 : store.handler idT W) hs k1 (rest : list idT)
    (g : store.lambda W) k :
  k ∈ k1 :: rest →
  ∃ s' ptr,
    store.add_ids (k1 :: rest) (store.UserFunc g) (store.Store (h0 :: hs)) = Ret s' ∧
    store.find k s' = (Ret (Some ptr), probed k s') ∧
    ∀ p w, store.call (probed k s') ptr p w = g p w.
Proof.
  intros Hk. rewrite add_ids_handlers. simpl store._handlers. simpl length.
  set (wr := (λ k, store.Handler k (store.Wrapper (S (length hs))))
               <$> filter (λ k, k ≠ k1) rest).
  assert (Forall (λ h, store.id h ≠ k1 ∧
                       store.func h = store.Wrapper (W:=W) (S (length hs))) wr) as Hwr.
  { apply Forall_forall. intros h (k' & -> & Hk')%list_elem_of_fmap.
    apply list_elem_of_filter in Hk'. simpl. by destruct Hk'. }
  destruct (find_after_add_ids h0 hs k1 g wr k Hwr) as (ptr & Hf & Hc).
  { apply elem_of_cons in Hk as [->|Hk]; [by left|].
    destruct (decide (k = k1)) as [|Hne]; [by left|right].
    unfold wr. rewrite <- list_fmap_compose. apply list_elem_of_fmap. exists k.
    split; [done|]. by apply list_elem_of_filter. }
  eexists _, ptr. split; [done|]. split; [exact Hf|exact Hc].
Qed.

(** C5. [add({k1, ..., kn}, callback)] stores the callback once,
    under the first key, and after it one forwarding wrapper, holding the
    index of that entry, for every later key that differs from the first;
    [find] on any of the keys then returns a pointer through which exactly
    the callback runs; and the first key gets exactly one entry, however
    often it is repeated in the list. *)
Theorem C5_add_ids_shares_one_callback
    (h0 : store.handler idT W) hs k1 (rest : list idT) (g : store.lambda W) :
  let s := store.Store (h0 :: hs) in
  let n := length (h0 :: hs) in
  ∃ s', store.add_ids (k1 :: rest) (store.UserFunc g) s = Ret s' ∧
    store._handlers s' =
      store._handlers s ++
      store.Handler k1 (store.UserFunc g) ::
      ((λ k, store.Handler k (store.Wrapper n)) <$> filter (λ k, k ≠ k1) rest) ∧
    (∀ k, k ∈ k1 :: rest →
       ∃ ptr, store.find k s' = (Ret (Some ptr), probed k s') ∧
              ∀ p w, store.call (probed k s') ptr p w = g p w) ∧
    filter (λ h, store.id h = k1) (drop n (store._handlers s'))
      = [store.Handler k1 (store.UserFunc g)].
Proof.
  intros s n. eexists. split; [apply add_ids_handlers|].
  unfold s, n. simpl store._handlers. simpl length.
  split; [done|]. split.
  - intros k Hk.
    destruct (add_ids_then_find h0 hs k1 rest g k Hk) as (s' & ptr & Ha & Hf & Hc).
    rewrite add_ids_handlers in Ha. simpl in Ha. injection Ha as <-.
    by exists ptr.
  - simpl app. simpl drop. rewrite drop_app_length.
    rewrite filter_cons. simpl. destruct (decide (k1 = k1)); [|done].
    f_equal. induction rest as [|k rest IH]; [done|].
    rewrite filter_cons. destruct (decide (k ≠ k1)); [|done].
    rewrite fmap_cons, filter_cons_False; [done|]. simpl. done.
Qed.

End store_claims.

(** ** The dispatch core *)

Section exec_facts.
Context {U : Type}.
Implicit Types (h : base_msg_handler.t U) (w : world U).

Lemma call_function_funcs {K} fuel (hs hs' : list (store.handler K (world U))) f p w :
  store.func <$> hs = store.func <$> hs' →
  store.call_function fuel hs f p w = store.call_function fuel hs' f p w.
Proof.
  intros Heq. revert f. induction fuel as [|n IH]; intros f; destruct f; simpl; try done.
  assert (store.func <$> hs !! funcIdx = store.func <$> hs' !! funcIdx) as Hi.
  { by rewrite <- !list_lookup_fmap, Heq. }
  destruct (hs !! funcIdx), (hs' !! funcIdx); simplify_eq/=; try done.
  rewrite Hi. apply IH.
Qed.

Lemma call_funcs {K} (hs hs' : list (store.handler K (world U))) ptr p w :
  store.func <$> hs = store.func <$> hs' →
  store.call (store.Store hs) ptr p w = store.call (store.Store hs') ptr p w.
Proof.
  intros Heq. unfold store.call. cbn [store._handlers].
  assert (length hs = length hs') as ->.
  { by rewrite <- (length_fmap store.func hs), Heq, length_fmap. }
  assert (store.func <$> hs !! ptr = store.func <$> hs' !! ptr) as Hi.
  { by rewrite <- !list_lookup_fmap, Heq. }
  destruct (hs !! ptr), (hs' !! ptr); simplify_eq/=; try done.
  rewrite Hi. by apply call_function_funcs.
Qed.

Lemma call_probed {K} (k : K) (s : store.t K (world U)) ptr p w :
  store.call (probed k s) ptr p w = store.call s ptr p w.
Proof.
  destruct s as [[|h0 rest]]; [done|]. unfold probed. cbn [store._handlers].
  by apply call_funcs.
Qed.

Lemma find_no_throw {K} `{EqDecision K} (k : K) (s : store.t K (world U)) e :
  (store.find k s).1 ≠ Throw e.
Proof.
  unfold store.find. destruct (store._handlers s); [done|].
  cbv zeta. by repeat case_match.
Qed.

Lemma catch_no_throw {A} (func : world U → outcome A * world U) action w e :
  (catch_all_excps func action w).1 ≠ Throw e.
Proof. unfold catch_all_excps. by repeat case_match. Qed.

(** The second half of [exec], once the search is over. *)
Lemma exec_after_lookup msg wp lp h w tb r h1 :
  base_msg_handler.lookup msg wp lp h w = (tb, r, h1) →
  base_msg_handler.exec msg wp lp h w =
  match r with
  | Ret (Some ptr) =>
      match base_msg_handler.call_in tb h1 ptr (Any wp lp) w with
      | (Ret v, w1) => (Ret (Some v), h1, w1)
      | (Throw e, w1) =>
          (Ret (Some 0), h1,
           log (PostQuitMessage (-1)) (log (MessageBox (caption_of e) e) w1))
      | (Undef, w1) => (Undef, h1, w1)
      end
  | Ret None => (Ret None, h1, w)
  | Throw e => (Throw e, h1, w)
  | Undef => (Undef, h1, w)
  end.
Proof.
  intros Hl. unfold base_msg_handler.exec. rewrite Hl.
  destruct r as [[ptr|]|e|]; try done.
  unfold catch_all_excps.
  by destruct (base_msg_handler.call_in tb h1 ptr (Any wp lp) w) as [[v|e|] w1].
Qed.

(** Searching one table and running what was found is [answer]. *)
Lemma probe_answer {K} `{EqDecision K} (s : store.t K (world U)) (k : K) p w :
  constructed s →
  match store.find k s with
  | (Ret (Some ptr), s1) =>
      match store.call s1 ptr p w with
      | (Ret v, w1) => (Ret (Some v), s1, w1)
      | (Throw e, w1) =>
          (Ret (Some 0), s1,
           log (PostQuitMessage (-1)) (log (MessageBox (caption_of e) e) w1))
      | (Undef, w1) => (Undef, s1, w1)
      end
  | (Ret None, s1) => (Ret None, s1, w)
  | (Throw e, s1) => (Throw e, s1, w)
  | (Undef, s1) => (Undef, s1, w)
  end = ((answer s k p w).1, probed k s, (answer s k p w).2).
Proof.
  intros Hs. rewrite find_spec by done. unfold answer.
  destruct (last_match k (registrations s)) as [j|]; simpl; [|done].
  rewrite call_probed. by destruct (store.call s (S j) p w) as [[v|e|] w1].
Qed.

(** What the two procedures make of the answer of [exec], for a message
    that is not the creation message and a handle whose slot names an
    owner. *)
Lemma window_proc_after_exec def (m : base_window.machine U) hWnd msg wp lp
    pSelf self ret h1 w1 :
  msg ≠ WM_NCCREATE →
  base_window.GetWindowLongPtrW hWnd m = pSelf → pSelf ≠ 0 →
  base_window.objects m !! pSelf = Some self →
  base_msg_handler.exec msg wp lp (base_window._msgHandler self) (base_window.env m)
    = (Ret ret, h1, w1) →
  ∃ m', base_window._window_proc def hWnd msg wp lp m
          = (Ret (default (def hWnd msg wp lp) ret), m') ∧
        base_window.env m' =
          match ret with
          | Some _ => after_message msg hWnd pSelf w1
          | None => log (DefWindowProcW hWnd msg wp lp)
                        (after_message msg hWnd pSelf w1)
          end ∧
        base_window.objects m' =
          <[pSelf := base_window.Make
                       (if decide (msg = WM_NCDESTROY) then 0
                        else base_window._hWnd self) h1]>
            (base_window.objects m).
Proof.
  intros Hmsg Hslot Hp Hobj Hexec. unfold base_window._window_proc.
  rewrite decide_False by done. rewrite Hslot, decide_False by done.
  unfold base_window.dispatch, after_message. rewrite Hobj, Hexec.
  destruct ret as [r|]; simpl; eexists; (split; [done|]);
    destruct (decide (msg = WM_NCDESTROY)); simpl; (split; [done|]);
    by rewrite ?insert_insert_eq.
Qed.

Lemma dialog_proc_retrieved (m : base_dialog.machine U) hWnd msg wp lp :
  msg ≠ WM_INITDIALOG →
  base_dialog._dialog_proc hWnd msg wp lp m = base_dialog.retrieved hWnd msg wp lp m.
Proof. intros Hmsg. unfold base_dialog._dialog_proc. by rewrite decide_False. Qed.

Lemma dialog_retrieved_after_exec (m : base_dialog.machine U) hWnd msg wp lp
    pSelf self ret h1 w1 :
  base_dialog.GetWindowLongPtrW hWnd m = pSelf → pSelf ≠ 0 →
  base_dialog.objects m !! pSelf = Some self →
  base_msg_handler.exec msg wp lp (base_dialog._msgHandler self) (base_dialog.env m)
    = (Ret ret, h1, w1) →
  ∃ m', base_dialog.retrieved hWnd msg wp lp m = (Ret (default FALSE ret), m') ∧
        base_dialog.env m' = after_message msg hWnd pSelf w1 ∧
        base_dialog.objects m' =
          <[pSelf := base_dialog.Make
                       (if decide (msg = WM_NCDESTROY) then 0
                        else base_dialog._hWnd self) h1]>
            (base_dialog.objects m) ∧
        base_dialog.globalUiFont m' = base_dialog.globalUiFont m.
Proof.
  intros Hslot Hp Hobj Hexec. unfold base_dialog.retrieved.
  rewrite Hslot, decide_False by done.
  unfold base_dialog.dispatch, after_message. rewrite Hobj, Hexec.
  eexists. split; [done|].
  destruct (decide (msg = WM_NCDESTROY)); simpl; (split; [done|]);
    by rewrite ?insert_insert_eq.
Qed.

Lemma dialog_proc_after_exec (m : base_dialog.machine U) hWnd msg wp lp
    pSelf self ret h1 w1 :
  msg ≠ WM_INITDIALOG →
  base_dialog.GetWindowLongPtrW hWnd m = pSelf → pSelf ≠ 0 →
  base_dialog.objects m !! pSelf = Some self →
  base_msg_handler.exec msg wp lp (base_dialog._msgHandler self) (base_dialog.env m)
    = (Ret ret, h1, w1) →
  ∃ m', base_dialog._dialog_proc hWnd msg wp lp m = (Ret (default FALSE ret), m') ∧
        base_dialog.env m' = after_message msg hWnd pSelf w1 ∧
        base_dialog.objects m' =
          <[pSelf := base_dialog.Make
                       (if decide (msg = WM_NCDESTROY) then 0
                        else base_dialog._hWnd self) h1]>
            (base_dialog.objects m).
Proof.
  intros Hmsg Hslot Hp Hobj Hexec. rewrite dialog_proc_retrieved by done.
  destruct (dialog_retrieved_after_exec m hWnd msg wp lp pSelf self ret h1 w1)
    as (m' & Hr & He & Ho & _); [done..|].
  by exists m'.
Qed.

End exec_facts.


(** ** Registration calls and what dispatch makes of them *)

Section registration_facts.
Context {idT : Type} `{EqDecision idT} `{SentinelInit idT} {W : Type}.
Implicit Types (k : idT) (hs : list (store.handler idT W)) (s : store.t idT W).

Lemma resolves_app hs ext h g : resolves hs h g → resolves (hs ++ ext) h g.
Proof.
  intros [Hu|(i & k' & Hw & Hi)]; [by left|right].
  exists i, k'. split; [done|]. by apply lookup_app_l_Some.
Qed.

Lemma resolves_probed k s h g :
  resolves (store._handlers s) h g → resolves (store._handlers (probed k s)) h g.
Proof.
  intros [Hu|(i & k' & Hw & Hi)]; [by left|right].
  unfold probed. destruct (store._handlers s) as [|h0 rest] eqn:Hs; [done|].
  destruct i as [|i]; simpl in *.
  - injection Hi as ->. exists O, k. by split.
  - exists (S i), k'. by split.
Qed.

Lemma resolves_call hs ptr h g p w :
  hs !! ptr = Some h → resolves hs h g →
  store.call (store.Store hs) ptr p w = g p w.
Proof.
  intros Hptr Hr. unfold store.call. simpl. rewrite Hptr.
  destruct Hr as [->|(i & k' & -> & Hi)]; [by destruct (length hs)|].
  destruct hs as [|h0 hs']; [done|]. simpl length.
  cbn [store.call_function]. rewrite Hi. simpl. by destruct (length hs').
Qed.

Lemma last_naming_snoc k (cs : list (reg_call (idT:=idT) (W:=W))) c :
  last_naming k (cs ++ [c]) =
  if decide (k ∈ reg_keys c) then Some (reg_func c) else last_naming k cs.
Proof.
  induction cs as [|c' cs IH]; simpl.
  - by destruct (decide (k ∈ reg_keys c)).
  - rewrite IH. by destruct (decide (k ∈ reg_keys c)).
Qed.

Lemma do_regs_snoc (cs : list (reg_call (idT:=idT) (W:=W))) c s :
  do_regs (cs ++ [c]) s = (s1 ← do_regs cs s; do_reg c s1).
Proof. unfold do_regs. by rewrite foldl_app. Qed.

Lemma regs_inv_step cs c s :
  reg_keys c ≠ [] → regs_inv cs s →
  ∃ s', do_reg c s = Ret s' ∧ regs_inv (cs ++ [c]) s'.
Proof.
  intros Hne [Hlen Hinv].
  destruct (store._handlers s) as [|h0 regs] eqn:Hs; [simpl in Hlen; lia|].
  assert (∃ k1 rest f, reg_keys c = k1 :: rest ∧
            do_reg c s = Ret (store.Store (h0 :: regs ++
              store.Handler k1 (store.UserFunc (reg_func c)) ::
              ((λ k, store.Handler k (store.Wrapper (S (length regs))))
                 <$> filter (λ k, k ≠ k1) rest))) ∧ f = reg_func c)
    as (k1 & rest & f & Hkeys & Hdo & ->).
  { destruct c as [k g|[|k1 rest] g]; [|by destruct Hne|].
    - exists k, [], g. split_and!; try done.
      unfold do_reg, store.add. by rewrite Hs.
    - exists k1, rest, g. split_and!; try done.
      unfold do_reg. rewrite add_ids_handlers, Hs. done. }
  eexists. split; [exact Hdo|]. split.
  { simpl in Hlen |- *. rewrite !length_app. simpl. lia. }
  intros k. unfold registrations in *. rewrite Hs in Hinv. simpl in *.
  rewrite last_naming_snoc, Hkeys. rewrite last_match_app.
  set (wr := (λ k0, store.Handler k0 (store.Wrapper (S (length regs))))
               <$> filter (λ k0, k0 ≠ k1) rest).
  set (g := reg_func c).
  assert (∀ j h, (store.Handler k1 (store.UserFunc g) :: wr) !! j = Some h →
            resolves (h0 :: regs ++ store.Handler k1 (store.UserFunc g) :: wr) h g)
    as Hnew.
  { intros [|j] h Hj; simpl in Hj.
    - injection Hj as <-. by left.
    - right. unfold wr in Hj. rewrite list_lookup_fmap in Hj.
      destruct (filter _ rest !! j) as [k0|]; [|done]. injection Hj as <-.
      exists (S (length regs)), k1. split; [done|]. simpl.
      by rewrite lookup_app_r, Nat.sub_diag by lia. }
  destruct (last_match k (store.Handler k1 (store.UserFunc g) :: wr)) as [j|] eqn:Hlm.
  - destruct (last_match_Some _ _ _ Hlm) as (h & Hj & Hid).
    assert (k ∈ k1 :: rest) as Hin.
    { destruct j as [|j]; simpl in Hj.
      - injection Hj as <-. simpl in Hid. subst. apply list_elem_of_here.
      - unfold wr in Hj. rewrite list_lookup_fmap in Hj.
        destruct (filter _ rest !! j) as [k0|] eqn:Hk0; [|done].
        injection Hj as <-. simpl in Hid. subst k0.
        apply list_elem_of_lookup_2 in Hk0. apply list_elem_of_filter in Hk0 as [_ ?].
        by apply list_elem_of_further. }
    rewrite decide_True by done.
    exists h, g. split_and!; [|by apply Hnew in Hj|done].
    by rewrite lookup_app_r, Nat.add_comm, Nat.add_sub by lia.
  - assert (k ∉ k1 :: rest) as Hnin.
    { apply last_match_None in Hlm. intros Hin. apply Hlm. simpl.
      apply elem_of_cons in Hin as [->|Hin]; [apply list_elem_of_here|].
      destruct (decide (k = k1)) as [->|Hne1]; [apply list_elem_of_here|].
      apply list_elem_of_further. unfold wr. rewrite <- list_fmap_compose.
      apply list_elem_of_fmap. exists k. split; [done|].
      by apply list_elem_of_filter. }
    rewrite decide_False by done.
    specialize (Hinv k). destruct (last_match k regs) as [j|]; [|done].
    destruct Hinv as (h & g' & Hj & Hr & Hn). exists h, g'.
    split_and!; [by apply lookup_app_l_Some| |done].
    change (h0 :: regs ++ store.Handler k1 (store.UserFunc g) :: wr)
      with ((h0 :: regs) ++ store.Handler k1 (store.UserFunc g) :: wr).
    by apply resolves_app.
Qed.

Lemma regs_inv_run (cs : list (reg_call (idT:=idT) (W:=W))) :
  Forall (λ c, reg_keys c ≠ []) cs →
  ∃ s, do_regs cs store.new = Ret s ∧ regs_inv cs s.
Proof.
  induction cs as [|c cs IH] using rev_ind; intros Hne.
  - exists store.new. split; [done|]. split; [simpl; lia|]. by intros k.
  - apply Forall_app in Hne as [Hcs Hc]. apply Forall_inv in Hc.
    destruct (IH Hcs) as (s & Hs & Hinv).
    destruct (regs_inv_step cs c s Hc Hinv) as (s' & Hs' & Hinv').
    exists s'. split; [|done]. by rewrite do_regs_snoc, Hs.
Qed.

Lemma regs_find (cs : list (reg_call (idT:=idT) (W:=W))) s :
  regs_inv cs s →
  ∀ k, match last_naming k cs with
       | Some g =>
           ∃ ptr, store.find k s = (Ret (Some ptr), probed k s) ∧
                  ∀ p w, store.call (probed k s) ptr p w = g p w
       | None => store.find k s = (Ret None, probed k s)
       end.
Proof.
  intros [Hlen Hinv] k. assert (constructed s) as Hc.
  { unfold constructed. intros E. rewrite E in Hlen. simpl in Hlen. lia. }
  rewrite (find_spec k s Hc). specialize (Hinv k).
  destruct (last_match k (registrations s)) as [j|].
  - destruct Hinv as (h & g & Hj & Hr & ->). exists (S j). split; [done|].
    intros p w. destruct (probed k s) as [hs'] eqn:Hp.
    apply (resolves_call hs' (S j) h g).
    + pose proof (probed_lookup_S k s j) as Hl. rewrite Hp in Hl. simpl in Hl.
      by rewrite Hl.
    + pose proof (resolves_probed k s h g Hr) as Hr'. by rewrite Hp in Hr'.
  - by rewrite Hinv.
Qed.

Lemma do_regs_cons (cs : list (reg_call (idT:=idT) (W:=W))) c s :
  do_regs (c :: cs) s = (s1 ← do_reg c s; do_regs cs s1).
Proof.
  unfold do_regs. simpl. destruct (do_reg c s) as [s1|e|]; simpl; [done| |].
  - induction cs as [|c' cs IH]; [done|]. by simpl.
  - induction cs as [|c' cs IH]; [done|]. by simpl.
Qed.

Lemma do_regs_inv (cs : list (reg_call (idT:=idT) (W:=W))) s :
  do_regs cs store.new = Ret s → regs_inv cs s.
Proof.
  revert s. induction cs as [|c cs IH] using rev_ind; intros s Hs.
  - injection Hs as <-. split; [simpl; lia|]. by intros k.
  - rewrite do_regs_snoc in Hs.
    destruct (do_regs cs store.new) as [s1|e|] eqn:E; simpl in Hs; try done.
    assert (reg_keys c ≠ []) as Hne.
    { destruct c as [k g|[|k1 rest] g]; simpl in *; done. }
    destruct (regs_inv_step cs c s1 Hne (IH s1 eq_refl)) as (s' & Hs' & Hinv).
    rewrite Hs' in Hs. by injection Hs as <-.
Qed.

Lemma regs_inv_probed k (cs : list (reg_call (idT:=idT) (W:=W))) s :
  regs_inv cs s → regs_inv cs (probed k s).
Proof.
  intros [Hlen Hinv]. split.
  - unfold probed. destruct (store._handlers s); simpl in *; lia.
  - intros k'. rewrite find_probed_registrations. specialize (Hinv k').
    destruct (last_match k' (registrations s)) as [j|]; [|done].
    destruct Hinv as (h & g & Hj & Hr & Hn). exists h, g.
    split_and!; [done| |done]. by apply resolves_probed.
Qed.

Lemma probed_probed k k' s : probed k' (probed k s) = probed k' s.
Proof. unfold probed. by destruct s as [[|h0 rest]]. Qed.

Lemma built_inv (cs : list (reg_call (idT:=idT) (W:=W))) s :
  built cs s → regs_inv cs s.
Proof.
  intros (s0 & Hs0 & [->|[k ->]]).
  - by apply do_regs_inv.
  - by apply regs_inv_probed, do_regs_inv.
Qed.

Lemma built_probed k (cs : list (reg_call (idT:=idT) (W:=W))) s :
  built cs s → built cs (probed k s).
Proof.
  intros (s0 & Hs0 & [->|[k' ->]]); exists s0; (split; [done|]); right; exists k.
  - done.
  - apply probed_probed.
Qed.

Lemma built_constructed (cs : list (reg_call (idT:=idT) (W:=W))) s :
  built cs s → constructed s.
Proof.
  intros Hb. destruct (built_inv cs s Hb) as [Hlen _].
  unfold constructed. intros E. rewrite E in Hlen. simpl in Hlen. lia.
Qed.

Lemma last_naming_app k (cs1 cs2 : list (reg_call (idT:=idT) (W:=W))) :
  last_naming k (cs1 ++ cs2) =
  match last_naming k cs2 with
  | Some g => Some g
  | None => last_naming k cs1
  end.
Proof.
  induction cs1 as [|c cs1 IH]; simpl.
  - by destruct (last_naming k cs2).
  - rewrite IH. by destruct (last_naming k cs2).
Qed.

Lemma reg_keys_with_lambda g (c : reg_call (idT:=idT) (W:=W)) :
  reg_keys (with_lambda g c) = reg_keys c.
Proof. by destruct c. Qed.

Lemma last_naming_with_lambda k pre (c : reg_call (idT:=idT) (W:=W)) g post :
  k ∉ reg_keys c →
  last_naming k (pre ++ with_lambda g c :: post) = last_naming k (pre ++ c :: post).
Proof.
  intros Hk. rewrite !last_naming_app. simpl. rewrite reg_keys_with_lambda.
  by rewrite !decide_False by done.
Qed.

End registration_facts.

Section table_facts.
Context {U : Type}.
Implicit Types (h : base_msg_handler.t U) (w : world U).

Local Ltac close_probe Hp :=
  let H1 := fresh in let H2 := fresh in let H3 := fresh in
  injection Hp as H1 H2 H3; by rewrite <- H1, <- H2, <- H3.

Lemma exec_msgs h msg wp lp w :
  msg ≠ WM_COMMAND → msg ≠ WM_NOTIFY → constructed (base_msg_handler._msgs h) →
  base_msg_handler.exec msg wp lp h w =
  ((answer (base_msg_handler._msgs h) msg (Any wp lp) w).1,
   base_msg_handler.Make (probed msg (base_msg_handler._msgs h))
     (base_msg_handler._cmds h) (base_msg_handler._nfys h),
   (answer (base_msg_handler._msgs h) msg (Any wp lp) w).2).
Proof.
  intros Hne1 Hne2 Hm.
  pose proof (probe_answer (base_msg_handler._msgs h) msg (Any wp lp) w Hm) as Hp.
  erewrite exec_after_lookup; last first.
  { unfold base_msg_handler.lookup. rewrite !decide_False by done.
    rewrite (surjective_pairing (store.find _ _)). done. }
  destruct (store.find msg (base_msg_handler._msgs h)) as [[[ptr|]|e|] s1];
    simpl in *.
  - destruct (store.call s1 ptr (Any wp lp) w) as [[v|e|] w1]; close_probe Hp.
  - close_probe Hp.
  - close_probe Hp.
  - close_probe Hp.
Qed.

Lemma exec_cmds h wp lp w :
  constructed (base_msg_handler._cmds h) →
  base_msg_handler.exec WM_COMMAND wp lp h w =
  ((answer (base_msg_handler._cmds h) (LOWORD wp) (Any wp lp) w).1,
   base_msg_handler.Make (base_msg_handler._msgs h)
     (probed (LOWORD wp) (base_msg_handler._cmds h)) (base_msg_handler._nfys h),
   (answer (base_msg_handler._cmds h) (LOWORD wp) (Any wp lp) w).2).
Proof.
  intros Hc.
  pose proof (probe_answer (base_msg_handler._cmds h) (LOWORD wp) (Any wp lp) w Hc)
    as Hp.
  erewrite exec_after_lookup; last first.
  { unfold base_msg_handler.lookup. rewrite decide_True by done.
    rewrite (surjective_pairing (store.find _ _)). done. }
  destruct (store.find (LOWORD wp) (base_msg_handler._cmds h)) as [[[ptr|]|e|] s1];
    simpl in *.
  - destruct (store.call s1 ptr (Any wp lp) w) as [[v|e|] w1]; close_probe Hp.
  - close_probe Hp.
  - close_probe Hp.
  - close_probe Hp.
Qed.

Lemma exec_nfys h wp lp w nmhdr :
  constructed (base_msg_handler._nfys h) → nmhdrs w !! lp = Some nmhdr →
  let key := (idFrom nmhdr, int_of_UINT (code nmhdr)) in
  base_msg_handler.exec WM_NOTIFY wp lp h w =
  ((answer (base_msg_handler._nfys h) key (Any wp lp) w).1,
   base_msg_handler.Make (base_msg_handler._msgs h) (base_msg_handler._cmds h)
     (probed key (base_msg_handler._nfys h)),
   (answer (base_msg_handler._nfys h) key (Any wp lp) w).2).
Proof.
  intros Hn Hhdr key.
  pose proof (probe_answer (base_msg_handler._nfys h) key (Any wp lp) w Hn) as Hp.
  erewrite exec_after_lookup; last first.
  { unfold base_msg_handler.lookup. rewrite decide_False by done.
    rewrite decide_True by done. rewrite Hhdr.
    rewrite (surjective_pairing (store.find _ _)). done. }
  fold key.
  destruct (store.find key (base_msg_handler._nfys h)) as [[[ptr|]|e|] s1];
    simpl in *.
  - destruct (store.call s1 ptr (Any wp lp) w) as [[v|e|] w1]; close_probe Hp.
  - close_probe Hp.
  - close_probe Hp.
  - close_probe Hp.
Qed.

Lemma answer_user {K} `{EqDecision K} (s : store.t K (world U)) (k : K) j hd g p w :
  last_match k (registrations s) = Some j →
  registrations s !! j = Some hd → store.func hd = store.UserFunc g →
  answer s k p w = ran g p w.
Proof.
  intros Hlm Hj Hf. unfold answer, ran. rewrite Hlm. unfold store.call.
  unfold registrations in Hj. destruct (store._handlers s) as [|h0 regs]; [done|].
  simpl in Hj. simpl. rewrite Hj, Hf. simpl. done.
Qed.

Lemma answer_after_add {K} `{EqDecision K} (s : store.t K (world U)) (k : K) g p w :
  constructed s →
  answer (store.add k (store.UserFunc g) s) k p w = ran g p w.
Proof.
  intros Hc. unfold constructed in Hc.
  destruct s as [[|h0 regs]]; [done|].
  apply (answer_user _ k (length regs) (store.Handler k (store.UserFunc g)));
    unfold registrations, store.add; simpl; [|by rewrite lookup_app_r, Nat.sub_diag|done].
  rewrite last_match_snoc. by rewrite decide_True.
Qed.

Lemma LOWORD_low cmd hi : 0 ≤ cmd < 2 ^ 16 → LOWORD (cmd + hi * 2 ^ 16) = cmd.
Proof.
  intros Hc. unfold LOWORD. change 0xFFFF with (Z.ones 16).
  rewrite Z.land_ones by lia. rewrite Z.mod_add by lia. by apply Z.mod_small.
Qed.

Lemma LOWORD_mod wp : LOWORD wp = wp mod 2 ^ 16.
Proof. unfold LOWORD. change 0xFFFF with (Z.ones 16). by rewrite Z.land_ones. Qed.

Lemma int_of_UINT_range u :
  - 2 ^ 31 ≤ int_of_UINT u < 2 ^ 31 ∧ int_of_UINT u mod 2 ^ 32 = u mod 2 ^ 32.
Proof.
  unfold int_of_UINT. cbv zeta.
  pose proof (Z.mod_pos_bound u (2 ^ 32) ltac:(lia)) as Hb.
  destruct (Z_lt_dec (u mod 2 ^ 32) (2 ^ 31)) as [Hlt|Hge].
  - split; [lia|]. by rewrite Z.mod_mod.
  - split; [lia|].
    replace (u mod 2 ^ 32 - 2 ^ 32) with (u mod 2 ^ 32 + (-1) * 2 ^ 32) by lia.
    rewrite Z.mod_add by lia. by rewrite Z.mod_mod.
Qed.

Lemma int_unique a b :
  - 2 ^ 31 ≤ a < 2 ^ 31 → - 2 ^ 31 ≤ b < 2 ^ 31 →
  a mod 2 ^ 32 = b mod 2 ^ 32 → a = b.
Proof. intros Ha Hb Hm. revert Hm. Z.div_mod_to_equations. lia. Qed.

(** On a table that registration calls built, [answer] is [dispatched]. *)
Lemma answer_dispatched {K} `{EqDecision K} `{SentinelInit K}
    (cs : list (reg_call (idT:=K) (W:=world U))) (s : store.t K (world U)) k p w :
  built cs s → answer s k p w = dispatched cs k p w.
Proof.
  intros Hb. destruct (built_inv cs s Hb) as [Hlen Hinv].
  unfold answer, dispatched. specialize (Hinv k).
  destruct (last_match k (registrations s)) as [j|]; [|by rewrite Hinv].
  destruct Hinv as (hd & g & Hj & Hr & ->). unfold ran.
  destruct s as [hs]. unfold registrations in Hj. simpl in Hj, Hr.
  destruct hs as [|h0 regs]; [done|]. simpl in Hj.
  by rewrite (resolves_call (h0 :: regs) (S j) hd g).
Qed.

(** What [exec] makes of a message, on a handler whose tables registration
    calls built. *)
Lemma exec_dispatched_cmds h ms cs ns wp lp w :
  registered ms cs ns h →
  base_msg_handler.exec WM_COMMAND wp lp h w =
  ((dispatched cs (wp mod 2 ^ 16) (Any wp lp) w).1,
   base_msg_handler.Make (base_msg_handler._msgs h)
     (probed (wp mod 2 ^ 16) (base_msg_handler._cmds h)) (base_msg_handler._nfys h),
   (dispatched cs (wp mod 2 ^ 16) (Any wp lp) w).2).
Proof.
  intros (Hm & Hc & Hn).
  rewrite exec_cmds by (by apply (built_constructed cs)).
  rewrite LOWORD_mod. by rewrite (answer_dispatched cs).
Qed.

Lemma exec_dispatched_nfys h ms cs ns wp lp w nmhdr :
  registered ms cs ns h → nmhdrs w !! lp = Some nmhdr →
  let key := (idFrom nmhdr, int_of_UINT (code nmhdr)) in
  base_msg_handler.exec WM_NOTIFY wp lp h w =
  ((dispatched ns key (Any wp lp) w).1,
   base_msg_handler.Make (base_msg_handler._msgs h) (base_msg_handler._cmds h)
     (probed key (base_msg_handler._nfys h)),
   (dispatched ns key (Any wp lp) w).2).
Proof.
  intros (Hm & Hc & Hn) Hhdr key.
  rewrite (exec_nfys _ _ _ _ nmhdr) by (done || by apply (built_constructed ns)).
  by rewrite (answer_dispatched ns).
Qed.

Lemma exec_dispatched_msgs h ms msg wp lp w :
  msg ≠ WM_COMMAND → msg ≠ WM_NOTIFY → built ms (base_msg_handler._msgs h) →
  base_msg_handler.exec msg wp lp h w =
  ((dispatched ms msg (Any wp lp) w).1,
   base_msg_handler.Make (probed msg (base_msg_handler._msgs h))
     (base_msg_handler._cmds h) (base_msg_handler._nfys h),
   (dispatched ms msg (Any wp lp) w).2).
Proof.
  intros Hne1 Hne2 Hm.
  rewrite exec_msgs by (done || by apply (built_constructed ms)).
  by rewrite (answer_dispatched ms).
Qed.

(** [exec] on [WM_COMMAND] and [WM_NOTIFY] does not look at the message
    table. *)
Lemma exec_cmds_any_msgs (ms ms' : store.t Z (world U)) cs ns wp lp w :
  let r := base_msg_handler.exec WM_COMMAND wp lp (base_msg_handler.Make ms cs ns) w in
  let r' := base_msg_handler.exec WM_COMMAND wp lp (base_msg_handler.Make ms' cs ns) w in
  r.1.1 = r'.1.1 ∧ r.2 = r'.2 ∧ base_msg_handler._msgs r.1.2 = ms.
Proof.
  assert (∀ m0, base_msg_handler.lookup WM_COMMAND wp lp (base_msg_handler.Make m0 cs ns) w
          = (base_msg_handler.Cmds, (store.find (LOWORD wp) cs).1,
             base_msg_handler.Make m0 (store.find (LOWORD wp) cs).2 ns)) as Hl.
  { intros m0. unfold base_msg_handler.lookup. rewrite decide_True by done.
    simpl. by destruct (store.find (LOWORD wp) cs). }
  simpl. rewrite !(exec_after_lookup _ _ _ _ _ _ _ _ (Hl _)).
  destruct (store.find (LOWORD wp) cs) as [[[ptr|]|e|] s1]; simpl; try done.
  by destruct (store.call s1 ptr (Any wp lp) w) as [[v|e|] w1].
Qed.

Lemma exec_nfys_any_msgs (ms ms' : store.t Z (world U)) cs ns wp lp w :
  let r := base_msg_handler.exec WM_NOTIFY wp lp (base_msg_handler.Make ms cs ns) w in
  let r' := base_msg_handler.exec WM_NOTIFY wp lp (base_msg_handler.Make ms' cs ns) w in
  r.1.1 = r'.1.1 ∧ r.2 = r'.2 ∧ base_msg_handler._msgs r.1.2 = ms.
Proof.
  destruct (nmhdrs w !! lp) as [nmhdr|] eqn:Hhdr.
  - assert (∀ m0, base_msg_handler.lookup WM_NOTIFY wp lp (base_msg_handler.Make m0 cs ns) w
            = (base_msg_handler.Nfys,
               (store.find (idFrom nmhdr, int_of_UINT (code nmhdr)) ns).1,
               base_msg_handler.Make m0 cs
                 (store.find (idFrom nmhdr, int_of_UINT (code nmhdr)) ns).2)) as Hl.
    { intros m0. unfold base_msg_handler.lookup. rewrite decide_False by done.
      rewrite decide_True by done. rewrite Hhdr.
      simpl. by destruct (store.find _ ns). }
    simpl. rewrite !(exec_after_lookup _ _ _ _ _ _ _ _ (Hl _)).
    destruct (store.find _ ns) as [[[ptr|]|e|] s1]; simpl; try done.
    by destruct (store.call s1 ptr (Any wp lp) w) as [[v|e|] w1].
  - assert (∀ m0, base_msg_handler.lookup WM_NOTIFY wp lp (base_msg_handler.Make m0 cs ns) w
            = (base_msg_handler.Nfys, Undef, base_msg_handler.Make m0 cs ns)) as Hl.
    { intros m0. unfold base_msg_handler.lookup. rewrite decide_False by done.
      rewrite decide_True by done. by rewrite Hhdr. }
    simpl. by rewrite !(exec_after_lookup _ _ _ _ _ _ _ _ (Hl _)).
Qed.

End table_facts.

Section exec_claims.
Context {U : Type}.
Implicit Types (h : base_msg_handler.t U) (w : world U).

(** C2. On a handler whose three tables registration calls built, [exec]
    dispatches to exactly one table, chosen by the message code: the
    command table under the low 16 bits of [wp] for [WM_COMMAND]; the
    notification table under the [idFrom] of the [NMHDR] at [lp] paired
    with its [code] read as a signed 32-bit [int] for [WM_NOTIFY]; the
    message table under [msg] otherwise.  The lambda of the most recent
    registration call that names the key runs on the [wp] and [lp] of the
    message, and its result and effects are those of [exec] (a lambda that
    throws gives [0] after a message box and [PostQuitMessage(-1)]); when
    no call names the key, nothing runs and the answer is empty.  The
    table searched comes back with the key written into its sentinel, the
    other two as they were, and all three still hold the same
    registrations.  On an empty answer the window procedure returns
    what [DefWindowProcW] returns and the dialog procedure returns
    [FALSE]. *)
Theorem C2_exec_selects_one_table h ms cs ns msg wp lp w :
  registered ms cs ns h →
  let r := base_msg_handler.exec msg wp lp h w in
  (msg = WM_COMMAND →
     (r.1.1, r.2) = dispatched cs (wp mod 2 ^ 16) (Any wp lp) w ∧
     base_msg_handler._cmds r.1.2 = probed (wp mod 2 ^ 16) (base_msg_handler._cmds h) ∧
     base_msg_handler._msgs r.1.2 = base_msg_handler._msgs h ∧
     base_msg_handler._nfys r.1.2 = base_msg_handler._nfys h) ∧
  (msg = WM_NOTIFY → ∀ nmhdr, nmhdrs w !! lp = Some nmhdr →
     ∃ c, - 2 ^ 31 ≤ c < 2 ^ 31 ∧ c mod 2 ^ 32 = code nmhdr mod 2 ^ 32 ∧
       (r.1.1, r.2) = dispatched ns (idFrom nmhdr, c) (Any wp lp) w ∧
       base_msg_handler._nfys r.1.2 = probed (idFrom nmhdr, c) (base_msg_handler._nfys h) ∧
       base_msg_handler._msgs r.1.2 = base_msg_handler._msgs h ∧
       base_msg_handler._cmds r.1.2 = base_msg_handler._cmds h) ∧
  (msg ≠ WM_COMMAND → msg ≠ WM_NOTIFY →
     (r.1.1, r.2) = dispatched ms msg (Any wp lp) w ∧
     base_msg_handler._msgs r.1.2 = probed msg (base_msg_handler._msgs h) ∧
     base_msg_handler._cmds r.1.2 = base_msg_handler._cmds h ∧
     base_msg_handler._nfys r.1.2 = base_msg_handler._nfys h) ∧
  registered ms cs ns r.1.2 ∧
  (∀ h1 w1, r = (Ret None, h1, w1) →
     (∀ def (m : base_window.machine U) hWnd pSelf self,
        msg ≠ WM_NCCREATE →
        base_window.GetWindowLongPtrW hWnd m = pSelf → pSelf ≠ 0 →
        base_window.objects m !! pSelf = Some self →
        base_window._msgHandler self = h → base_window.env m = w →
        ∃ m', base_window._window_proc def hWnd msg wp lp m
                = (Ret (def hWnd msg wp lp), m') ∧
              base_window.env m' =
                log (DefWindowProcW hWnd msg wp lp)
                    (after_message msg hWnd pSelf w1)) ∧
     (∀ (m : base_dialog.machine U) hWnd pSelf self,
        msg ≠ WM_INITDIALOG →
        base_dialog.GetWindowLongPtrW hWnd m = pSelf → pSelf ≠ 0 →
        base_dialog.objects m !! pSelf = Some self →
        base_dialog._msgHandler self = h → base_dialog.env m = w →
        ∃ m', base_dialog._dialog_proc hWnd msg wp lp m = (Ret FALSE, m') ∧
              base_dialog.env m' = after_message msg hWnd pSelf w1)).
Proof.
  intros Hreg r. pose proof Hreg as (Hm & Hc & Hn). split_and!.
  - intros ->. subst r. rewrite (exec_dispatched_cmds _ ms cs ns) by done.
    simpl. split_and!; try done. by destruct (dispatched cs _ _ w).
  - intros -> nmhdr Hhdr. subst r.
    rewrite (exec_dispatched_nfys _ ms cs ns _ _ _ nmhdr) by done. simpl.
    destruct (int_of_UINT_range (code nmhdr)) as [Hrange Hbits].
    exists (int_of_UINT (code nmhdr)). split_and!; try done; try lia.
    by destruct (dispatched ns (idFrom nmhdr, int_of_UINT (code nmhdr)) _ w).
  - intros Hne1 Hne2. subst r. rewrite (exec_dispatched_msgs _ ms) by done.
    simpl. split_and!; try done. by destruct (dispatched ms _ _ w).
  - subst r. destruct (decide (msg = WM_COMMAND)) as [->|Hne1].
    { rewrite (exec_dispatched_cmds _ ms cs ns) by done. simpl.
      split_and!; try done. by apply built_probed. }
    destruct (decide (msg = WM_NOTIFY)) as [->|Hne2].
    { destruct (nmhdrs w !! lp) as [nmhdr|] eqn:Hhdr.
      - rewrite (exec_dispatched_nfys _ ms cs ns _ _ _ nmhdr) by done. simpl.
        split_and!; try done. by apply built_probed.
      - unfold base_msg_handler.exec, base_msg_handler.lookup.
        rewrite decide_False by done. rewrite decide_True by done.
        by rewrite Hhdr. }
    rewrite (exec_dispatched_msgs _ ms) by done. simpl.
    split_and!; try done. by apply built_probed.
  - intros h1 w1 Hexec. split.
    + intros def m hWnd pSelf self Hmsg Hslot Hp Hobj <- <-.
      destruct (window_proc_after_exec def m hWnd msg wp lp pSelf self None h1 w1)
        as (m' & Hr & He & _); [done..|].
      by exists m'.
    + intros m hWnd pSelf self Hmsg Hslot Hp Hobj <- <-.
      destruct (dialog_proc_after_exec m hWnd msg wp lp pSelf self None h1 w1)
        as (m' & Hr & He & _); [done..|].
      by exists m'.
Qed.

Lemma lookup_no_throw msg wp lp h w e :
  (base_msg_handler.lookup msg wp lp h w).1.2 ≠ Throw e.
Proof.
  unfold base_msg_handler.lookup.
  repeat case_decide.
  - pose proof (find_no_throw (LOWORD wp) (base_msg_handler._cmds h) e).
    by destruct (store.find _ _).
  - destruct (nmhdrs w !! lp) as [nmhdr|]; [|done].
    pose proof (find_no_throw (idFrom nmhdr, int_of_UINT (code nmhdr))
                  (base_msg_handler._nfys h) e).
    by destruct (store.find _ _).
  - pose proof (find_no_throw msg (base_msg_handler._msgs h) e).
    by destruct (store.find _ _).
Qed.

(** C9. [exec] never lets an exception out.  Its answer is empty exactly
    when the search found no handler.  When the search found one, the
    answer is present: the value the handler returned, or [0] when the
    handler threw, in which case the exception is shown in a message box
    and [PostQuitMessage(-1)] follows.  On a present answer the window and
    dialog procedures return that value and make no call of the default
    procedure: they leave the world the handler left, with the slot of the
    handle and the handle field of the owner zeroed when the message is
    [WM_NCDESTROY]. *)
Theorem C9_exec_answers_whenever_a_handler_exists h msg wp lp w :
  (∀ e, (base_msg_handler.exec msg wp lp h w).1.1 ≠ Throw e) ∧
  ((base_msg_handler.exec msg wp lp h w).1.1 = Ret None ↔
   (base_msg_handler.lookup msg wp lp h w).1.2 = Ret None) ∧
  (∀ tb ptr h1,
     base_msg_handler.lookup msg wp lp h w = (tb, Ret (Some ptr), h1) →
     match base_msg_handler.call_in tb h1 ptr (Any wp lp) w with
     | (Ret v, w1) =>
         base_msg_handler.exec msg wp lp h w = (Ret (Some v), h1, w1)
     | (Throw e, w1) =>
         base_msg_handler.exec msg wp lp h w =
         (Ret (Some 0), h1,
          log (PostQuitMessage (-1)) (log (MessageBox (caption_of e) e) w1))
     | (Undef, w1) => base_msg_handler.exec msg wp lp h w = (Undef, h1, w1)
     end) ∧
  (∀ v h1 w1, base_msg_handler.exec msg wp lp h w = (Ret (Some v), h1, w1) →
     (∀ def (m : base_window.machine U) hWnd pSelf self,
        msg ≠ WM_NCCREATE →
        base_window.GetWindowLongPtrW hWnd m = pSelf → pSelf ≠ 0 →
        base_window.objects m !! pSelf = Some self →
        base_window._msgHandler self = h → base_window.env m = w →
        ∃ m', base_window._window_proc def hWnd msg wp lp m = (Ret v, m') ∧
              base_window.env m' = after_message msg hWnd pSelf w1) ∧
     (∀ (m : base_dialog.machine U) hWnd pSelf self,
        msg ≠ WM_INITDIALOG →
        base_dialog.GetWindowLongPtrW hWnd m = pSelf → pSelf ≠ 0 →
        base_dialog.objects m !! pSelf = Some self →
        base_dialog._msgHandler self = h → base_dialog.env m = w →
        ∃ m', base_dialog._dialog_proc hWnd msg wp lp m = (Ret v, m') ∧
              base_dialog.env m' = after_message msg hWnd pSelf w1)).
Proof.
  destruct (base_msg_handler.lookup msg wp lp h w) as [[tb r] h1] eqn:Hl.
  pose proof (exec_after_lookup _ _ _ _ _ _ _ _ Hl) as He.
  split_and!;
    [| | | intros v h1' w1 Hexec; split;
           [intros def m hWnd pSelf self Hmsg Hslot Hp Hobj <- <-;
            destruct (window_proc_after_exec def m hWnd msg wp lp pSelf self
                        (Some v) h1' w1) as (m' & Hr & Hw & _); [done..|];
            by exists m'
           |intros m hWnd pSelf self Hmsg Hslot Hp Hobj <- <-;
            destruct (dialog_proc_after_exec m hWnd msg wp lp pSelf self
                        (Some v) h1' w1) as (m' & Hr & Hw & _); [done..|];
            by exists m']].
  - intros e. rewrite He.
    destruct r as [[ptr|]|e'|]; simpl in *; try done.
    + by destruct (base_msg_handler.call_in tb h1 ptr (Any wp lp) w) as [[v|e'|] w1].
    + pose proof (lookup_no_throw msg wp lp h w e') as Hn. by rewrite Hl in Hn.
  - rewrite He. simpl. destruct r as [[ptr|]|e'|]; simpl; try done.
    by destruct (base_msg_handler.call_in tb h1 ptr (Any wp lp) w) as [[v|e'|] w1].
  - intros tb' ptr h1' [= <- -> <-]. rewrite He.
    by destruct (base_msg_handler.call_in tb h1 ptr (Any wp lp) w) as [[v|e'|] w1].
Qed.

(** C10. A lambda registered on the message table by a call that names
    only [WM_COMMAND] and [WM_NOTIFY] is never run by [exec]: whatever the
    message, [exec] answers the same and leaves the same world when that
    call is made with any other lambda.  For these two codes [exec]
    answers the same and leaves the same world whatever the message table
    holds, and hands the message table back untouched; for every other
    code, the entry [exec] selects in the message table is registered under
    that very code.  The entry stored under [WM_COMMAND] or [WM_NOTIFY] is
    reached all the same when a multi-key [on_message] names that code
    first and further codes after it: the callback it stores under its
    first code, whichever code that is, runs when [exec] dispatches one of
    the later codes. *)
Theorem C10_message_table_is_bypassed :
  (∀ pre post (c : reg_call (idT:=Z) (W:=world U)) g' s s' cs ns msg wp lp w,
     Forall (λ k, k = WM_COMMAND ∨ k = WM_NOTIFY) (reg_keys c) →
     built (pre ++ c :: post) s → built (pre ++ with_lambda g' c :: post) s' →
     let r := base_msg_handler.exec msg wp lp (base_msg_handler.Make s cs ns) w in
     let r' := base_msg_handler.exec msg wp lp (base_msg_handler.Make s' cs ns) w in
     r.1.1 = r'.1.1 ∧ r.2 = r'.2) ∧
  (∀ (ms ms' : store.t Z (world U)) cs ns wp lp w,
     let r := base_msg_handler.exec WM_COMMAND wp lp (base_msg_handler.Make ms cs ns) w in
     let r' := base_msg_handler.exec WM_COMMAND wp lp (base_msg_handler.Make ms' cs ns) w in
     r.1.1 = r'.1.1 ∧ r.2 = r'.2 ∧ base_msg_handler._msgs r.1.2 = ms) ∧
  (∀ (ms ms' : store.t Z (world U)) cs ns wp lp w,
     let r := base_msg_handler.exec WM_NOTIFY wp lp (base_msg_handler.Make ms cs ns) w in
     let r' := base_msg_handler.exec WM_NOTIFY wp lp (base_msg_handler.Make ms' cs ns) w in
     r.1.1 = r'.1.1 ∧ r.2 = r'.2 ∧ base_msg_handler._msgs r.1.2 = ms) ∧
  (∀ h msg wp lp w ptr h1,
     base_msg_handler.lookup msg wp lp h w = (base_msg_handler.Msgs, Ret (Some ptr), h1) →
     msg ≠ WM_COMMAND ∧ msg ≠ WM_NOTIFY ∧
     ∃ hd, store._handlers (base_msg_handler._msgs h1) !! ptr = Some hd ∧
           store.id hd = msg) ∧
  (∀ h k1 rest (g : store.lambda (world U)) k wp lp w,
     constructed (base_msg_handler._msgs h) →
     k ∈ rest → k ≠ WM_COMMAND → k ≠ WM_NOTIFY →
     ∃ h', base_msg_handler.on_message_ids (k1 :: rest) (store.UserFunc g) h = Ret h' ∧
       store._handlers (base_msg_handler._msgs h')
         !! length (store._handlers (base_msg_handler._msgs h))
         = Some (store.Handler k1 (store.UserFunc g)) ∧
       (base_msg_handler.exec k wp lp h' w).1.1 =
         match (g (Any wp lp) w).1 with
         | Ret v => Ret (Some v)
         | Throw _ => Ret (Some 0)
         | Undef => Undef
         end).
Proof.
  split_and!.
  - intros pre post c g' s s' cs ns msg wp lp w Hkeys Hs Hs' r r'.
    destruct (decide (msg = WM_COMMAND)) as [->|Hne1].
    { by destruct (exec_cmds_any_msgs s s' cs ns wp lp w) as (? & ? & _). }
    destruct (decide (msg = WM_NOTIFY)) as [->|Hne2].
    { by destruct (exec_nfys_any_msgs s s' cs ns wp lp w) as (? & ? & _). }
    subst r r'.
    rewrite (exec_dispatched_msgs _ (pre ++ c :: post)) by done.
    rewrite (exec_dispatched_msgs _ (pre ++ with_lambda g' c :: post)) by done.
    simpl. unfold dispatched. rewrite last_naming_with_lambda; [done|].
    intros Hin. rewrite Forall_forall in Hkeys. by destruct (Hkeys _ Hin).
  - intros ms ms' cs ns wp lp w. apply exec_cmds_any_msgs.
  - intros ms ms' cs ns wp lp w. apply exec_nfys_any_msgs.
  - intros h msg wp lp w ptr h1 Hl. unfold base_msg_handler.lookup in Hl.
    destruct (decide (msg = WM_COMMAND)).
    { by destruct (store.find (LOWORD wp) _). }
    destruct (decide (msg = WM_NOTIFY)).
    { destruct (nmhdrs w !! lp); [|done]. by destruct (store.find _ _). }
    split; [done|]. split; [done|].
    destruct (base_msg_handler._msgs h) as [[|h0 rest]] eqn:Hs; [done|].
    rewrite find_spec in Hl by done. injection Hl as Hptr <-.
    unfold registrations in Hptr. simpl in Hptr.
    destruct (last_match msg rest) as [j|] eqn:Ej; [|done].
    injection Hptr as <-. simpl. by apply last_match_Some.
  - intros h k1 rest g k wp lp w Hcons Hk Hne1 Hne2.
    destruct (base_msg_handler._msgs h) as [[|h0 hs]] eqn:Hs; [done|].
    destruct (add_ids_then_find h0 hs k1 rest g k) as (s' & ptr & Ha & Hf & Hc).
    { apply elem_of_cons. by right. }
    unfold base_msg_handler.on_message_ids. rewrite Hs, Ha.
    eexists. split; [done|]. split.
    + rewrite add_ids_handlers in Ha. injection Ha as <-.
      cbn [base_msg_handler._msgs store._handlers length].
      rewrite lookup_cons. by rewrite lookup_app_r, Nat.sub_diag by done.
    + erewrite exec_after_lookup; last first.
      { unfold base_msg_handler.lookup. rewrite !decide_False by done.
        cbn [base_msg_handler._msgs]. rewrite Hf. done. }
      cbn [base_msg_handler.call_in base_msg_handler._msgs]. rewrite Hc.
      by destruct (g (Any wp lp) w) as [[v|e|] w1].
Qed.

End exec_claims.

(** ** Windows and dialogs *)

Section window_claims.
Context {U : Type}.

(** C4. On a window or dialog object whose handle is set, a further
    creation call and every registration member throw [std::logic_error],
    and the object, the window system and the world are as before. *)
Theorem C4_live_instance_rejects_create_and_registration :
  (∀ this : base_window.t U, base_window._hWnd this ≠ 0 →
     (∀ msg f, base_window.on_message msg f this =
        (Throw (logic_error "Cannot add a message handler after the window was created."), this)) ∧
     (∀ msgs f, base_window.on_message_ids msgs f this =
        (Throw (logic_error "Cannot add message handlers after the window was created."), this)) ∧
     (∀ cmd f, base_window.on_command cmd f this =
        (Throw (logic_error "Cannot add a command handler after the window was created."), this)) ∧
     (∀ cmds f, base_window.on_command_ids cmds f this =
        (Throw (logic_error "Cannot add command handlers after the window was created."), this)) ∧
     (∀ i c f, base_window.on_notify i c f this =
        (Throw (logic_error "Cannot add a notify handler after the window was created."), this)) ∧
     (∀ ics f, base_window.on_notify_ids ics f this =
        (Throw (logic_error "Cannot add notify handlers after the window was created."), this)) ∧
     (∀ def m this_ hInst parent className title hMenu pos size exStyles styles os,
        base_window.objects m !! this_ = Some this →
        base_window.create_window def this_ hInst parent className title hMenu
          pos size exStyles styles os m =
        (Throw (logic_error "Cannot create a window twice."), m))) ∧
  (∀ this : base_dialog.t U, base_dialog._hWnd this ≠ 0 →
     (∀ msg f, base_dialog.on_message msg f this =
        (Throw (logic_error "Cannot add a message handler after the dialog was created."), this)) ∧
     (∀ msgs f, base_dialog.on_message_ids msgs f this =
        (Throw (logic_error "Cannot add message handlers after the dialog was created."), this)) ∧
     (∀ cmd f, base_dialog.on_command cmd f this =
        (Throw (logic_error "Cannot add a command handler after the dialog was created."), this)) ∧
     (∀ cmds f, base_dialog.on_command_ids cmds f this =
        (Throw (logic_error "Cannot add command handlers after the dialog was created."), this)) ∧
     (∀ i c f, base_dialog.on_notify i c f this =
        (Throw (logic_error "Cannot add a notify handler after the dialog was created."), this)) ∧
     (∀ ics f, base_dialog.on_notify_ids ics f this =
        (Throw (logic_error "Cannot add notify handlers after the dialog was created."), this)) ∧
     (∀ m this_ hInst parent dialogId os,
        base_dialog.objects m !! this_ = Some this →
        base_dialog.create_dialog_param this_ hInst parent dialogId os m =
          (Throw (logic_error "Cannot create a dialog twice."), m) ∧
        base_dialog.dialog_box_param this_ hInst parent dialogId os m =
          (Throw (logic_error "Cannot create a dialog twice."), m))).
Proof.
  split; intros this Hlive.
  - split_and!; intros;
      unfold base_window.on_message, base_window.on_message_ids,
        base_window.on_command, base_window.on_command_ids,
        base_window.on_notify, base_window.on_notify_ids,
        base_window.guarded, base_window.create_window;
      simplify_option_eq; by rewrite ?decide_True.
  - split_and!; intros;
      unfold base_dialog.on_message, base_dialog.on_message_ids,
        base_dialog.on_command, base_dialog.on_command_ids,
        base_dialog.on_notify, base_dialog.on_notify_ids,
        base_dialog.guarded, base_dialog.create_dialog_param,
        base_dialog.dialog_box_param, base_dialog._creation_checks;
      simplify_option_eq; by rewrite ?decide_True.
Qed.

Lemma window_default_path def (m : base_window.machine U) hWnd msg wp lp :
  base_window.GetWindowLongPtrW hWnd m = 0 → msg ≠ WM_NCCREATE →
  base_window._window_proc def hWnd msg wp lp m =
  base_window.default_proc def hWnd msg wp lp m.
Proof.
  intros Hslot Hmsg. unfold base_window._window_proc.
  rewrite decide_False by done. by rewrite decide_True.
Qed.

Lemma window_deliver_default def (later : list (Z * Z * Z * Z)) hWnd
    (m : base_window.machine U) :
  base_window.GetWindowLongPtrW hWnd m = 0 →
  Forall (λ c, c.1.1.1 = hWnd ∧ c.1.1.2 ≠ WM_NCCREATE) later →
  ∃ m', base_window.deliver def later m = (Ret (), m') ∧
        base_window.objects m' = base_window.objects m ∧
        base_window.userdata m' = base_window.userdata m ∧
        base_window.env m' =
          foldl (λ w c, log (DefWindowProcW c.1.1.1 c.1.1.2 c.1.2 c.2) w)
                (base_window.env m) later.
Proof.
  intros Hslot Hl. revert m Hslot.
  induction Hl as [|[[[hw msg] wp] lp] later [Hh Hmsg] _ IH]; intros m Hslot.
  - by exists m.
  - simpl in Hh, Hmsg. subst hw. simpl.
    rewrite window_default_path by done. simpl.
    destruct (IH (base_window.set_env
                    (log (DefWindowProcW hWnd msg wp lp) (base_window.env m)) m))
      as (m' & -> & ? & ? & ?); [done|].
    by exists m'.
Qed.

Lemma dialog_default_path (m : base_dialog.machine U) hWnd msg wp lp :
  base_dialog.GetWindowLongPtrW hWnd m = 0 → msg ≠ WM_INITDIALOG →
  base_dialog._dialog_proc hWnd msg wp lp m = (Ret FALSE, m).
Proof.
  intros Hslot Hmsg. rewrite dialog_proc_retrieved by done.
  unfold base_dialog.retrieved. by rewrite decide_True.
Qed.

Lemma dialog_deliver_default (later : list (Z * Z * Z * Z)) hWnd
    (m : base_dialog.machine U) :
  base_dialog.GetWindowLongPtrW hWnd m = 0 →
  Forall (λ c, c.1.1.1 = hWnd ∧ c.1.1.2 ≠ WM_INITDIALOG) later →
  base_dialog.deliver later m = (Ret (), m).
Proof.
  intros Hslot Hl.
  induction Hl as [|[[[hw msg] wp] lp] later [Hh Hmsg] _ IH]; [done|].
  simpl in Hh, Hmsg. subst hw. simpl. by rewrite dialog_default_path.
Qed.

Lemma slot_of_set_slot (w : world U) hWnd v : slot_of hWnd (set_slot hWnd v w) = v.
Proof. unfold slot_of. simpl. by rewrite lookup_insert_eq. Qed.

Lemma handle_of_set_handle (w : world U) a v : handle_of a (set_handle a v w) = v.
Proof. unfold handle_of. simpl. by rewrite lookup_insert_eq. Qed.

(** The creation message of a window: the slot and the handle field are
    set before the handlers run. *)
Lemma window_proc_creates def (m : base_window.machine U) hWnd wp lp pSelf self
    ret h1 w1 :
  base_window.createstructs m !! lp = Some pSelf → pSelf ≠ 0 →
  base_window.objects m !! pSelf = Some self →
  base_msg_handler.exec WM_NCCREATE wp lp (base_window._msgHandler self)
    (set_handle pSelf hWnd (set_slot hWnd pSelf (base_window.env m)))
    = (Ret ret, h1, w1) →
  ∃ m', base_window._window_proc def hWnd WM_NCCREATE wp lp m
          = (Ret (default (def hWnd WM_NCCREATE wp lp) ret), m') ∧
        base_window.objects m' !! pSelf = Some (base_window.Make hWnd h1) ∧
        base_window.env m' =
          match ret with
          | Some _ => w1
          | None => log (DefWindowProcW hWnd WM_NCCREATE wp lp) w1
          end.
Proof.
  intros Hcs Hp Hobj Hexec. unfold base_window._window_proc.
  rewrite decide_True by done. rewrite Hcs.
  unfold base_window.dispatch, base_window.set_hWnd, base_window.set_object,
    base_window.SetWindowLongPtrW, base_window.set_env,
    base_window.default_proc.
  cbn [base_window.objects base_window.env base_window.createstructs].
  rewrite Hobj. rewrite decide_False by done.
  rewrite lookup_insert_eq. cbn [base_window._msgHandler base_window._hWnd].
  rewrite Hexec. rewrite decide_False by done.
  destruct ret as [r|]; eexists; (split; [done|]); cbn;
    by rewrite !lookup_insert_eq.
Qed.

(** [_set_ui_font_on_children] on a dialog whose slot names an owner: the
    owner's [WM_SETFONT] handlers run inside the [SendMessageW]. *)
Lemma set_ui_font_runs (m : base_dialog.machine U) hDlg pSelf self ret h1 w1 :
  base_dialog.GetWindowLongPtrW hDlg m = pSelf → pSelf ≠ 0 →
  base_dialog.objects m !! pSelf = Some self →
  base_msg_handler.exec WM_SETFONT (base_dialog.globalUiFont m) 0
    (base_dialog._msgHandler self)
    (log (SendMessageW hDlg WM_SETFONT (base_dialog.globalUiFont m) 0)
       (base_dialog.env m)) = (Ret ret, h1, w1) →
  base_dialog._set_ui_font_on_children hDlg m =
  (Ret (),
   base_dialog.Machine
     (<[pSelf := base_dialog.Make (base_dialog._hWnd self) h1]> (base_dialog.objects m))
     (base_dialog.globalUiFont m)
     (log (EnumChildWindows hDlg (base_dialog.globalUiFont m)) w1)).
Proof.
  intros Hslot Hp Hobj Hexec. unfold base_dialog._set_ui_font_on_children.
  cbv zeta.
  destruct (dialog_retrieved_after_exec
              (base_dialog.set_env
                 (log (SendMessageW hDlg WM_SETFONT (base_dialog.globalUiFont m) 0)
                    (base_dialog.env m)) m)
              hDlg WM_SETFONT (base_dialog.globalUiFont m) 0 pSelf self ret h1 w1)
    as (m1 & Hr & He & Ho & Hf); [done..|].
  rewrite Hr. destruct m1 as [o1 f1 e1]. simpl in *. subst o1 f1 e1.
  unfold after_message. by rewrite decide_False by done.
Qed.

(** The creation message of a dialog: the slot is set, the font message
    is sent and handled, then the handle field is set, and only then do
    the handlers of [WM_INITDIALOG] run. *)
Lemma dialog_proc_creates (m : base_dialog.machine U) hWnd wp pSelf self
    ret0 h0 w0 ret h1 w1 :
  pSelf ≠ 0 → base_dialog.objects m !! pSelf = Some self →
  base_msg_handler.exec WM_SETFONT (base_dialog.globalUiFont m) 0
    (base_dialog._msgHandler self)
    (log (SendMessageW hWnd WM_SETFONT (base_dialog.globalUiFont m) 0)
       (set_slot hWnd pSelf (base_dialog.env m))) = (Ret ret0, h0, w0) →
  base_msg_handler.exec WM_INITDIALOG wp pSelf h0
    (set_handle pSelf hWnd
       (log (EnumChildWindows hWnd (base_dialog.globalUiFont m)) w0))
    = (Ret ret, h1, w1) →
  ∃ m', base_dialog._dialog_proc hWnd WM_INITDIALOG wp pSelf m
          = (Ret (default FALSE ret), m') ∧
        base_dialog.objects m' !! pSelf = Some (base_dialog.Make hWnd h1) ∧
        base_dialog.env m' = w1.
Proof.
  intros Hp Hobj Hfont Hexec. unfold base_dialog._dialog_proc.
  rewrite decide_True by done. cbv zeta.
  rewrite (set_ui_font_runs _ hWnd pSelf self ret0 h0 w0); [|by apply slot_of_set_slot|done..].
  cbn [base_dialog.objects]. rewrite lookup_insert_eq.
  rewrite decide_False by done.
  unfold base_dialog.dispatch, base_dialog.set_hWnd, base_dialog.set_object,
    base_dialog.SetWindowLongPtrW, base_dialog.set_env.
  cbn [base_dialog.objects base_dialog.env base_dialog.globalUiFont
       base_dialog._msgHandler base_dialog._hWnd].
  rewrite lookup_insert_eq. cbn [base_dialog._msgHandler base_dialog._hWnd].
  rewrite Hexec. rewrite decide_False by done.
  eexists; (split; [done|]); cbn; by rewrite !lookup_insert_eq.
Qed.

(** C3. When the procedure of a window or dialog handles [WM_NCDESTROY]
    for a handle whose slot names an owner, it first dispatches the
    message to the owner's handlers, in the world it was called in, where
    the slot still names the owner and the owner's handle field is still
    set; only then, in the world the handlers left, does it zero the slot
    and the handle field (a window then calls [DefWindowProcW] when no
    handler answered).  From then on every call for that handle with a
    message other than the creation message ([WM_NCCREATE] for windows,
    [WM_INITDIALOG] for dialogs) finds no owner and takes the default
    path, leaving the objects and the slots alone.  An object whose handle
    field is zero, never created or destroyed alike, is accepted by a
    creation call.  The creation message of a window sets the slot and the
    handle field and then runs its handlers.  The creation message of a
    dialog sets the slot, sends [WM_SETFONT] to the dialog, whose handlers
    run with the handle field still as it was, sets the handle field and
    then runs its handlers.  The creation call returns the handle, and the
    slot names the owner unless a handler wrote it. *)
Theorem C3_teardown_clears_owner_after_dispatch :
  (∀ def (m : base_window.machine U) hWnd wp lp pSelf self ret h1 w1,
     base_window.GetWindowLongPtrW hWnd m = pSelf → pSelf ≠ 0 →
     base_window.objects m !! pSelf = Some self →
     base_msg_handler.exec WM_NCDESTROY wp lp (base_window._msgHandler self)
       (base_window.env m) = (Ret ret, h1, w1) →
     ∃ m',
       base_window._window_proc def hWnd WM_NCDESTROY wp lp m =
         (Ret (default (def hWnd WM_NCDESTROY wp lp) ret), m') ∧
       base_window.env m' =
         match ret with
         | Some _ => set_handle pSelf 0 (set_slot hWnd 0 w1)
         | None => log (DefWindowProcW hWnd WM_NCDESTROY wp lp)
                       (set_handle pSelf 0 (set_slot hWnd 0 w1))
         end ∧
       base_window.GetWindowLongPtrW hWnd m' = 0 ∧
       handle_of pSelf (base_window.env m') = 0 ∧
       base_window.objects m' !! pSelf = Some (base_window.Make 0 h1) ∧
       ∀ later,
         Forall (λ c, c.1.1.1 = hWnd ∧ c.1.1.2 ≠ WM_NCCREATE) later →
         ∃ m'', base_window.deliver def later m' = (Ret (), m'') ∧
           base_window.objects m'' = base_window.objects m' ∧
           base_window.userdata m'' = base_window.userdata m' ∧
           base_window.env m'' =
             foldl (λ w c, log (DefWindowProcW c.1.1.1 c.1.1.2 c.1.2 c.2) w)
                   (base_window.env m') later) ∧
  (∀ (m : base_dialog.machine U) hWnd wp lp pSelf self ret h1 w1,
     base_dialog.GetWindowLongPtrW hWnd m = pSelf → pSelf ≠ 0 →
     base_dialog.objects m !! pSelf = Some self →
     base_msg_handler.exec WM_NCDESTROY wp lp (base_dialog._msgHandler self)
       (base_dialog.env m) = (Ret ret, h1, w1) →
     ∃ m',
       base_dialog._dialog_proc hWnd WM_NCDESTROY wp lp m =
         (Ret (default FALSE ret), m') ∧
       base_dialog.env m' = set_handle pSelf 0 (set_slot hWnd 0 w1) ∧
       base_dialog.GetWindowLongPtrW hWnd m' = 0 ∧
       handle_of pSelf (base_dialog.env m') = 0 ∧
       base_dialog.objects m' !! pSelf = Some (base_dialog.Make 0 h1) ∧
       ∀ later,
         Forall (λ c, c.1.1.1 = hWnd ∧ c.1.1.2 ≠ WM_INITDIALOG) later →
         base_dialog.deliver later m' = (Ret (), m')) ∧
  (∀ def (m : base_window.machine U) this_ this hInst parent className title
     hMenu pos size exStyles styles hWnd wp lp lerr ret h1 w1,
     let args := {| ca_exStyles := exStyles; ca_className := className;
                    ca_title := title; ca_styles := styles; ca_pos := pos;
                    ca_size := size; ca_parent := parent; ca_hMenu := hMenu;
                    ca_hInst := hInst; ca_lpParam := this_ |} in
     let os := {| during := [(hWnd, WM_NCCREATE, wp, lp)]; returned := hWnd;
                  last_error := lerr |} in
     base_window.objects m !! this_ = Some this →
     base_window._hWnd this = 0 → this_ ≠ 0 → hWnd ≠ 0 →
     base_window.createstructs m !! lp = Some this_ →
     base_msg_handler.exec WM_NCCREATE wp lp (base_window._msgHandler this)
       (set_handle this_ hWnd
          (set_slot hWnd this_ (log (CreateWindowExW args) (base_window.env m))))
       = (Ret ret, h1, w1) →
     ∃ m',
       base_window.create_window def this_ hInst parent className title hMenu
         pos size exStyles styles os m = (Ret hWnd, m') ∧
       base_window.objects m' !! this_ = Some (base_window.Make hWnd h1) ∧
       base_window.env m' =
         match ret with
         | Some _ => w1
         | None => log (DefWindowProcW hWnd WM_NCCREATE wp lp) w1
         end ∧
       (slot_of hWnd w1 = this_ → base_window.GetWindowLongPtrW hWnd m' = this_)) ∧
  (∀ (m : base_dialog.machine U) this_ this hInst parent dialogId hWnd wp lerr
     ret0 h0 w0 ret h1 w1,
     let os := {| during := [(hWnd, WM_INITDIALOG, wp, this_)]; returned := hWnd;
                  last_error := lerr |} in
     let font := base_dialog.globalUiFont m in
     base_dialog.objects m !! this_ = Some this →
     base_dialog._hWnd this = 0 → this_ ≠ 0 → hWnd ≠ 0 → dialogId ≠ 0 →
     base_msg_handler.exec WM_SETFONT font 0 (base_dialog._msgHandler this)
       (log (SendMessageW hWnd WM_SETFONT font 0)
          (set_slot hWnd this_
             (log (CreateDialogParamW hInst dialogId parent this_)
                (base_dialog.env m)))) = (Ret ret0, h0, w0) →
     base_msg_handler.exec WM_INITDIALOG wp this_ h0
       (set_handle this_ hWnd (log (EnumChildWindows hWnd font) w0))
       = (Ret ret, h1, w1) →
     ∃ m',
       base_dialog.create_dialog_param this_ hInst parent dialogId os m
         = (Ret hWnd, m') ∧
       base_dialog.objects m' !! this_ = Some (base_dialog.Make hWnd h1) ∧
       base_dialog.env m' = w1 ∧
       (slot_of hWnd w1 = this_ → base_dialog.GetWindowLongPtrW hWnd m' = this_)).
Proof.
  split_and!.
  - intros def m hWnd wp lp pSelf self ret h1 w1 Hslot Hp Hobj Hexec.
    destruct (window_proc_after_exec def m hWnd WM_NCDESTROY wp lp pSelf self
                ret h1 w1) as (m' & Hr & He & Ho); [done..|].
    unfold after_message in He. rewrite decide_True in He by done.
    rewrite decide_True in Ho by done.
    assert (base_window.GetWindowLongPtrW hWnd m' = 0) as Hz.
    { unfold base_window.GetWindowLongPtrW. rewrite He.
      destruct ret; apply (slot_of_set_slot w1 hWnd 0). }
    exists m'. split_and!; try done.
    + rewrite He. destruct ret; apply (handle_of_set_handle _ pSelf 0).
    + rewrite Ho. apply lookup_insert_eq.
    + intros later Hl. by apply (window_deliver_default def later hWnd).
  - intros m hWnd wp lp pSelf self ret h1 w1 Hslot Hp Hobj Hexec.
    destruct (dialog_proc_after_exec m hWnd WM_NCDESTROY wp lp pSelf self
                ret h1 w1) as (m' & Hr & He & Ho); [done..|].
    unfold after_message in He. rewrite decide_True in He by done.
    rewrite decide_True in Ho by done.
    assert (base_dialog.GetWindowLongPtrW hWnd m' = 0) as Hz.
    { unfold base_dialog.GetWindowLongPtrW. rewrite He.
      apply (slot_of_set_slot w1 hWnd 0). }
    exists m'. split_and!; try done.
    + rewrite He. apply (handle_of_set_handle _ pSelf 0).
    + rewrite Ho. apply lookup_insert_eq.
    + intros later Hl. by apply (dialog_deliver_default later hWnd).
  - intros def m this_ this hInst parent className title hMenu pos size
      exStyles styles hWnd wp lp lerr ret h1 w1 args os Hobj Hnull Hthis Hh Hcs Hexec.
    unfold base_window.create_window. rewrite Hobj.
    rewrite decide_False by (by intros ?). fold args.
    unfold os. cbn [during returned base_window.deliver].
    edestruct (window_proc_creates def
                 (base_window.set_env (log (CreateWindowExW args) (base_window.env m)) m)
                 hWnd wp lp this_ this ret h1 w1) as (m' & -> & Ho & He); [done..|].
    rewrite decide_False by done. exists m'. split_and!; try done.
    intros Hs. unfold base_window.GetWindowLongPtrW. rewrite He.
    by destruct ret.
  - intros m this_ this hInst parent dialogId hWnd wp lerr ret0 h0 w0 ret h1 w1
      os font Hobj Hnull Hthis Hh Hid Hfont Hexec.
    unfold base_dialog.create_dialog_param. rewrite Hobj.
    unfold base_dialog._creation_checks.
    rewrite decide_False by (by intros ?). rewrite decide_False by done.
    unfold os. cbn [during returned base_dialog.deliver].
    edestruct (dialog_proc_creates
                 (base_dialog.set_env
                    (log (CreateDialogParamW hInst dialogId parent this_)
                       (base_dialog.env m)) m)
                 hWnd wp this_ this ret0 h0 w0 ret h1 w1) as (m' & -> & Ho & He);
      [done..|].
    rewrite decide_False by done. exists m'. split_and!; try done.
    intros Hs. unfold base_dialog.GetWindowLongPtrW. by rewrite He.
Qed.

(** C8. [register_class] does not throw when the OS reports
    [ERROR_CLASS_ALREADY_EXISTS]: it then calls [GetClassInfoExW] for the
    same instance and class name, returns the low 16 bits of what that
    call returns (the [BOOL] is assigned to an [ATOM]) and hands back the
    class data it fetched.  With any other last-error value than
    [ERROR_SUCCESS] it throws [std::system_error] carrying that value.  With
    [ERROR_SUCCESS] it returns the atom of [RegisterClassExW]. *)
Theorem C8_register_class_reuses_existing_class
    (wcx : WNDCLASSEXW) (os : base_window.register_os) (w : world U) :
  let lerr := default ERROR_SUCCESS (base_window.reg_last_error os) in
  (lerr = ERROR_CLASS_ALREADY_EXISTS →
     ∃ wcx1 w1,
       base_window.register_class wcx os w =
         (Ret (base_window.info_ret os mod 2 ^ 16),
          default wcx1 (base_window.info_wcx os),
          log (GetClassInfoExW (hInstance wcx) (lpszClassName wcx)) w1) ∧
       os_log w1 = os_log w ++ [RegisterClassExW wcx1] ∧
       hInstance wcx1 = hInstance wcx ∧ lpszClassName wcx1 = lpszClassName wcx) ∧
  (lerr ≠ ERROR_CLASS_ALREADY_EXISTS → lerr ≠ ERROR_SUCCESS →
     (base_window.register_class wcx os w).1.1 =
       Throw (system_error (int_of_UINT lerr) "RegisterClassEx failed.") ∧
     (0 ≤ lerr < 2 ^ 31 → int_of_UINT lerr = lerr)) ∧
  (lerr = ERROR_SUCCESS →
     (base_window.register_class wcx os w).1.1 = Ret (base_window.reg_atom os)).
Proof.
  intros lerr. unfold base_window.register_class. fold lerr. split_and!.
  - intros He. rewrite decide_True by done. by do 2 eexists.
  - intros Hne1 Hne2. rewrite decide_False by done. rewrite decide_True by done.
    split; [done|]. intros Hr. unfold int_of_UINT.
    rewrite Z.mod_small by lia. destruct (Z_lt_dec lerr (2 ^ 31)); lia.
  - intros He. rewrite decide_False by (rewrite He; done).
    by rewrite decide_False by (by intros ?).
Qed.

End window_claims.

(** ** Native controls *)

Section control_claims.
Context {U : Type}.

Lemma register_all_grows (regs : list (registration (U:=U))) this this' :
  register_all regs this = (Ret (), this') →
  base_native_control._hWnd this' = base_native_control._hWnd this ∧
  base_native_control._subclassId this' = base_native_control._subclassId this ∧
  (length (store._handlers (base_native_control._msgs this)) + length regs
   ≤ length (store._handlers (base_native_control._msgs this')))%nat.
Proof.
  revert this. induction regs as [|r regs IH]; intros this; simpl.
  - intros [= <-]. split_and!; [done..|lia].
  - destruct (register r this) as [[[]|e|] this1] eqn:Hr; try done.
    intros Hall. destruct (IH _ Hall) as (Hh & Hs & Hlen).
    assert (base_native_control._hWnd this1 = base_native_control._hWnd this ∧
            base_native_control._subclassId this1 = base_native_control._subclassId this ∧
            (length (store._handlers (base_native_control._msgs this)) + 1
             ≤ length (store._handlers (base_native_control._msgs this1)))%nat)
      as (Hh1 & Hs1 & Hlen1).
    { destruct r as [msg f|msgs f]; simpl in Hr.
      - unfold base_native_control.on_subclass_message in Hr.
        case_decide; simplify_eq/=. rewrite length_app. simpl. split_and!; [done..|lia].
      - unfold base_native_control.on_subclass_message_ids in Hr.
        case_decide; [done|]. destruct msgs as [|k1 rest]; [done|].
        rewrite add_ids_handlers in Hr. simplify_eq/=.
        rewrite length_app. simpl. split_and!; [done..|lia]. }
    split_and!; [congruence..|lia].
Qed.

Lemma registered_nonempty (regs : list (registration (U:=U))) this :
  register_all regs base_native_control.new = (Ret (), this) →
  base_native_control._hWnd this = 0 ∧
  store.empty (base_native_control._msgs this) =
    match regs with [] => true | _ :: _ => false end.
Proof.
  intros Hall. destruct (register_all_grows _ _ _ Hall) as (Hh & _ & Hlen).
  split; [done|]. destruct regs as [|r regs].
  - by simplify_eq/=.
  - unfold store.empty. simpl in Hlen. apply bool_decide_eq_false. lia.
Qed.

Lemma searched_no_throw msg wp lp refData (m : base_native_control.machine U) e :
  (base_native_control.searched msg wp lp refData m).1 ≠ Throw e.
Proof.
  unfold base_native_control.searched.
  case_decide; [done|]. destruct (_ !! refData) as [self|]; [|done].
  case_decide; [done|].
  pose proof (find_no_throw msg (base_native_control._msgs self)) as Hf.
  destruct (store.find msg _) as [[[ptr|]|e'|] s1]; simpl in *; try done.
  - pose proof (catch_no_throw (store.call s1 ptr (Any wp lp)) YES
                  (base_native_control.env m)) as Hc.
    destruct (catch_all_excps _ _ _) as [[v|e'|] w1]; simpl in *; try done;
      by destruct (Hc e').
  - by destruct (Hf e').
Qed.

(** C7. A control on which handlers were registered with
    [on_subclass_message] and which is then assigned or created calls
    [SetWindowSubclass], once, exactly when at least one registration was
    made.  The subclass procedure, on [WM_NCDESTROY], calls
    [RemoveWindowSubclass] for its own handle and id whenever it returns:
    with no object behind [refData], with an object whose handle is null,
    with no handler for the message, and after a handler ran or threw; and
    it never throws.  On a live control the search returns unless the
    handler itself runs into undefined behaviour. *)
Theorem C7_subclass_installed_iff_registered_and_always_removed :
  (∀ (regs : list registration) this (m : base_native_control.machine U)
     this_ hParent ctrlId dlgItem,
     register_all regs base_native_control.new = (Ret (), this) →
     base_native_control.objects m !! this_ = Some this →
     ∃ m', base_native_control.assign this_ (Some hParent) ctrlId dlgItem m
             = (Ret (), m') ∧
           os_log (base_native_control.env m') =
             os_log (base_native_control.env m)
             ++ installs regs dlgItem (base_native_control.firstId m) this_) ∧
  (∀ (regs : list registration) this (m : base_native_control.machine U)
     this_ hParent id0 className title pos size styles exStyles hInst os,
     register_all regs base_native_control.new = (Ret (), this) →
     base_native_control.objects m !! this_ = Some this →
     returned os ≠ 0 →
     ∃ m' args,
       base_native_control.create_window this_ (Some hParent) id0 className
         title pos size styles exStyles hInst os m = (Ret (returned os), m') ∧
       os_log (base_native_control.env m') =
         os_log (base_native_control.env m) ++ [CreateWindowExW args]
         ++ installs regs (returned os) (base_native_control.firstId m) this_) ∧
  (∀ def (m : base_native_control.machine U) hWnd wp lp idSubclass refData,
     (∀ e, (base_native_control._subclass_proc def hWnd WM_NCDESTROY wp lp
              idSubclass refData m).1 ≠ Throw e) ∧
     (refData = 0 →
        base_native_control.searched WM_NCDESTROY wp lp refData m = (Ret None, m)) ∧
     (∀ self, base_native_control.objects m !! refData = Some self →
        base_native_control._hWnd self = 0 →
        base_native_control.searched WM_NCDESTROY wp lp refData m = (Ret None, m)) ∧
     (∀ self, base_native_control.objects m !! refData = Some self →
        refData ≠ 0 → base_native_control._hWnd self ≠ 0 →
        constructed (base_native_control._msgs self) →
        match last_match WM_NCDESTROY (registrations (base_native_control._msgs self)) with
        | None =>
            ∃ m1, base_native_control.searched WM_NCDESTROY wp lp refData m
                    = (Ret None, m1) ∧
                  base_native_control.env m1 = base_native_control.env m
        | Some j =>
            match store.call (base_native_control._msgs self) (S j) (Any wp lp)
                    (base_native_control.env m) with
            | (Ret v, w1) =>
                ∃ m1, base_native_control.searched WM_NCDESTROY wp lp refData m
                        = (Ret (Some v), m1) ∧
                      base_native_control.env m1 = w1
            | (Throw e, w1) =>
                ∃ m1, base_native_control.searched WM_NCDESTROY wp lp refData m
                        = (Ret (Some 0), m1) ∧
                      base_native_control.env m1 =
                        log (PostQuitMessage (-1)) (log (MessageBox (caption_of e) e) w1)
            | (Undef, w1) => True
            end
        end) ∧
     (∀ ran m1,
        base_native_control.searched WM_NCDESTROY wp lp refData m = (Ret ran, m1) →
        ∃ m2,
          base_native_control._subclass_proc def hWnd WM_NCDESTROY wp lp
            idSubclass refData m
            = (Ret (default (def hWnd WM_NCDESTROY wp lp) ran), m2) ∧
          os_log (base_native_control.env m2) =
            os_log (base_native_control.env m1)
            ++ RemoveWindowSubclass hWnd "_subclass_proc" idSubclass
               :: match ran with
                  | Some _ => []
                  | None => [DefSubclassProc hWnd WM_NCDESTROY wp lp]
                  end)).
Proof.
  split_and!.
  - intros regs this m this_ hParent ctrlId dlgItem Hregs Hobj.
    destruct (registered_nonempty _ _ Hregs) as [Hh He].
    unfold base_native_control.assign. rewrite Hobj.
    rewrite decide_False by (by intros ?).
    unfold base_native_control._install_subclass_if_needed. simpl.
    rewrite lookup_insert_eq. simpl. rewrite He.
    destruct regs; simpl; eexists; (split; [done|]); simpl.
    + by rewrite app_nil_r.
    + done.
  - intros regs this m this_ hParent id0 className title pos size styles
      exStyles hInst os Hregs Hobj Hret.
    destruct (registered_nonempty _ _ Hregs) as [Hh He].
    unfold base_native_control.create_window. rewrite Hobj.
    rewrite decide_False by (by intros ?).
    rewrite decide_False by done.
    unfold base_native_control._install_subclass_if_needed. simpl.
    rewrite lookup_insert_eq. simpl. rewrite He.
    destruct regs; simpl; do 2 eexists; (split; [done|]); simpl.
    + done.
    + by rewrite <- app_assoc.
  - intros def m hWnd wp lp idSubclass refData. split_and!.
    + intros e. unfold base_native_control._subclass_proc.
      pose proof (searched_no_throw WM_NCDESTROY wp lp refData m) as Hs.
      destruct (base_native_control.searched _ _ _ _ _) as [[[r|]|e'|] m1];
        simpl in *; try done.
      by destruct (Hs e').
    + intros ->. done.
    + intros self Hobj Hh. unfold base_native_control.searched.
      case_decide; [done|]. rewrite Hobj. by rewrite decide_True.
    + intros self Hobj Hnz Hlive Hcons. unfold base_native_control.searched.
      rewrite decide_False by done. rewrite Hobj. rewrite decide_False by done.
      rewrite find_spec by done.
      destruct (last_match WM_NCDESTROY _) as [j|]; cbn -[store.call probed].
      * unfold catch_all_excps. rewrite call_probed.
        destruct (store.call _ (S j) _ _) as [[v|e|] w1]; simpl; eauto.
      * eauto.
    + intros ran m1 Hs. unfold base_native_control._subclass_proc. rewrite Hs.
      rewrite decide_True by done.
      destruct ran as [r|]; eexists; (split; [done|]); simpl; [done|].
      by rewrite <- app_assoc.
Qed.

End control_claims.

(** ** The properties at concrete instances *)

Section instances.
Import examples.

(** [add({1, 2, 2}, callback)] leaves two entries under key [2], both
    forwarding to index [1]: a key repeated among the later keys is stored
    each time. *)
Lemma C5_repeated_later_key_is_stored_twice :
  ∃ s', s122 = Ret s' ∧
    filter (λ h, store.id h = 2) (registrations s') =
      [store.Handler 2 (store.Wrapper 1); store.Handler 2 (store.Wrapper 1)] ∧
    ¬ (length (filter (λ h, store.id h = 2%Z) (registrations s')) ≤ 1)%nat.
Proof.
  eexists. split; [reflexivity|]. split; [reflexivity|].
  vm_compute. lia.
Qed.

Lemma C5_shared_callback_at_1_2_3 :
  2 ∈ [1; 2; 3] ∧
  ∃ s', store.add_ids [1; 2; 3] (store.UserFunc (counting 5)) store.new = Ret s' ∧
    ∃ ptr, store.find 2 s' = (Ret (Some ptr), probed 2 s') ∧
           ∀ p w, store.call (probed 2 s') ptr p w = counting 5 p w.
Proof.
  assert (2 ∈ [1; 2; 3]) as Hin by (right; left).
  split; [exact Hin|].
  destruct (C5_add_ids_shares_one_callback
              (store.Handler 0 store.Null) [] 1 [2; 3] (counting 5))
    as (s' & Hadd & _ & Hfind & _).
  exists s'. split; [exact Hadd|]. exact (Hfind 2 Hin).
Defined.

Lemma C2_command_goes_to_command_table :
  registered ms_new [Single 5 (counting 7)] [] h_cmd ∧
  registered ms_new [] [Single (3, -2) (counting 9)] h_nfy ∧
  (let r := base_msg_handler.exec WM_COMMAND (5 + 3 * 2 ^ 16) 0 h_cmd w0 in
   r.1.1 = Ret (Some 7) ∧ user r.2 = 1%nat) ∧
  (let r := base_msg_handler.exec WM_CLOSE 5 0 h_cmd w_live in
   r.1.1 = Ret None ∧ r.2 = w_live) ∧
  (let r := base_msg_handler.exec WM_NOTIFY 0 900 h_nfy w_nfy in
   r.1.1 = Ret (Some 9) ∧ user r.2 = 1%nat) ∧
  (∃ m', base_window._window_proc def0 7 WM_CLOSE 5 0 m_cmd = (Ret 99, m') ∧
         os_log (base_window.env m') = [DefWindowProcW 7 WM_CLOSE 5 0]) ∧
  (∃ m', base_dialog._dialog_proc 7 WM_CLOSE 5 0 d_live = (Ret FALSE, m') ∧
         os_log (base_dialog.env m') = []).
Proof.
  assert (registered ms_new [Single 5 (counting 7)] [] h_cmd) as Hc.
  { split_and!; eexists; (split; [reflexivity|]); left; reflexivity. }
  assert (registered ms_new [] [Single (3, -2) (counting 9)] h_nfy) as Hn.
  { split_and!; eexists; (split; [reflexivity|]); left; reflexivity. }
  split; [exact Hc|]. split; [exact Hn|].
  destruct (C2_exec_selects_one_table h_cmd _ _ _ WM_COMMAND (5 + 3 * 2 ^ 16) 0 w0 Hc)
    as (H1 & _ & _ & _).
  destruct (C2_exec_selects_one_table h_cmd _ _ _ WM_CLOSE 5 0 w_live Hc)
    as (_ & _ & H3 & _ & H4).
  destruct (C2_exec_selects_one_table h_nfy _ _ _ WM_NOTIFY 0 900 w_nfy Hn)
    as (_ & H2 & _ & _).
  split_and!.
  - destruct (H1 eq_refl) as (Hr & _). cbv zeta. split.
    + etrans; [exact (f_equal fst Hr)|]. vm_compute. reflexivity.
    + etrans; [exact (f_equal (λ x, user x.2) Hr)|]. vm_compute. reflexivity.
  - destruct (H3 ltac:(vm_compute; discriminate) ltac:(vm_compute; discriminate))
      as (Hr & _). cbv zeta. split.
    + etrans; [exact (f_equal fst Hr)|]. vm_compute. reflexivity.
    + etrans; [exact (f_equal snd Hr)|]. vm_compute. reflexivity.
  - destruct (H2 eq_refl {| hwndFrom := 55; idFrom := 3; code := 0xFFFFFFFE |}
                eq_refl) as (c & Hrange & Hbits & Hr & _).
    assert (c = -2) as ->.
    { cbn [code] in Hbits. apply (int_unique c (-2)); [lia|lia|].
      rewrite Hbits. reflexivity. }
    cbv zeta. split.
    + etrans; [exact (f_equal fst Hr)|]. vm_compute. reflexivity.
    + etrans; [exact (f_equal (λ x, user x.2) Hr)|]. vm_compute. reflexivity.
  - destruct (H4 _ _ eq_refl) as [Hw _].
    destruct (Hw def0 m_cmd 7 100 (base_window.Make 7 h_cmd)
                ltac:(vm_compute; discriminate) eq_refl ltac:(discriminate)
                eq_refl eq_refl eq_refl) as (m' & Hp & He).
    exists m'. split; [exact Hp|]. rewrite He. reflexivity.
  - destruct (H4 _ _ eq_refl) as [_ Hd].
    destruct (Hd d_live 7 100 (base_dialog.Make 7 h_cmd)
                ltac:(vm_compute; discriminate) eq_refl ltac:(discriminate)
                eq_refl eq_refl eq_refl) as (m' & Hp & He).
    exists m'. split; [exact Hp|]. rewrite He. reflexivity.
Defined.

Lemma C9_throwing_handler_answers_zero :
  (∃ h1,
     base_msg_handler.lookup WM_CLOSE 0 0 h_throw w0 =
       (base_msg_handler.Msgs, Ret (Some 2%nat), h1) ∧
     base_msg_handler.exec WM_CLOSE 0 0 h_throw w0 =
       (Ret (Some 0), h1,
        log (PostQuitMessage (-1))
          (log (MessageBox "Runtime exception" (runtime_error "boom")) w0))) ∧
  (∃ m', base_window._window_proc def0 7 WM_CLOSE 0 0 m_live = (Ret 0, m') ∧
         os_log (base_window.env m') =
           [MessageBox "Runtime exception" (runtime_error "boom");
            PostQuitMessage (-1)] ∧
         base_window.GetWindowLongPtrW 7 m' = 100) ∧
  (∃ m', base_dialog._dialog_proc 7 WM_CLOSE 0 0 d_throw = (Ret 0, m') ∧
         os_log (base_dialog.env m') =
           [MessageBox "Runtime exception" (runtime_error "boom");
            PostQuitMessage (-1)] ∧
         base_dialog.GetWindowLongPtrW 7 m' = 100).
Proof.
  destruct (C9_exec_answers_whenever_a_handler_exists h_throw WM_CLOSE 0 0 w0)
    as (_ & _ & H3 & _).
  destruct (C9_exec_answers_whenever_a_handler_exists h_throw WM_CLOSE 0 0 w_live)
    as (_ & _ & _ & H4).
  split.
  - eexists. split; [reflexivity|]. exact (H3 _ _ _ eq_refl).
  - destruct (H4 _ _ _ eq_refl) as [Hw Hd]. split.
    + destruct (Hw def0 m_live 7 100 (base_window.Make 7 h_throw)
                  ltac:(vm_compute; discriminate) eq_refl ltac:(discriminate)
                  eq_refl eq_refl eq_refl) as (m' & Hp & He).
      exists m'. split; [exact Hp|].
      unfold base_window.GetWindowLongPtrW. rewrite He. split; reflexivity.
    + destruct (Hd d_throw 7 100 (base_dialog.Make 7 h_throw)
                  ltac:(vm_compute; discriminate) eq_refl ltac:(discriminate)
                  eq_refl eq_refl eq_refl) as (m' & Hp & He).
      exists m'. split; [exact Hp|].
      unfold base_dialog.GetWindowLongPtrW. rewrite He. split; reflexivity.
Defined.

(** The callback stored in the message table under [WM_COMMAND] by
    [on_message({WM_COMMAND, WM_CREATE}, callback)] runs when [exec]
    dispatches [WM_CREATE]: the entry found is the wrapper at index [3],
    which calls the entry at index [2]. *)
Lemma C10_entry_under_WM_COMMAND_runs_through_wrapper :
  ∃ h, h_multi = Ret h ∧
    store._handlers (base_msg_handler._msgs h) !! 2%nat =
      Some (store.Handler WM_COMMAND (store.UserFunc (counting 7))) ∧
    store._handlers (base_msg_handler._msgs h) !! 3%nat =
      Some (store.Handler WM_CREATE (store.Wrapper 2)) ∧
    (base_msg_handler.lookup WM_CREATE 0 0 h w0).1 =
      (base_msg_handler.Msgs, Ret (Some 3%nat)) ∧
    (base_msg_handler.exec WM_CREATE 0 0 h w0).1.1 = Ret (Some 7) ∧
    user (base_msg_handler.exec WM_CREATE 0 0 h w0).2 = S (user w0).
Proof. eexists. split_and!; reflexivity. Qed.

Lemma C10_selected_entry_at_WM_CLOSE :
  (∀ msg wp lp,
     let r := base_msg_handler.exec msg wp lp (h_under_command (counting 7)) w0 in
     let r' := base_msg_handler.exec msg wp lp (h_under_command throwing) w0 in
     r.1.1 = r'.1.1 ∧ r.2 = r'.2) ∧
  (let r := base_msg_handler.exec WM_COMMAND 0 0 (h_under_command (counting 7)) w0 in
   r.1.1 = Ret None ∧ r.2 = w0) ∧
  (∃ h1,
     base_msg_handler.lookup WM_CLOSE 0 0 h_throw w0 =
       (base_msg_handler.Msgs, Ret (Some 2%nat), h1) ∧
     WM_CLOSE ≠ WM_COMMAND ∧ WM_CLOSE ≠ WM_NOTIFY ∧
     ∃ hd, store._handlers (base_msg_handler._msgs h1) !! 2%nat = Some hd ∧
           store.id hd = WM_CLOSE) ∧
  (∃ h', h_multi = Ret h' ∧
     store._handlers (base_msg_handler._msgs h') !! 2%nat =
       Some (store.Handler WM_COMMAND (store.UserFunc (counting 7))) ∧
     (base_msg_handler.exec WM_CREATE 0 0 h' w0).1.1 = Ret (Some 7)).
Proof.
  destruct (@C10_message_table_is_bypassed nat) as (H0 & H1 & _ & H3 & H4).
  split_and!.
  - intros msg wp lp.
    apply (H0 ms_new [] (Single WM_COMMAND (counting 7)) throwing).
    + repeat constructor.
    + eexists. split; [reflexivity|]. left. reflexivity.
    + eexists. split; [reflexivity|]. left. reflexivity.
  - destruct (H1 (base_msg_handler._msgs (h_under_command (counting 7)))
                (base_msg_handler._msgs base_msg_handler.new)
                store.new store.new 0 0 w0) as (Ha & Hb & _).
    cbv zeta. split.
    + etrans; [exact Ha|]. reflexivity.
    + etrans; [exact Hb|]. reflexivity.
  - eexists. split; [reflexivity|].
    exact (H3 h_throw WM_CLOSE 0 0 w0 _ _ eq_refl).
  - destruct (H4 base_msg_handler.new WM_COMMAND [WM_CREATE] (counting 7)
                WM_CREATE 0 0 w0) as (h' & Hreg & Hentry & Hexec).
    + discriminate.
    + left.
    + vm_compute. discriminate.
    + vm_compute. discriminate.
    + exists h'. split; [exact Hreg|]. split; [exact Hentry|]. exact Hexec.
Defined.

(** A window object that was created and destroyed is created again: the
    second [create_window] is accepted, its [WM_NCCREATE], for the same
    handle value, finds an owner, and the object holds a handle again. *)
Lemma C3_destroyed_window_is_created_again :
  let m1 := (create7 m_fresh).2 in
  let m2 := (base_window._window_proc def0 7 WM_NCDESTROY 0 0 m1).2 in
  let m3 := (create7 m2).2 in
  (create7 m_fresh).1 = Ret 7 ∧
  base_window._hWnd <$> base_window.objects m1 !! 100 = Some 7 ∧
  (base_window._window_proc def0 7 WM_NCDESTROY 0 0 m1).1 = Ret 99 ∧
  base_window._hWnd <$> base_window.objects m2 !! 100 = Some 0 ∧
  base_window.GetWindowLongPtrW 7 m2 = 0 ∧
  (create7 m2).1 = Ret 7 ∧
  base_window._hWnd <$> base_window.objects m3 !! 100 = Some 7 ∧
  base_window.GetWindowLongPtrW 7 m3 = 100.
Proof. split_and!; reflexivity. Qed.

Lemma C3_teardown_at_handle_7 :
  (∃ m' m'',
     base_window._window_proc def0 7 WM_NCDESTROY 0 0 m_watch = (Ret 0, m') ∧
     user (base_window.env m') = 107%nat ∧
     base_window.GetWindowLongPtrW 7 m' = 0 ∧
     handle_of 100 (base_window.env m') = 0 ∧
     base_window._hWnd <$> base_window.objects m' !! 100 = Some 0 ∧
     base_window.deliver def0 [(7, WM_CLOSE, 0, 0)] m' = (Ret (), m'') ∧
     base_window.objects m'' = base_window.objects m') ∧
  (∃ m',
     base_dialog._dialog_proc 7 WM_NCDESTROY 0 0 d_watch = (Ret 0, m') ∧
     user (base_dialog.env m') = 107%nat ∧
     base_dialog.GetWindowLongPtrW 7 m' = 0 ∧
     handle_of 100 (base_dialog.env m') = 0 ∧
     base_dialog._hWnd <$> base_dialog.objects m' !! 100 = Some 0 ∧
     base_dialog.deliver [(7, WM_COMMAND, 5, 0)] m' = (Ret (), m')) ∧
  (∃ m', create7 m_fresh = (Ret 7, m') ∧
         base_window._hWnd <$> base_window.objects m' !! 100 = Some 7 ∧
         base_window.GetWindowLongPtrW 7 m' = 100 ∧
         handle_of 100 (base_window.env m') = 7) ∧
  (∃ m', base_dialog.create_dialog_param 100 1 0 10 os_dialog7 d_font = (Ret 7, m') ∧
         user (base_dialog.env m') = 100%nat ∧
         base_dialog._hWnd <$> base_dialog.objects m' !! 100 = Some 7 ∧
         base_dialog.GetWindowLongPtrW 7 m' = 100 ∧
         handle_of 100 (base_dialog.env m') = 7).
Proof.
  destruct (@C3_teardown_clears_owner_after_dispatch nat) as (Hw & Hd & Hcw & Hcd).
  assert (Forall (λ c : Z * Z * Z * Z, c.1.1.1 = 7 ∧ c.1.1.2 ≠ WM_NCCREATE)
            [(7, WM_CLOSE, 0, 0)]) as Hl1.
  { repeat constructor. vm_compute. discriminate. }
  assert (Forall (λ c : Z * Z * Z * Z, c.1.1.1 = 7 ∧ c.1.1.2 ≠ WM_INITDIALOG)
            [(7, WM_COMMAND, 5, 0)]) as Hl2.
  { repeat constructor. vm_compute. discriminate. }
  split_and!.
  - edestruct (Hw def0 m_watch 7 0 0 100) as (m' & Hp & He & Hz & Hh & Ho & Hlater);
      [reflexivity | discriminate | reflexivity | reflexivity |].
    destruct (Hlater _ Hl1) as (m'' & Hdel & Hobj & _).
    exists m', m''.
    split_and!; [exact Hp | by rewrite He | exact Hz | exact Hh | by rewrite Ho
                | exact Hdel | exact Hobj].
  - edestruct (Hd d_watch 7 0 0 100) as (m' & Hp & He & Hz & Hh & Ho & Hlater);
      [reflexivity | discriminate | reflexivity | reflexivity |].
    exists m'.
    split_and!; [exact Hp | by rewrite He | exact Hz | exact Hh | by rewrite Ho
                | exact (Hlater _ Hl2)].
  - edestruct (Hcw def0 m_fresh 100 base_window.new 1 0 "main" None 0 (0, 0) (0, 0)
                 0 0 7 0 500 0) as (m' & Hc & Ho & He & Hs);
      [reflexivity | reflexivity | discriminate | discriminate | reflexivity
      | reflexivity |].
    exists m'. split_and!; [exact Hc | by rewrite Ho | exact (Hs eq_refl) | by rewrite He].
  - edestruct (Hcd d_font 100 (base_dialog.Make 0 h_font) 1 0 10 7 0 0)
      as (m' & Hc & Ho & He & Hs);
      [reflexivity | reflexivity | discriminate | discriminate | discriminate
      | reflexivity | reflexivity |].
    exists m'.
    split_and!; [exact Hc | by rewrite He | by rewrite Ho | exact (Hs eq_refl)
                | by rewrite He].
Defined.

Lemma C4_live_window_and_dialog_reject :
  base_window._hWnd (base_window.Make 7 h_cmd) ≠ 0 ∧
  base_window.on_message WM_CLOSE store.Null (base_window.Make 7 h_cmd) =
    (Throw (logic_error "Cannot add a message handler after the window was created."),
     base_window.Make 7 h_cmd) ∧
  create7 m_live = (Throw (logic_error "Cannot create a window twice."), m_live) ∧
  base_dialog.on_notify 1 2 store.Null (base_dialog.Make 7 h_cmd) =
    (Throw (logic_error "Cannot add a notify handler after the dialog was created."),
     base_dialog.Make 7 h_cmd) ∧
  base_dialog.create_dialog_param 100 1 0 10 os_create7 d_live =
    (Throw (logic_error "Cannot create a dialog twice."), d_live).
Proof.
  assert (7 ≠ 0) as Hlive by discriminate.
  destruct (@C4_live_instance_rejects_create_and_registration nat) as [Hw Hd].
  destruct (Hw (base_window.Make 7 h_throw) Hlive) as (_ & _ & _ & _ & _ & _ & Hcw).
  destruct (Hw (base_window.Make 7 h_cmd) Hlive) as (Hom & _).
  destruct (Hd (base_dialog.Make 7 h_cmd) Hlive) as (_ & _ & _ & _ & Hon & _ & Hcd).
  split_and!.
  - exact Hlive.
  - apply Hom.
  - apply Hcw. reflexivity.
  - apply Hon.
  - apply Hcd. reflexivity.
Defined.

Lemma C7_control_with_one_handler :
  (∃ m', base_native_control.assign 200 (Some 7) 10 55 c_fresh = (Ret (), m') ∧
         os_log (base_native_control.env m') =
           [SetWindowSubclass 55 "_subclass_proc" 1 200]) ∧
  (∃ m' args,
     base_native_control.create_window 200 (Some 7) 10 "BUTTON" None (0, 0) (0, 0)
       0 0 1 os_create56 c_fresh = (Ret 56, m') ∧
     os_log (base_native_control.env m') =
       [CreateWindowExW args; SetWindowSubclass 56 "_subclass_proc" 1 200]) ∧
  (∃ m2, base_native_control._subclass_proc def0 55 WM_NCDESTROY 0 0 1 0 c_fresh
           = (Ret 99, m2) ∧
         os_log (base_native_control.env m2) =
           [RemoveWindowSubclass 55 "_subclass_proc" 1;
            DefSubclassProc 55 WM_NCDESTROY 0 0]) ∧
  (∃ m2, base_native_control._subclass_proc def0 55 WM_NCDESTROY 0 0 1 200 c_fresh
           = (Ret 99, m2) ∧
         os_log (base_native_control.env m2) =
           [RemoveWindowSubclass 55 "_subclass_proc" 1;
            DefSubclassProc 55 WM_NCDESTROY 0 0]) ∧
  (∃ m2, base_native_control._subclass_proc def0 55 WM_CLOSE 0 0 1 200 c_live
           = (Ret 0, m2)) ∧
  (∃ m2, base_native_control._subclass_proc def0 55 WM_NCDESTROY 0 0 1 200 c_live
           = (Ret 99, m2) ∧
         os_log (base_native_control.env m2) =
           [SetWindowSubclass 55 "_subclass_proc" 1 200;
            RemoveWindowSubclass 55 "_subclass_proc" 1;
            DefSubclassProc 55 WM_NCDESTROY 0 0]).
Proof.
  destruct (@C7_subclass_installed_iff_registered_and_always_removed nat)
    as (Ha & Hc & Hp).
  split_and!.
  - destruct (Ha regs1 (register_all regs1 base_native_control.new).2
                c_fresh 200 7 10 55 eq_refl eq_refl) as (m' & Has & Hlog).
    exists m'. split; [exact Has|]. rewrite Hlog. reflexivity.
  - destruct (Hc regs1 (register_all regs1 base_native_control.new).2
                c_fresh 200 7 10 "BUTTON" None (0, 0) (0, 0) 0 0 1 os_create56
                eq_refl eq_refl ltac:(discriminate)) as (m' & args & Hcw & Hlog).
    exists m', args. split; [exact Hcw|]. rewrite Hlog. reflexivity.
  - destruct (Hp def0 c_fresh 55 0 0 1 0) as (_ & Hnull & _ & _ & Hrem).
    destruct (Hrem _ _ (Hnull eq_refl)) as (m2 & Hproc & Hlog).
    exists m2. split; [exact Hproc|]. rewrite Hlog. reflexivity.
  - destruct (Hp def0 c_fresh 55 0 0 1 200) as (_ & _ & Hdead & _ & Hrem).
    destruct (Hrem _ _ (Hdead _ eq_refl eq_refl)) as (m2 & Hproc & Hlog).
    exists m2. split; [exact Hproc|]. rewrite Hlog. reflexivity.
  - eexists. reflexivity.
  - destruct (Hp def0 c_live 55 0 0 1 200) as (_ & _ & _ & Hlive & Hrem).
    destruct (Hlive _ eq_refl ltac:(discriminate) ltac:(discriminate)
                ltac:(discriminate)) as (m1 & Hs & Henv).
    destruct (Hrem _ _ Hs) as (m2 & Hproc & Hlog).
    exists m2. split; [exact Hproc|]. rewrite Hlog, Henv. reflexivity.
Defined.

Lemma C8_existing_class_and_denied :
  (∃ w1, base_window.register_class wcx0 os_exists w0 =
           (Ret 49152, wcx0, log (GetClassInfoExW 1 "main") w1)) ∧
  (∃ w1, base_window.register_class wcx0 os_exists_wide w0 =
           (Ret 0, wcx0, log (GetClassInfoExW 1 "main") w1)) ∧
  (base_window.register_class wcx0 os_denied w0).1.1 =
    Throw (system_error 5 "RegisterClassEx failed.") ∧
  (base_window.register_class wcx0 os_fresh w0).1.1 = Ret 49153.
Proof.
  destruct (C8_register_class_reuses_existing_class wcx0 os_exists w0) as (He & _ & _).
  destruct (C8_register_class_reuses_existing_class wcx0 os_exists_wide w0)
    as (Hw & _ & _).
  destruct (C8_register_class_reuses_existing_class wcx0 os_denied w0) as (_ & Hd & _).
  destruct (C8_register_class_reuses_existing_class wcx0 os_fresh w0) as (_ & _ & Hs).
  split_and!.
  - destruct (He eq_refl) as (wcx1 & w1 & Hr & _). exists w1. exact Hr.
  - destruct (Hw eq_refl) as (wcx1 & w1 & Hr & _). exists w1. exact Hr.
  - destruct (Hd ltac:(vm_compute; discriminate) ltac:(vm_compute; discriminate))
      as [Hr Hcode].
    rewrite Hr, Hcode; [reflexivity|]. simpl. lia.
  - exact (Hs eq_refl).
Defined.

End instances.

(** * Further properties *)

(** ** Binary helpers *)

Section bin_facts.

Lemma lor_disjoint a b k :
  0 ≤ k → 0 ≤ b < 2 ^ k → Z.lor (a * 2 ^ k) b = a * 2 ^ k + b.
Proof.
  intros Hk Hb.
  assert (Z.land (a * 2 ^ k) b = 0) as Hland.
  { apply Z.bits_inj'. intros n Hn. rewrite Z.land_spec, Z.bits_0.
    destruct (Z_lt_dec n k).
    - by rewrite Z.mul_pow2_bits_low by lia.
    - rewrite <- (Z.mod_small b (2 ^ k)) by lia.
      rewrite Z.mod_pow2_bits_high by lia. apply andb_false_r. }
  by rewrite Z.add_nocarry_lxor, Z.lxor_lor.
Qed.

Lemma shl_int_small d k :
  0 ≤ k → 0 ≤ d → d * 2 ^ k < 2 ^ 31 → shl_int d k = d * 2 ^ k.
Proof.
  intros Hk Hd Hlt. unfold shl_int, int_of_UINT. rewrite Z.shiftl_mul_pow2 by done.
  assert (0 ≤ d * 2 ^ k) by (apply Z.mul_nonneg_nonneg; lia).
  rewrite Z.mod_small by lia. cbv zeta. destruct (Z_lt_dec _ _); lia.
Qed.

Lemma shl_int_24 d :
  is_byte d → ∃ c, shl_int d 24 = c * 2 ^ 24 ∧ (c = d ∨ c = d - 2 ^ 8).
Proof.
  unfold is_byte. intros Hd. unfold shl_int, int_of_UINT.
  rewrite Z.shiftl_mul_pow2 by done. rewrite Z.mod_small by lia. cbv zeta.
  destruct (Z_lt_dec _ _).
  - exists d. split; [done|by left].
  - exists (d - 2 ^ 8). split; [lia|by right].
Qed.

Lemma parse16_be_value b0 b1 rest :
  is_byte b0 → is_byte b1 →
  bin_aux.parse_uint16_be (Some (b0 :: b1 :: rest)) = Ret (b0 * 2 ^ 8 + b1).
Proof.
  unfold is_byte. intros H0 H1. unfold bin_aux.parse_uint16_be. simpl.
  rewrite shl_int_small by lia. rewrite lor_disjoint by lia.
  unfold WORD_of. by rewrite Z.mod_small by lia.
Qed.

Lemma parse16_le_value b0 b1 rest :
  is_byte b0 → is_byte b1 →
  bin_aux.parse_uint16_le (Some (b0 :: b1 :: rest)) = Ret (b0 + b1 * 2 ^ 8).
Proof.
  unfold is_byte. intros H0 H1. unfold bin_aux.parse_uint16_le. simpl.
  rewrite shl_int_small by lia. rewrite Z.lor_comm, lor_disjoint by lia.
  unfold WORD_of. rewrite Z.mod_small by lia. f_equal. lia.
Qed.

Lemma parse32_be_value b0 b1 b2 b3 rest :
  is_byte b0 → is_byte b1 → is_byte b2 → is_byte b3 →
  bin_aux.parse_uint32_be (Some (b0 :: b1 :: b2 :: b3 :: rest))
  = Ret (b0 * 2 ^ 24 + b1 * 2 ^ 16 + b2 * 2 ^ 8 + b3).
Proof.
  intros H0 H1 H2 H3. destruct (shl_int_24 b0 H0) as (c & Hc & Hcd).
  unfold is_byte in *. unfold bin_aux.parse_uint32_be. simpl.
  rewrite Hc, !shl_int_small by lia.
  rewrite lor_disjoint by lia.
  replace (c * 2 ^ 24 + b1 * 2 ^ 16) with ((c * 2 ^ 8 + b1) * 2 ^ 16) by lia.
  rewrite lor_disjoint by lia.
  replace ((c * 2 ^ 8 + b1) * 2 ^ 16 + b2 * 2 ^ 8)
    with ((c * 2 ^ 16 + b1 * 2 ^ 8 + b2) * 2 ^ 8) by lia.
  rewrite lor_disjoint by lia.
  unfold DWORD_of. f_equal.
  destruct Hcd as [->| ->].
  - rewrite Z.mod_small by lia. lia.
  - replace (((b0 - 2 ^ 8) * 2 ^ 16 + b1 * 2 ^ 8 + b2) * 2 ^ 8 + b3)
      with (b0 * 2 ^ 24 + b1 * 2 ^ 16 + b2 * 2 ^ 8 + b3 + (-1) * 2 ^ 32) by lia.
    rewrite Z.mod_add by lia. rewrite Z.mod_small by lia. lia.
Qed.

Lemma parse32_le_value b0 b1 b2 b3 rest :
  is_byte b0 → is_byte b1 → is_byte b2 → is_byte b3 →
  bin_aux.parse_uint32_le (Some (b0 :: b1 :: b2 :: b3 :: rest))
  = Ret (b0 + b1 * 2 ^ 8 + b2 * 2 ^ 16 + b3 * 2 ^ 24).
Proof.
  intros H0 H1 H2 H3. destruct (shl_int_24 b3 H3) as (c & Hc & Hcd).
  unfold is_byte in *. unfold bin_aux.parse_uint32_le. simpl.
  rewrite Hc, !shl_int_small by lia.
  rewrite (Z.lor_comm b0), lor_disjoint by lia.
  rewrite (Z.lor_comm _ (b2 * 2 ^ 16)), lor_disjoint by lia.
  rewrite (Z.lor_comm _ (c * 2 ^ 24)), lor_disjoint by lia.
  unfold DWORD_of. f_equal.
  destruct Hcd as [->| ->].
  - rewrite Z.mod_small by lia. lia.
  - replace ((b3 - 2 ^ 8) * 2 ^ 24 + (b2 * 2 ^ 16 + (b1 * 2 ^ 8 + b0)))
      with (b0 + b1 * 2 ^ 8 + b2 * 2 ^ 16 + b3 * 2 ^ 24 + (-1) * 2 ^ 32) by lia.
    rewrite Z.mod_add by lia. rewrite Z.mod_small by lia. lia.
Qed.

(** X1. The four parsers read the bytes as a positional number: most
    significant byte first for the big-endian ones, last for the
    little-endian ones, also when the top byte sets the sign bit of the
    [int] the shifts are computed in; a big-endian parse equals the
    little-endian parse of the bytes reversed. *)
Theorem X1_parse_uint_is_positional b0 b1 b2 b3 rest :
  is_byte b0 → is_byte b1 → is_byte b2 → is_byte b3 →
  bin.parse_uint16_be (Some (b0 :: b1 :: rest)) = Ret (b0 * 2 ^ 8 + b1) ∧
  bin.parse_uint16_le (Some (b0 :: b1 :: rest)) = Ret (b0 + b1 * 2 ^ 8) ∧
  bin.parse_uint32_be (Some (b0 :: b1 :: b2 :: b3 :: rest))
    = Ret (b0 * 2 ^ 24 + b1 * 2 ^ 16 + b2 * 2 ^ 8 + b3) ∧
  bin.parse_uint32_le (Some (b0 :: b1 :: b2 :: b3 :: rest))
    = Ret (b0 + b1 * 2 ^ 8 + b2 * 2 ^ 16 + b3 * 2 ^ 24) ∧
  bin.parse_uint16_be (Some [b0; b1]) = bin.parse_uint16_le (Some [b1; b0]) ∧
  bin.parse_uint32_be (Some [b0; b1; b2; b3])
    = bin.parse_uint32_le (Some [b3; b2; b1; b0]).
Proof.
  intros H0 H1 H2 H3. unfold bin.parse_uint16_be, bin.parse_uint16_le,
    bin.parse_uint32_be, bin.parse_uint32_le.
  rewrite !parse16_be_value, !parse16_le_value, !parse32_be_value,
    !parse32_le_value by done.
  split_and!; try done; f_equal; lia.
Qed.

Lemma low_byte n : BYTE_of (Z.land n 0xFF) = n mod 2 ^ 8.
Proof.
  change 0xFF with (Z.ones 8). rewrite Z.land_ones by done.
  unfold BYTE_of. by rewrite Z.mod_mod.
Qed.

Lemma high_byte n k :
  0 ≤ k →
  BYTE_of (Z.shiftr (Z.land n (Z.shiftl (Z.ones 8) k)) k) = (n / 2 ^ k) mod 2 ^ 8.
Proof.
  intros Hk. rewrite Z.shiftr_land, Z.shiftr_shiftl_l by lia.
  rewrite Z.sub_diag, Z.shiftl_0_r, Z.land_ones by done.
  rewrite Z.shiftr_div_pow2 by done. unfold BYTE_of. by rewrite Z.mod_mod.
Qed.

Lemma put_bytes_4 x0 x1 x2 x3 rest a b c d :
  bin.put_bytes (x0 :: x1 :: x2 :: x3 :: rest) 0 [a; b; c; d]
  = Ret (BYTE_of a :: BYTE_of b :: BYTE_of c :: BYTE_of d :: rest).
Proof. simpl. repeat (rewrite decide_True by lia; simpl). done. Qed.

Lemma put_bytes_2 x0 x1 rest a b :
  bin.put_bytes (x0 :: x1 :: rest) 0 [a; b] = Ret (BYTE_of a :: BYTE_of b :: rest).
Proof. simpl. repeat (rewrite decide_True by lia; simpl). done. Qed.

Lemma put_bytes_short dest i bytes :
  bytes ≠ [] → (length dest < i + length bytes)%nat →
  bin.put_bytes dest i bytes = Undef.
Proof.
  revert dest i. induction bytes as [|b bytes IH]; intros dest i Hne Hlen; [done|].
  simpl in *. destruct (decide (i < length dest)%nat); [|done].
  apply IH; [|rewrite length_insert; lia].
  intros ->. simpl in Hlen. lia.
Qed.

Local Ltac zdm := Z.div_mod_to_equations; lia.

(** X2. A 16-bit number written with [put_uint16_be] or [put_uint16_le] is
    read back by the parser of the same byte order, and the write touches
    the first two bytes of the buffer only; parsing two bytes and writing
    the number back restores them; on a buffer of fewer than two bytes the
    write is undefined. *)
Theorem X2_uint16_round_trip :
  (∀ n x0 x1 rest, 0 ≤ n < 2 ^ 16 →
     ∃ b0 b1, is_byte b0 ∧ is_byte b1 ∧
       bin.put_uint16_be n (x0 :: x1 :: rest) = Ret (b0 :: b1 :: rest) ∧
       bin.parse_uint16_be (Some (b0 :: b1 :: rest)) = Ret n ∧
       bin.put_uint16_le n (x0 :: x1 :: rest) = Ret (b1 :: b0 :: rest) ∧
       bin.parse_uint16_le (Some (b1 :: b0 :: rest)) = Ret n) ∧
  (∀ b0 b1 x0 x1 rest, is_byte b0 → is_byte b1 →
     (n ← bin.parse_uint16_be (Some [b0; b1]); bin.put_uint16_be n (x0 :: x1 :: rest))
       = Ret (b0 :: b1 :: rest) ∧
     (n ← bin.parse_uint16_le (Some [b0; b1]); bin.put_uint16_le n (x0 :: x1 :: rest))
       = Ret (b0 :: b1 :: rest)) ∧
  (∀ n dest, (length dest < 2)%nat →
     bin.put_uint16_be n dest = Undef ∧ bin.put_uint16_le n dest = Undef).
Proof.
  split_and!.
  - intros n x0 x1 rest Hn.
    exists ((n / 2 ^ 8) mod 2 ^ 8), (n mod 2 ^ 8).
    assert (is_byte ((n / 2 ^ 8) mod 2 ^ 8)) as Hb0 by (unfold is_byte; zdm).
    assert (is_byte (n mod 2 ^ 8)) as Hb1 by (unfold is_byte; zdm).
    unfold bin.put_uint16_be, bin.put_uint16_le, bin.parse_uint16_be,
      bin.parse_uint16_le.
    rewrite !put_bytes_2, parse16_be_value, parse16_le_value by done.
    change 0xFF00 with (Z.shiftl (Z.ones 8) 8).
    rewrite low_byte, high_byte by done.
    split_and!; try done; f_equal; zdm.
  - intros b0 b1 x0 x1 rest H0 H1.
    unfold bin.put_uint16_be, bin.put_uint16_le, bin.parse_uint16_be,
      bin.parse_uint16_le.
    rewrite parse16_be_value, parse16_le_value by done.
    unfold mbind, outcome_bind.
    rewrite !put_bytes_2. change 0xFF00 with (Z.shiftl (Z.ones 8) 8).
    rewrite !low_byte, !high_byte by done. unfold is_byte in *.
    split; repeat (f_equal; try zdm).
  - intros n dest Hlen. split; apply put_bytes_short; simpl; (done || lia).
Qed.

(** X3. The same for 32-bit numbers: [put_uint32_be]/[parse_uint32_be] and
    [put_uint32_le]/[parse_uint32_le] are inverse to each other on the
    first four bytes of a buffer, the rest of which is left alone; on a
    buffer of fewer than four bytes the write is undefined. *)
Theorem X3_uint32_round_trip :
  (∀ n x0 x1 x2 x3 rest, 0 ≤ n < 2 ^ 32 →
     ∃ b0 b1 b2 b3, is_byte b0 ∧ is_byte b1 ∧ is_byte b2 ∧ is_byte b3 ∧
       bin.put_uint32_be n (x0 :: x1 :: x2 :: x3 :: rest)
         = Ret (b0 :: b1 :: b2 :: b3 :: rest) ∧
       bin.parse_uint32_be (Some (b0 :: b1 :: b2 :: b3 :: rest)) = Ret n ∧
       bin.put_uint32_le n (x0 :: x1 :: x2 :: x3 :: rest)
         = Ret (b3 :: b2 :: b1 :: b0 :: rest) ∧
       bin.parse_uint32_le (Some (b3 :: b2 :: b1 :: b0 :: rest)) = Ret n) ∧
  (∀ b0 b1 b2 b3 x0 x1 x2 x3 rest,
     is_byte b0 → is_byte b1 → is_byte b2 → is_byte b3 →
     (n ← bin.parse_uint32_be (Some [b0; b1; b2; b3]);
      bin.put_uint32_be n (x0 :: x1 :: x2 :: x3 :: rest))
       = Ret (b0 :: b1 :: b2 :: b3 :: rest) ∧
     (n ← bin.parse_uint32_le (Some [b0; b1; b2; b3]);
      bin.put_uint32_le n (x0 :: x1 :: x2 :: x3 :: rest))
       = Ret (b0 :: b1 :: b2 :: b3 :: rest)) ∧
  (∀ n dest, (length dest < 4)%nat →
     bin.put_uint32_be n dest = Undef ∧ bin.put_uint32_le n dest = Undef).
Proof.
  split_and!.
  - intros n x0 x1 x2 x3 rest Hn.
    exists ((n / 2 ^ 24) mod 2 ^ 8), ((n / 2 ^ 16) mod 2 ^ 8),
      ((n / 2 ^ 8) mod 2 ^ 8), (n mod 2 ^ 8).
    assert (is_byte ((n / 2 ^ 24) mod 2 ^ 8)) as Hb0 by (unfold is_byte; zdm).
    assert (is_byte ((n / 2 ^ 16) mod 2 ^ 8)) as Hb1 by (unfold is_byte; zdm).
    assert (is_byte ((n / 2 ^ 8) mod 2 ^ 8)) as Hb2 by (unfold is_byte; zdm).
    assert (is_byte (n mod 2 ^ 8)) as Hb3 by (unfold is_byte; zdm).
    unfold bin.put_uint32_be, bin.put_uint32_le, bin.parse_uint32_be,
      bin.parse_uint32_le.
    rewrite !put_bytes_4, parse32_be_value, parse32_le_value by done.
    change 0xFF000000 with (Z.shiftl (Z.ones 8) 24).
    change 0xFF0000 with (Z.shiftl (Z.ones 8) 16).
    change 0xFF00 with (Z.shiftl (Z.ones 8) 8).
    rewrite low_byte, !high_byte by done.
    split_and!; try done; f_equal; zdm.
  - intros b0 b1 b2 b3 x0 x1 x2 x3 rest H0 H1 H2 H3.
    unfold bin.put_uint32_be, bin.put_uint32_le, bin.parse_uint32_be,
      bin.parse_uint32_le.
    rewrite parse32_be_value, parse32_le_value by done.
    unfold mbind, outcome_bind.
    rewrite !put_bytes_4.
    change 0xFF000000 with (Z.shiftl (Z.ones 8) 24).
    change 0xFF0000 with (Z.shiftl (Z.ones 8) 16).
    change 0xFF00 with (Z.shiftl (Z.ones 8) 8).
    rewrite !low_byte, !high_byte by done. unfold is_byte in *.
    split; repeat (f_equal; try zdm).
  - intros n dest Hlen. split; apply put_bytes_short; simpl; (done || lia).
Qed.

Lemma trim_nulls_no_null s : 0 ∉ bin_aux.trim_nulls s.
Proof.
  induction s as [|c s IH]; simpl; [apply not_elem_of_nil|].
  destruct (decide (c = 0)); [apply not_elem_of_nil|].
  apply not_elem_of_cons. split; [congruence|done].
Qed.

Lemma trim_nulls_length s : (length (bin_aux.trim_nulls s) ≤ length s)%nat.
Proof.
  induction s as [|c s IH]; simpl; [done|].
  destruct (decide (c = 0)); simpl; lia.
Qed.

Lemma trim_nulls_id s : 0 ∉ s → bin_aux.trim_nulls s = s.
Proof.
  induction s as [|c s IH]; simpl; [done|]. intros [Hc Hs]%not_elem_of_cons.
  rewrite decide_False by congruence. by rewrite IH.
Qed.

Lemma ansi_loop_spec bs n i ret :
  (i + n ≤ length bs)%nat ∨ 0 ∈ drop i bs →
  length ret = (i + n)%nat →
  bin_aux.ansi_loop (Some bs) n i ret
  = Ret (take i ret ++ bin_aux.trim_nulls (take n (drop i bs))).
Proof.
  revert i ret. induction n as [|n IH]; intros i ret Hbuf Hlen; simpl.
  - rewrite app_nil_r. f_equal. rewrite take_ge; [done|lia].
  - assert (∃ b, bs !! i = Some b) as [b Hb].
    { apply lookup_lt_is_Some. destruct Hbuf as [|Hin]; [lia|].
      destruct (decide (i < length bs)%nat); [done|].
      rewrite drop_ge in Hin by lia. by apply elem_of_nil in Hin. }
    rewrite Hb. simpl. rewrite (drop_S _ _ _ Hb). simpl.
    destruct (decide (b = 0)); [by rewrite app_nil_r|].
    rewrite IH.
    + assert (i < length ret)%nat as Hi by lia.
      rewrite (take_S_r _ _ b) by (by apply list_lookup_insert_eq).
      rewrite take_insert_ge by done. by rewrite <- app_assoc.
    + destruct Hbuf as [|Hin]; [left; lia|right].
      rewrite (drop_S _ _ _ Hb) in Hin. apply elem_of_cons in Hin as [|]; [congruence|done].
    + rewrite length_insert. lia.
Qed.

Lemma str_from_ansi_value bs sz :
  (sz ≤ length bs)%nat ∨ 0 ∈ bs →
  bin_aux.str_from_ansi (Some bs) sz = Ret (bin_aux.trim_nulls (take sz bs)).
Proof.
  intros Hbuf. unfold bin_aux.str_from_ansi. destruct (decide (sz ≠ O)) as [|Hz].
  - rewrite ansi_loop_spec; [done| |by rewrite length_replicate].
    destruct Hbuf; [by left|by right].
  - by replace sz with O by lia.
Qed.

(** X4. [str_from_ansi] widens the bytes before the first null among the
    first [sz] bytes, or all [sz] bytes if none of them is null, provided
    the buffer holds [sz] bytes or a null; the result never contains a null
    and is at most [sz] long; a null pointer or [sz = 0] gives the empty
    string. *)
Theorem X4_str_from_ansi_stops_at_null :
  (∀ bs sz, ((sz ≤ length bs)%nat ∨ 0 ∈ bs) →
     bin_aux.str_from_ansi (Some bs) sz = Ret (bin_aux.trim_nulls (take sz bs)) ∧
     (0 ∉ bin_aux.trim_nulls (take sz bs)) ∧
     (length (bin_aux.trim_nulls (take sz bs)) ≤ sz)%nat ∧
     (0 ∉ take sz bs → bin_aux.str_from_ansi (Some bs) sz = Ret (take sz bs))) ∧
  (∀ sz, bin_aux.str_from_ansi None sz = Ret []) ∧
  (∀ data, bin_aux.str_from_ansi data 0 = Ret []).
Proof.
  split_and!.
  - intros bs sz Hbuf.
    pose proof (str_from_ansi_value bs sz Hbuf) as Hr.
    split_and!; [done|apply trim_nulls_no_null| |].
    + etrans; [apply trim_nulls_length|]. rewrite length_take. lia.
    + intros Hnn. by rewrite Hr, trim_nulls_id.
  - done.
  - by intros [bs|].
Qed.

Lemma units16_take_odd be bs k :
  units16 be (take (2 * k + 1) bs) = units16 be (take (2 * k) bs).
Proof.
  revert bs. induction k as [|k IH]; intros bs.
  - by destruct bs.
  - replace (2 * S k + 1)%nat with (S (S (2 * k + 1))) by lia.
    replace (2 * S k)%nat with (S (S (2 * k))) by lia.
    destruct bs as [|a [|b bs]]; [done..|].
    cbn [take units16]. by rewrite IH.
Qed.

Lemma utf16_loop_spec bs n i be buf :
  Forall is_byte bs → (i + 2 * n ≤ length bs)%nat →
  bin_aux.utf16_loop (Some bs) n i be buf
  = Ret (buf ++ units16 be (take (2 * n) (drop i bs))).
Proof.
  intros Hbytes. revert i buf. induction n as [|n IH]; intros i buf Hlen; simpl.
  - by rewrite app_nil_r.
  - destruct (drop i bs) as [|a [|b rest]] eqn:Hd.
    { apply (f_equal length) in Hd. rewrite length_drop in Hd. simpl in Hd. lia. }
    { apply (f_equal length) in Hd. rewrite length_drop in Hd. simpl in Hd. lia. }
    assert (is_byte a ∧ is_byte b) as [Ha Hb].
    { assert (Forall is_byte (drop i bs)) as Hf by (by apply Forall_drop).
      rewrite Hd in Hf. by inversion Hf as [|?? ? Hf']; inversion Hf'. }
    assert (drop (i + 2) bs = rest) as Hrest.
    { rewrite <- drop_drop, Hd. done. }
    replace (S (n + S (n + 0))) with (S (S (2 * n))) by lia.
    cbn [take units16].
    destruct be.
    + rewrite parse16_be_value by done. cbn [mbind outcome_bind].
      rewrite IH by lia. rewrite Hrest, <- app_assoc. done.
    + rewrite parse16_le_value by done. cbn [mbind outcome_bind].
      rewrite IH by lia. rewrite Hrest, <- app_assoc. done.
Qed.

Lemma parse16_no_throw (be : bool) data e :
  (if be then bin_aux.parse_uint16_be data else bin_aux.parse_uint16_le data)
  ≠ (Throw e : outcome Z).
Proof.
  unfold bin_aux.parse_uint16_be, bin_aux.parse_uint16_le, bin_aux.at_.
  destruct be, data as [[|a [|b l]]|]; done.
Qed.

Lemma utf16_loop_short bs n i be buf :
  (0 < n)%nat → (length bs < i + 2 * n)%nat →
  bin_aux.utf16_loop (Some bs) n i be buf = Undef.
Proof.
  revert i buf. induction n as [|n IH]; intros i buf Hn Hlen; simpl; [lia|].
  destruct (drop i bs) as [|a [|b rest]] eqn:Hd.
  - by destruct be.
  - by destruct be.
  - assert (i + 2 ≤ length bs)%nat.
    { apply (f_equal length) in Hd. rewrite length_drop in Hd. simpl in Hd. lia. }
    destruct be; simpl; apply IH; lia.
Qed.

Lemma units16_take_even be bs sz :
  units16 be (take sz bs) = units16 be (take (2 * (sz `div` 2)) bs).
Proof.
  pose proof (Nat.div_mod_eq sz 2) as Hsz.
  assert (sz `mod` 2 < 2)%nat as Hm by (apply Nat.mod_upper_bound; lia).
  destruct (decide (sz `mod` 2 = 0)%nat) as [Heven|Hodd].
  - f_equal. f_equal. lia.
  - rewrite <- units16_take_odd. f_equal. f_equal. lia.
Qed.

Lemma units16_length be bs k :
  (2 * k ≤ length bs)%nat → length (units16 be (take (2 * k) bs)) = k.
Proof.
  revert bs. induction k as [|k IH]; intros l Hl; [done|].
  destruct l as [|a [|b l]]; simpl in Hl; [lia..|].
  replace (2 * S k)%nat with (S (S (2 * k))) by lia. simpl.
  rewrite IH; [done|lia].
Qed.

Lemma str_from_utf16_loop data sz be :
  bin_aux.str_from_utf16 data sz be
  = bin_aux.utf16_loop data (sz `div` 2) 0 be [].
Proof.
  unfold bin_aux.str_from_utf16.
  pose proof (Nat.div_mod_eq sz 2) as Hsz.
  assert (sz `mod` 2 < 2)%nat as Hm by (apply Nat.mod_upper_bound; lia).
  destruct (decide (sz `mod` 2 ≠ 0)%nat) as [Hodd|Heven]; [|done].
  assert (sz - 1 = 2 * (sz `div` 2))%nat as Hs1 by lia.
  rewrite Hs1 at 1. rewrite Nat.mul_comm. by rewrite Nat.div_mul by lia.
Qed.

Lemma str_from_utf16_value bs sz be :
  Forall is_byte bs → (sz ≤ length bs)%nat →
  bin_aux.str_from_utf16 (Some bs) sz be = Ret (units16 be (take sz bs)).
Proof.
  intros Hbytes Hle. pose proof (Nat.div_mod_eq sz 2) as Hsz.
  rewrite str_from_utf16_loop, units16_take_even.
  rewrite utf16_loop_spec; [|done|lia]. by rewrite drop_0, app_nil_l.
Qed.

Lemma str_from_utf16_short bs sz be :
  (length bs < 2 * (sz `div` 2))%nat →
  bin_aux.str_from_utf16 (Some bs) sz be = Undef.
Proof.
  intros Hshort. rewrite str_from_utf16_loop. apply utf16_loop_short; lia.
Qed.

(** X5. [str_from_utf16] turns the first [sz] bytes, two at a time, into
    16-bit units in the byte order asked for and ignores a last odd byte,
    so the string has [sz / 2] units; when the buffer is shorter than the
    even part of [sz] the reads run past its end. *)
Theorem X5_str_from_utf16_pairs_bytes bs sz be :
  (Forall is_byte bs → (sz ≤ length bs)%nat →
     bin_aux.str_from_utf16 (Some bs) sz be = Ret (units16 be (take sz bs)) ∧
     length (units16 be (take sz bs)) = (sz `div` 2)%nat) ∧
  ((length bs < 2 * (sz `div` 2))%nat →
     bin_aux.str_from_utf16 (Some bs) sz be = Undef).
Proof.
  split.
  - intros Hbytes Hle. split; [by apply str_from_utf16_value|].
    pose proof (Nat.div_mod_eq sz 2) as Hsz.
    rewrite units16_take_even. apply units16_length. lia.
  - apply str_from_utf16_short.
Qed.

Lemma filter_loop_spec s n i :
  (i + n = length s)%nat →
  bin_aux.filter_loop s n i (pipes_to_nulls (take i s) ++ replicate (n + 2) 0)
  = Ret (pipes_to_nulls s ++ [0; 0]).
Proof.
  revert i. induction n as [|n IH]; intros i Hlen; simpl.
  - rewrite take_ge by lia. done.
  - assert (∃ c, s !! i = Some c) as [c Hc] by (apply lookup_lt_is_Some; lia).
    rewrite Hc.
    assert (length (pipes_to_nulls (take i s)) = i) as Hpre.
    { unfold pipes_to_nulls. rewrite length_fmap, length_take. lia. }
    rewrite insert_app_r_alt by lia. rewrite Hpre, Nat.sub_diag. simpl.
    rewrite <- (IH (S i)) by lia. f_equal.
    rewrite (take_S_r _ _ c) by done. unfold pipes_to_nulls.
    rewrite fmap_app, <- app_assoc. simpl.
    by destruct (decide (c ≠ 124)), (decide (c = 124)).
Qed.

(** X6. [format_file_filter] returns the filter with every ['|'] replaced
    by a null, every other character in place, and two nulls appended: it
    never fails, the result is two longer than the input and holds no
    ['|']. *)
Theorem X6_format_file_filter_replaces_pipes s :
  bin_aux.format_file_filter s = Ret (pipes_to_nulls s ++ [0; 0]) ∧
  length (pipes_to_nulls s ++ [0; 0]) = (length s + 2)%nat ∧
  (124 ∉ pipes_to_nulls s ++ [0; 0]) ∧
  (∀ i c, s !! i = Some c → c ≠ 124 → (pipes_to_nulls s ++ [0; 0]) !! i = Some c).
Proof.
  split_and!.
  - unfold bin_aux.format_file_filter.
    by rewrite <- (filter_loop_spec s (length s) 0).
  - unfold pipes_to_nulls. rewrite length_app, length_fmap. done.
  - intros [Hin|Hin]%elem_of_app.
    + unfold pipes_to_nulls in Hin. apply list_elem_of_fmap in Hin as (c & Hc & _).
      by destruct (decide (c = 124)).
    + apply elem_of_cons in Hin as [|Hin]; [done|].
      apply elem_of_cons in Hin as [|Hin]; [done|]. by apply elem_of_nil in Hin.
  - intros i c Hi Hc. rewrite lookup_app_l.
    + unfold pipes_to_nulls. rewrite list_lookup_fmap, Hi. simpl.
      by rewrite decide_False.
    + unfold pipes_to_nulls. rewrite length_fmap. by apply lookup_lt_Some in Hi.
Qed.

Lemma to_ansi_loop_spec s n i :
  (i + n = length s)%nat →
  str.to_ansi_loop s n i ((BYTE_of <$> take i s) ++ replicate n 0)
  = Ret (BYTE_of <$> s).
Proof.
  revert i. induction n as [|n IH]; intros i Hlen; simpl.
  - rewrite take_ge by lia. by rewrite app_nil_r.
  - assert (∃ c, s !! i = Some c) as [c Hc] by (apply lookup_lt_is_Some; lia).
    rewrite Hc.
    assert (length (BYTE_of <$> take i s) = i) as Hpre.
    { rewrite length_fmap, length_take. lia. }
    rewrite insert_app_r_alt by lia. rewrite Hpre, Nat.sub_diag. simpl.
    rewrite <- (IH (S i)) by lia. f_equal.
    rewrite (take_S_r _ _ c) by done.
    by rewrite fmap_app, <- app_assoc.
Qed.

Lemma unicode_to_ansi_value s : str.unicode_to_ansi s = Ret (BYTE_of <$> s).
Proof.
  unfold str.unicode_to_ansi. by rewrite <- (to_ansi_loop_spec s (length s) 0).
Qed.

Lemma BYTE_of_bytes s : Forall is_byte s → BYTE_of <$> s = s.
Proof.
  induction 1 as [|c s Hc _ IH]; [done|]. rewrite fmap_cons, IH. f_equal.
  unfold BYTE_of, is_byte in *. by apply Z.mod_small.
Qed.

(** X20. [ansi_to_unicode] widens the characters of a string up to its
    first null; [unicode_to_ansi] keeps the low byte of every character and
    the length.  On a string of byte-sized characters without a null each is
    the inverse of the other. *)
Theorem X20_ansi_unicode_round_trip :
  (∀ s, str.ansi_to_unicode s = Ret (bin_aux.trim_nulls s)) ∧
  (∀ w, str.unicode_to_ansi w = Ret (BYTE_of <$> w) ∧
        length (BYTE_of <$> w) = length w) ∧
  (∀ s, Forall is_byte s → 0 ∉ s →
     (w ← str.ansi_to_unicode s; str.unicode_to_ansi w) = Ret s ∧
     (a ← str.unicode_to_ansi s; str.ansi_to_unicode a) = Ret s).
Proof.
  assert (∀ s, str.ansi_to_unicode s = Ret (bin_aux.trim_nulls s)) as Ha.
  { intros s. unfold str.ansi_to_unicode.
    rewrite str_from_ansi_value by (by left). by rewrite firstn_all. }
  split_and!.
  - exact Ha.
  - intros w. split; [apply unicode_to_ansi_value|by rewrite length_fmap].
  - intros s Hb Hz. split.
    + rewrite Ha. cbn [mbind outcome_bind].
      rewrite unicode_to_ansi_value, trim_nulls_id by done.
      by rewrite BYTE_of_bytes.
    + rewrite unicode_to_ansi_value. cbn [mbind outcome_bind].
      rewrite BYTE_of_bytes by done. rewrite Ha. by rewrite trim_nulls_id.
Qed.

End bin_facts.

(** ** Encoding detection and [parse_str] (bin.h) *)

Section guess_facts.

Implicit Types (bs : list Z) (sz : nat) (data : option (list Z)).

Lemma bom_match_ok bs sz bom :
  (sz ≤ length bs)%nat →
  bin.bom_match (Some bs) sz bom = Ret (has_bom bom sz bs).
Proof.
  intros Hsz. unfold bin.bom_match, has_bom.
  destruct (decide (length bom ≤ sz)%nat) as [Hb|Hb].
  - rewrite decide_True by lia. f_equal.
    apply bool_decide_ext. split; [by split|by intros [_ ?]].
  - f_equal. symmetry. apply bool_decide_eq_false. intros [? _]. lia.
Qed.

Lemma bom_match_true data sz bom :
  bin.bom_match data sz bom = Ret true →
  ∃ bs, data = Some bs ∧ (length bom ≤ sz)%nat ∧ (length bom ≤ length bs)%nat ∧
        take (length bom) bs = bom.
Proof.
  unfold bin.bom_match. intros H.
  destruct (decide (length bom ≤ sz)%nat); [|done].
  destruct data as [bs|]; [|done].
  destruct (decide (length bom ≤ length bs)%nat); [|done].
  exists bs. split_and!; try done.
  injection H as H. by apply bool_decide_eq_true in H.
Qed.

Lemma bom_match_false data sz bom :
  bin.bom_match data sz bom = Ret false →
  ∀ bs, data = Some bs → (length bom ≤ sz)%nat → take (length bom) bs ≠ bom.
Proof.
  unfold bin.bom_match. intros H bs -> Hsz.
  rewrite decide_True in H by done.
  destruct (decide (length bom ≤ length bs)%nat); [|done].
  injection H as H. by apply bool_decide_eq_false in H.
Qed.

Lemma bom_match_no_throw data sz bom e : bin.bom_match data sz bom ≠ Throw e.
Proof.
  unfold bin.bom_match. by repeat case_match.
Qed.

Lemma guess_loop_result data sz n i c :
  (∀ e, bin.guess_loop data sz n i c ≠ Throw e) ∧
  (∀ r, bin.guess_loop data sz n i c = Ret r →
        bin.bomSize r = O ∧
        (bin.encType r = bin.UTF8 ∨ bin.encType r = bin.WIN1252 ∨
         bin.encType r = bin.ASCII)).
Proof.
  revert i c. induction n as [|n IH]; intros i c.
  - split; [done|]. intros r [= <-]. simpl. destruct c; auto.
  - cbn [bin.guess_loop]. unfold bin_aux.at_.
    destruct data as [bs|]; [|done].
    destruct (bs !! i) as [b|]; [|done]. cbn [mbind outcome_bind].
    destruct (decide (b > 127)); [|apply IH].
    destruct (decide (Z.of_nat i ≤ (Z.of_nat sz - 2) mod 2 ^ 64)).
    + destruct (decide (b = 194)).
      { destruct (bs !! S i) as [b1|]; [|done]. cbn [mbind outcome_bind mret outcome_ret].
        destruct (_ && _); [|apply IH].
        split; [done|]. intros r [= <-]. simpl. auto. }
      destruct (decide (b = 195)).
      { destruct (bs !! S i) as [b1|]; [|done]. cbn [mbind outcome_bind mret outcome_ret].
        destruct (_ && _); [|apply IH].
        split; [done|]. intros r [= <-]. simpl. auto. }
      cbn [mbind outcome_bind mret outcome_ret]. apply IH.
    + cbn [mbind outcome_bind mret outcome_ret]. apply IH.
Qed.

Local Ltac nothrow_step b :=
  let H := fresh "Hm" in
  destruct (bin.bom_match _ _ b) as [[|]|?|] eqn:H; cbn [mbind outcome_bind];
  [done| |by apply bom_match_no_throw in H|done].

Lemma guess_encoding_no_throw data sz e : bin.guess_encoding data sz ≠ Throw e.
Proof.
  unfold bin.guess_encoding.
  nothrow_step [239; 187; 191]. nothrow_step [254; 255].
  nothrow_step [255; 254]. nothrow_step [0; 0; 254; 255].
  nothrow_step [255; 254; 0; 0]. nothrow_step [14; 254; 255].
  nothrow_step [251; 238; 40].
  apply guess_loop_result.
Qed.

Lemma guess_encoding_ret data sz r :
  bin.guess_encoding data sz = Ret r →
  bin.encType r ≠ bin.UTF32LE ∧ bin.encType r ≠ bin.UNKNOWN ∧
  (bin.bomSize r ≤ sz)%nat ∧
  (bin.bomSize r ≠ O →
     bin.encType r ∈ [bin.UTF8; bin.UTF16BE; bin.UTF16LE; bin.UTF32BE;
                      bin.SCSU; bin.BOCU1]).
Proof.
  unfold bin.guess_encoding.
  destruct (bin.bom_match data sz [239; 187; 191]) as [[|]|x|] eqn:H1;
    cbn [mbind outcome_bind]; [|clear H1|done..].
  { intros [= <-]. apply bom_match_true in H1 as (bs & _ & Hs & _). simpl in *.
    split_and!; try done. intros _. set_solver. }
  destruct (bin.bom_match data sz [254; 255]) as [[|]|x|] eqn:H2;
    cbn [mbind outcome_bind]; [|clear H2|done..].
  { intros [= <-]. apply bom_match_true in H2 as (bs & _ & Hs & _). simpl in *.
    split_and!; try done. intros _. set_solver. }
  destruct (bin.bom_match data sz [255; 254]) as [[|]|x|] eqn:H3;
    cbn [mbind outcome_bind]; [| |done..].
  { intros [= <-]. apply bom_match_true in H3 as (bs & _ & Hs & _). simpl in *.
    split_and!; try done. intros _. set_solver. }
  destruct (bin.bom_match data sz [0; 0; 254; 255]) as [[|]|x|] eqn:H4;
    cbn [mbind outcome_bind]; [|clear H4|done..].
  { intros [= <-]. apply bom_match_true in H4 as (bs & _ & Hs & _). simpl in *.
    split_and!; try done. intros _. set_solver. }
  destruct (bin.bom_match data sz [255; 254; 0; 0]) as [[|]|x|] eqn:H5;
    cbn [mbind outcome_bind]; [|clear H3 H5|done..].
  { exfalso. apply bom_match_true in H5 as (bs & -> & Hs & Hl & Ht).
    simpl in Hs, Hl, Ht.
    apply (bom_match_false _ _ _ H3 bs eq_refl); simpl; [lia|].
    destruct bs as [|a [|b l]]; simplify_eq/=. done. }
  destruct (bin.bom_match data sz [14; 254; 255]) as [[|]|x|] eqn:H6;
    cbn [mbind outcome_bind]; [|clear H6|done..].
  { intros [= <-]. apply bom_match_true in H6 as (bs & _ & Hs & _). simpl in *.
    split_and!; try done. intros _. set_solver. }
  destruct (bin.bom_match data sz [251; 238; 40]) as [[|]|x|] eqn:H7;
    cbn [mbind outcome_bind]; [|clear H7|done..].
  { intros [= <-]. apply bom_match_true in H7 as (bs & _ & Hs & _). simpl in *.
    split_and!; try done. intros _. set_solver. }
  intros Hr. apply guess_loop_result in Hr as [Hb He]. rewrite Hb.
  split_and!; [destruct He as [->|[->| ->]]; done..|lia|done].
Qed.

(** X8. Whatever the buffer, [guess_encoding] throws nothing and, when it
    returns, never reports UTF-32 little endian nor an unknown encoding
    (the bytes [FF FE 00 00] are taken for UTF-16 little endian); a mark
    size other than [0] comes only with one of the six encodings that are
    told by their mark, and never exceeds [sz]. *)
Theorem X8_guess_encoding_never_reports_utf32le data sz :
  (∀ e, bin.guess_encoding data sz ≠ Throw e) ∧
  (∀ r, bin.guess_encoding data sz = Ret r →
     bin.encType r ≠ bin.UTF32LE ∧ bin.encType r ≠ bin.UNKNOWN ∧
     (bin.bomSize r ≤ sz)%nat ∧
     (bin.bomSize r ≠ O →
        bin.encType r ∈ [bin.UTF8; bin.UTF16BE; bin.UTF16LE; bin.UTF32BE;
                         bin.SCSU; bin.BOCU1])) ∧
  (∀ bs, (4 ≤ sz)%nat →
     bin.guess_encoding (Some (0xFF :: 0xFE :: 0x00 :: 0x00 :: bs)) sz
     = Ret {| bin.encType := bin.UTF16LE; bin.bomSize := 2 |}).
Proof.
  split_and!.
  - intros e. apply guess_encoding_no_throw.
  - apply guess_encoding_ret.
  - intros bs Hsz. unfold bin.guess_encoding, bin.bom_match. simpl.
    repeat (rewrite decide_True by lia; simpl). done.
Qed.

Lemma guess_encoding_chain bs sz :
  (sz ≤ length bs)%nat →
  bin.guess_encoding (Some bs) sz =
    if has_bom [0xEF; 0xBB; 0xBF] sz bs
    then Ret {| bin.encType := bin.UTF8; bin.bomSize := 3 |}
    else if has_bom [0xFE; 0xFF] sz bs
    then Ret {| bin.encType := bin.UTF16BE; bin.bomSize := 2 |}
    else if has_bom [0xFF; 0xFE] sz bs
    then Ret {| bin.encType := bin.UTF16LE; bin.bomSize := 2 |}
    else if has_bom [0x00; 0x00; 0xFE; 0xFF] sz bs
    then Ret {| bin.encType := bin.UTF32BE; bin.bomSize := 4 |}
    else if has_bom [0xFF; 0xFE; 0x00; 0x00] sz bs
    then Ret {| bin.encType := bin.UTF32LE; bin.bomSize := 4 |}
    else if has_bom [0x0E; 0xFE; 0xFF] sz bs
    then Ret {| bin.encType := bin.SCSU; bin.bomSize := 3 |}
    else if has_bom [0xFB; 0xEE; 0x28] sz bs
    then Ret {| bin.encType := bin.BOCU1; bin.bomSize := 3 |}
    else bin.guess_loop (Some bs) sz sz 0 false.
Proof.
  intros Hsz. unfold bin.guess_encoding. rewrite !bom_match_ok by done.
  cbn [mbind outcome_bind]. done.
Qed.

Lemma has_utf8_pair_cons b tl :
  has_utf8_pair (b :: tl)
  = (match tl with b1 :: _ => utf8_pair b b1 | [] => false end) || has_utf8_pair tl.
Proof. by destruct tl. Qed.

Lemma utf8_pair_high b b1 : utf8_pair b b1 = true → b > 127.
Proof.
  unfold utf8_pair. intros [H|H]%orb_true_iff; apply bool_decide_eq_true in H; lia.
Qed.

Lemma guess_loop_spec bs sz n i c :
  (2 ≤ sz)%nat → Z.of_nat sz < 2 ^ 64 → (sz ≤ length bs)%nat → (i + n = sz)%nat →
  bin.guess_loop (Some bs) sz n i c
  = Ret {| bin.encType :=
             if has_utf8_pair (drop i (take sz bs)) then bin.UTF8
             else if c || has_high (drop i (take sz bs)) then bin.WIN1252
             else bin.ASCII;
           bin.bomSize := 0 |}.
Proof.
  intros H2 H64 Hsz. revert i c. induction n as [|n IH]; intros i c Hin.
  - rewrite drop_ge by (rewrite length_take; lia). simpl.
    by rewrite orb_false_r.
  - cbn [bin.guess_loop]. unfold bin_aux.at_.
    assert (∃ b, bs !! i = Some b) as [b Hb] by (apply lookup_lt_is_Some; lia).
    assert (take sz bs !! i = Some b) as Hb' by (rewrite lookup_take_lt by lia; done).
    rewrite Hb. cbn [mbind outcome_bind].
    rewrite (drop_S _ _ _ Hb'), has_utf8_pair_cons.
    cbn [has_high existsb]. fold (has_high (drop (S i) (take sz bs))).
    rewrite (Z.mod_small (Z.of_nat sz - 2)) by lia.
    destruct (decide (b > 127)) as [Hhi|Hlo].
    + rewrite bool_decide_eq_true_2 by done.
      destruct (decide (Z.of_nat i ≤ Z.of_nat sz - 2)) as [Hi|Hi].
      * assert (∃ b1, bs !! S i = Some b1) as [b1 Hb1]
          by (apply lookup_lt_is_Some; lia).
        assert (take sz bs !! S i = Some b1) as Hb1'
          by (rewrite lookup_take_lt by lia; done).
        rewrite (drop_S _ _ _ Hb1'). rewrite Hb1.
        assert ((if decide (b = 194)
                 then bin_aux.at_ (Some bs) (S i) ≫= (λ b1 : Z,
                        mret (bool_decide (161 ≤ b1) && bool_decide (b1 ≤ 191)))
                 else if decide (b = 195)
                 then bin_aux.at_ (Some bs) (S i) ≫= (λ b1 : Z,
                        mret (bool_decide (128 ≤ b1) && bool_decide (b1 ≤ 191)))
                 else mret false) = Ret (utf8_pair b b1)) as Hpair.
        { unfold bin_aux.at_, utf8_pair. rewrite Hb1. cbn [mbind outcome_bind mret outcome_ret].
          destruct (decide (b = 194)) as [->|]; [|destruct (decide (b = 195)) as [->|]];
            f_equal; repeat case_bool_decide; simpl; try done; exfalso; lia. }
        unfold bin_aux.at_ in Hpair. rewrite Hb1 in Hpair. rewrite Hpair.
        cbn [mbind outcome_bind].
        destruct (utf8_pair b b1); [done|].
        rewrite IH by lia. rewrite (drop_S _ _ _ Hb1'). simpl.
        by rewrite orb_true_r.
      * cbn [mbind outcome_bind mret outcome_ret].
        rewrite IH by lia.
        rewrite drop_ge by (rewrite length_take; lia). simpl.
        by rewrite orb_true_r.
    + rewrite bool_decide_eq_false_2 by done. rewrite IH by lia.
      assert (match drop (S i) (take sz bs) with
              | [] => false | b1 :: _ => utf8_pair b b1 end = false) as ->.
      { destruct (drop (S i) (take sz bs)) as [|b1 ?]; [done|].
        destruct (utf8_pair b b1) eqn:E; [|done].
        apply utf8_pair_high in E. lia. }
      done.
Qed.

(** X7. On a buffer of at least [sz >= 2] bytes that starts with no byte
    order mark, [guess_encoding] reports UTF-8 when two neighbouring bytes
    among the first [sz] are [C2 A1..BF] or [C3 80..BF], otherwise
    Windows-1252 when some byte is above [0x7F], otherwise ASCII, with a
    mark size of [0]. *)
Theorem X7_guess_encoding_without_bom bs sz :
  (2 ≤ sz)%nat → Z.of_nat sz < 2 ^ 64 → (sz ≤ length bs)%nat →
  (∀ bom, bom ∈ all_boms → has_bom bom sz bs = false) →
  bin.guess_encoding (Some bs) sz
  = Ret {| bin.encType := classify (take sz bs); bin.bomSize := 0 |}.
Proof.
  intros H2 H64 Hsz Hbom. rewrite guess_encoding_chain by done.
  rewrite !Hbom by (unfold all_boms; set_solver).
  rewrite guess_loop_spec by (done || lia). by rewrite drop_0.
Qed.

Lemma has_bom_short bom sz bs : (sz < length bom)%nat → has_bom bom sz bs = false.
Proof. intros H. apply bool_decide_eq_false. intros [? _]. lia. Qed.

Lemma has_bom_head bom sz bs b0 tl :
  has_bom bom sz bs = true → bom = b0 :: tl → head bs = Some b0.
Proof.
  intros [_ H]%bool_decide_eq_true ->. by destruct bs; simplify_eq/=.
Qed.

Lemma has_bom_7bit bom sz bs b :
  Forall is_7bit (take sz bs) → b ∈ bom → b > 127 → has_bom bom sz bs = false.
Proof.
  intros H7 Hin Hb. apply bool_decide_eq_false. intros [Hl Ht].
  assert (Forall is_7bit bom) as Hf.
  { rewrite <- Ht. replace (length bom) with (length bom `min` sz)%nat by lia.
    rewrite <- take_take. by apply Forall_take. }
  rewrite Forall_forall in Hf. apply Hf in Hin. unfold is_7bit in Hin. lia.
Qed.

Lemma guess_loop_7bit bs sz n i :
  (i + n = sz)%nat → (sz ≤ length bs)%nat → Forall is_7bit (take sz bs) →
  bin.guess_loop (Some bs) sz n i false
  = Ret {| bin.encType := bin.ASCII; bin.bomSize := 0 |}.
Proof.
  intros Hin Hsz H7. revert i Hin. induction n as [|n IH]; intros i Hin; [done|].
  cbn [bin.guess_loop]. unfold bin_aux.at_.
  assert (∃ b, bs !! i = Some b) as [b Hb] by (apply lookup_lt_is_Some; lia).
  assert (is_7bit b) as H7b.
  { rewrite Forall_forall in H7. apply H7.
    apply (list_elem_of_lookup_2 _ i). by rewrite lookup_take_lt by lia. }
  rewrite Hb. cbn [mbind outcome_bind]. unfold is_7bit in H7b.
  rewrite decide_False by lia. apply IH. lia.
Qed.

Lemma guess_encoding_7bit bs sz :
  (sz ≤ length bs)%nat → Forall is_7bit (take sz bs) →
  bin.guess_encoding (Some bs) sz
  = Ret {| bin.encType := bin.ASCII; bin.bomSize := 0 |}.
Proof.
  intros Hsz H7. rewrite guess_encoding_chain by done.
  rewrite (has_bom_7bit _ _ _ 0xEF H7) by (set_solver || lia).
  rewrite (has_bom_7bit _ _ _ 0xFE H7) by (set_solver || lia).
  rewrite (has_bom_7bit _ _ _ 0xFF H7) by (set_solver || lia).
  rewrite (has_bom_7bit [0; 0; 254; 255] _ _ 0xFE H7) by (set_solver || lia).
  rewrite (has_bom_7bit [255; 254; 0; 0] _ _ 0xFF H7) by (set_solver || lia).
  rewrite (has_bom_7bit [14; 254; 255] _ _ 0xFE H7) by (set_solver || lia).
  rewrite (has_bom_7bit [251; 238; 40] _ _ 0xFB H7) by (set_solver || lia).
  by apply guess_loop_7bit.
Qed.

Lemma guess_encoding_defined bs sz :
  (sz ≤ length bs)%nat → sz ≠ 1%nat → Z.of_nat sz < 2 ^ 64 →
  bin.guess_encoding (Some bs) sz ≠ Undef.
Proof.
  intros Hsz H1 H64. rewrite guess_encoding_chain by done.
  repeat (destruct (has_bom _ sz bs); [done|]).
  destruct sz as [|sz]; [done|].
  by rewrite guess_loop_spec by lia.
Qed.

(** X9. [guess_encoding] stays inside a buffer that holds [sz] bytes,
    except for [sz = 1]: there [sz - 2] wraps around, and a lone lead byte
    [C2] or [C3] makes it read the byte after the buffer.  For a vector it
    reads outside exactly when the vector is empty or is that one byte.
    With [sz = 0] it answers ASCII without touching the pointer. *)
Theorem X9_guess_encoding_reads_past_a_lone_lead_byte :
  (∀ bs sz, (sz ≤ length bs)%nat → sz ≠ 1%nat → Z.of_nat sz < 2 ^ 64 →
     bin.guess_encoding (Some bs) sz ≠ Undef) ∧
  (∀ v, Z.of_nat (length v) < 2 ^ 64 →
     (bin.guess_encoding_vec v = Undef ↔ v = [] ∨ v = [0xC2] ∨ v = [0xC3])) ∧
  (∀ data, bin.guess_encoding data 0
           = Ret {| bin.encType := bin.ASCII; bin.bomSize := 0 |}).
Proof.
  split_and!.
  - apply guess_encoding_defined.
  - intros v H64. unfold bin.guess_encoding_vec, bin.vector_data.
    destruct v as [|b [|b' v]].
    + split; [auto|done].
    + cbn [mbind outcome_bind length]. rewrite guess_encoding_chain by (simpl; lia).
      rewrite !has_bom_short by (simpl; lia).
      cbn [bin.guess_loop bin_aux.at_ lookup list_lookup mbind outcome_bind].
      destruct (decide (b > 127)) as [Hb|Hb].
      * rewrite decide_True by done.
        destruct (decide (b = 194)) as [->|]; [split; [auto|done]|].
        destruct (decide (b = 195)) as [->|]; [split; [auto|done]|].
        cbn [mbind outcome_bind mret outcome_ret].
        split; [done|]. intros [|[|]]; simplify_eq.
      * split; [done|]. intros [|[|]]; simplify_eq; lia.
    + cbn [mbind outcome_bind]. split.
      * intros H. by apply guess_encoding_defined in H; simpl in *; try lia.
      * intros [|[|]]; simplify_eq.
  - intros data. unfold bin.guess_encoding, bin.bom_match. done.
Qed.

Lemma ansi_loop_no_throw data n i ret e : bin_aux.ansi_loop data n i ret ≠ Throw e.
Proof.
  revert i ret. induction n as [|n IH]; intros i ret; [done|].
  cbn [bin_aux.ansi_loop]. unfold bin_aux.at_.
  destruct data as [bs|]; [|done]. destruct (bs !! i) as [b|]; [|done].
  cbn [mbind outcome_bind]. destruct (decide (b = 0)); [done|apply IH].
Qed.

Lemma utf16_loop_no_throw data n i be buf e :
  bin_aux.utf16_loop data n i be buf ≠ Throw e.
Proof.
  revert i buf. induction n as [|n IH]; intros i buf; [done|].
  cbn [bin_aux.utf16_loop].
  destruct (if be then bin_aux.parse_uint16_be (bin_aux.advance data i)
            else bin_aux.parse_uint16_le (bin_aux.advance data i))
    as [c|x|] eqn:Hp; cbn [mbind outcome_bind]; [apply IH| |done].
  by apply parse16_no_throw in Hp.
Qed.

Lemma decoders_no_throw M data sz e :
  bin_aux.str_from_ansi data sz ≠ Throw e ∧
  (∀ cp, bin_aux.str_from_code_page M data sz cp ≠ Throw e) ∧
  (∀ be, bin_aux.str_from_utf16 data sz be ≠ Throw e).
Proof.
  split_and!.
  - unfold bin_aux.str_from_ansi. destruct data; [|done].
    destruct (decide (sz ≠ O)); [apply ansi_loop_no_throw|done].
  - intros cp. unfold bin_aux.str_from_code_page. by repeat case_match.
  - intros be. unfold bin_aux.str_from_utf16. apply utf16_loop_no_throw.
Qed.

(** X10. [parse_str] gives the empty string for a null pointer or for
    [sz = 0]; text of 7-bit bytes is taken for ASCII and comes back as its
    characters up to the first null.  The vector overload does the same for
    a vector that is not empty, and indexes element [0] of an empty one. *)
Theorem X10_parse_str_of_7bit_text M :
  (∀ sz, bin.parse_str M None sz = Ret []) ∧
  (∀ data, bin.parse_str M data 0 = Ret []) ∧
  (∀ bs sz, (sz ≤ length bs)%nat → Forall is_7bit (take sz bs) →
     bin.parse_str M (Some bs) sz = Ret (bin_aux.trim_nulls (take sz bs))) ∧
  (∀ v, v ≠ [] → Forall is_7bit v →
     bin.parse_str_vec M v = Ret (bin_aux.trim_nulls v)) ∧
  bin.parse_str_vec M [] = Undef.
Proof.
  assert (∀ bs sz, (sz ≤ length bs)%nat → Forall is_7bit (take sz bs) →
     bin.parse_str M (Some bs) sz = Ret (bin_aux.trim_nulls (take sz bs))) as Hp.
  { intros bs sz Hsz H7. unfold bin.parse_str.
    destruct (decide (sz = O)) as [->|]; [done|].
    rewrite guess_encoding_7bit by done. cbn [mbind outcome_bind].
    cbn [bin.encType bin.bomSize bin_aux.advance fmap option_fmap option_map].
    rewrite drop_0. apply str_from_ansi_value. by left. }
  split_and!; [done|by intros [?|]|done| |done].
  intros v Hv H7. unfold bin.parse_str_vec, bin.vector_data.
  destruct v as [|b v]; [done|]. cbn [mbind outcome_bind].
  rewrite Hp by (done || by rewrite firstn_all).
  by rewrite firstn_all.
Qed.

Lemma has_bom_other bom sz bs b0 tl c0 :
  bom = b0 :: tl → head bs = Some c0 → b0 ≠ c0 → has_bom bom sz bs = false.
Proof.
  intros Hbom Hh Hne. destruct (has_bom bom sz bs) eqn:E; [|done].
  rewrite (has_bom_head _ _ _ _ _ E Hbom) in Hh. congruence.
Qed.

Lemma has_bom_here bom sz bs :
  (length bom ≤ sz)%nat → has_bom bom sz (bom ++ bs) = true.
Proof.
  intros H. apply bool_decide_eq_true. split; [done|].
  by rewrite take_app_length.
Qed.

Lemma parse_str_utf16 M bs sz (be : bool) :
  (2 ≤ sz)%nat → (sz ≤ length bs + 2)%nat →
  bin.parse_str M (Some ((if be then [0xFE; 0xFF] else [0xFF; 0xFE]) ++ bs)) sz
  = bin_aux.str_from_utf16 (Some bs) sz be.
Proof.
  intros H2 Hsz. unfold bin.parse_str.
  rewrite decide_False by lia.
  rewrite guess_encoding_chain by (destruct be; simpl; lia).
  destruct be.
  - rewrite (has_bom_other [239; 187; 191] _ _ _ _ 254 eq_refl) by done.
    rewrite (has_bom_here [254; 255]) by done.
    cbn [mbind outcome_bind bin.encType bin.bomSize]. done.
  - rewrite (has_bom_other [239; 187; 191] _ _ _ _ 255 eq_refl) by done.
    rewrite (has_bom_other [254; 255] _ _ _ _ 255 eq_refl) by done.
    rewrite (has_bom_here [255; 254]) by done.
    cbn [mbind outcome_bind bin.encType bin.bomSize]. done.
Qed.

(** X11. [parse_str] skips the byte order mark but keeps [sz] as it is, so
    the decoder is handed [sz] bytes from behind the mark.  For a vector
    that starts with a UTF-16 mark the decoder therefore reads past the
    vector's end, whatever follows the mark; with a buffer that is long
    enough the text decoded reaches past the first [sz] bytes by the size
    of the mark; after a UTF-8 mark the OS is asked to convert three bytes
    more than the vector holds behind the mark. *)
Theorem X11_parse_str_keeps_size_after_mark M :
  (∀ bs, bin.parse_str_vec M (0xFE :: 0xFF :: bs) = Undef ∧
         bin.parse_str_vec M (0xFF :: 0xFE :: bs) = Undef) ∧
  (∀ bs sz, Forall is_byte bs → (2 ≤ sz)%nat → (sz ≤ length bs)%nat →
     bin.parse_str M (Some (0xFE :: 0xFF :: bs)) sz
       = Ret (units16 true (take sz bs)) ∧
     bin.parse_str M (Some (0xFF :: 0xFE :: bs)) sz
       = Ret (units16 false (take sz bs))) ∧
  (∀ bs, bin.parse_str_vec M (0xEF :: 0xBB :: 0xBF :: bs)
     = match M bin.CP_UTF8 bs (int_of_UINT (Z.of_nat (length bs + 3))) with
       | Some ret => Ret (bin_aux.trim_nulls ret)
       | None => Undef
       end).
Proof.
  split_and!.
  - intros bs. unfold bin.parse_str_vec, bin.vector_data.
    cbn [mbind outcome_bind length].
    pose proof (Nat.div_mod_eq (S (S (length bs))) 2) as Hd.
    assert (S (S (length bs)) `mod` 2 < 2)%nat as Hm
      by (apply Nat.mod_upper_bound; lia).
    split.
    + rewrite (parse_str_utf16 M bs _ true) by lia.
      apply str_from_utf16_short. lia.
    + rewrite (parse_str_utf16 M bs _ false) by lia.
      apply str_from_utf16_short. lia.
  - intros bs sz Hb H2 Hsz. split.
    + rewrite (parse_str_utf16 M bs _ true) by lia.
      by apply str_from_utf16_value.
    + rewrite (parse_str_utf16 M bs _ false) by lia.
      by apply str_from_utf16_value.
  - intros bs. unfold bin.parse_str_vec, bin.vector_data.
    cbn [mbind outcome_bind length]. unfold bin.parse_str.
    rewrite decide_False by lia.
    rewrite guess_encoding_chain by (simpl; lia).
    rewrite (has_bom_here [239; 187; 191] _ bs) by (simpl; lia).
    cbn [mbind outcome_bind bin.encType bin.bomSize].
    unfold bin_aux.str_from_code_page.
    cbn [bin_aux.advance fmap option_fmap option_map drop].
    rewrite decide_True by done.
    replace (S (S (S (length bs)))) with (length bs + 3)%nat by lia.
    done.
Qed.

Lemma parse_str_plain_no_throw M data sz r e :
  (bin.encType r = bin.UTF8 ∨ bin.encType r = bin.WIN1252 ∨
   bin.encType r = bin.ASCII ∨ bin.encType r = bin.UTF16BE ∨
   bin.encType r = bin.UTF16LE) →
  match bin.encType r with
  | bin.UNKNOWN | bin.ASCII => bin_aux.str_from_ansi data sz
  | bin.WIN1252 => bin_aux.str_from_code_page M data sz 1252
  | bin.UTF8 => bin_aux.str_from_code_page M data sz bin.CP_UTF8
  | bin.UTF16BE => bin_aux.str_from_utf16 data sz true
  | bin.UTF16LE => bin_aux.str_from_utf16 data sz false
  | bin.UTF32BE =>
      Throw (invalid_argument "UTF-32 big endian: encoding not implemented.")
  | bin.UTF32LE =>
      Throw (invalid_argument "UTF-32 little endian: encoding not implemented.")
  | bin.SCSU =>
      Throw (invalid_argument
               "Standard compression scheme for Unicode: encoding not implemented.")
  | bin.BOCU1 =>
      Throw (invalid_argument
               "Binary ordered compression for Unicode: encoding not implemented.")
  end ≠ Throw e.
Proof.
  pose proof (decoders_no_throw M data sz e) as (Ha & Hc & Hu).
  intros [->|[->|[->|[->| ->]]]]; auto.
Qed.

Local Ltac notin :=
  repeat (apply not_elem_of_cons; split; [done|]); apply not_elem_of_nil.

(** X12. On a buffer that holds [sz] bytes, [parse_str] throws exactly
    when the data starts with the mark of UTF-32 big endian, SCSU or
    BOCU-1, and then [invalid_argument] with the message of that encoding.
    Whatever the buffer, it never throws the message written for UTF-32
    little endian. *)
Theorem X12_parse_str_throws_on_unsupported_marks M :
  (∀ bs sz e, (sz ≤ length bs)%nat →
     (bin.parse_str M (Some bs) sz = Throw e ↔
      ∃ bom msg, (bom, msg) ∈ unsupported_boms ∧ has_bom bom sz bs = true ∧
                 e = invalid_argument msg)) ∧
  (∀ data sz,
     bin.parse_str M data sz
     ≠ Throw (invalid_argument "UTF-32 little endian: encoding not implemented.")).
Proof.
  split.
  - intros bs sz e Hsz. unfold bin.parse_str.
    destruct (decide (sz = O)) as [->|Hnz].
    { split; [done|]. intros (bom & msg & Hin & Hb & _).
      rewrite has_bom_short in Hb; [done|].
      unfold unsupported_boms in Hin.
      repeat (apply elem_of_cons in Hin as [[= -> _]|Hin]; [simpl; lia|]).
      by apply elem_of_nil in Hin. }
    rewrite guess_encoding_chain by done.
    assert (∀ (bom : list Z) tl c0,
              has_bom bom sz bs = true → bom = c0 :: tl →
              (∃ bom' msg, (bom', msg) ∈ unsupported_boms ∧
                 has_bom bom' sz bs = true ∧ e = invalid_argument msg) →
              c0 ∉ [0; 14; 251] → False) as Hclash.
    { intros bom tl c0 Hb Hbom (bom' & msg & Hin & Hb' & _) Hc0.
      pose proof (has_bom_head _ _ _ _ _ Hb Hbom) as Hh.
      unfold unsupported_boms in Hin.
      repeat (apply elem_of_cons in Hin as [[= -> _]|Hin];
              [rewrite (has_bom_head _ _ _ _ _ Hb' eq_refl) in Hh;
               injection Hh as <-; set_solver|]).
      by apply elem_of_nil in Hin. }
    destruct (has_bom [239; 187; 191] sz bs) eqn:B1.
    { cbn [mbind outcome_bind bin.encType]. split.
      - intros H. by apply decoders_no_throw in H.
      - intros H. exfalso. eapply (Hclash _ _ _ B1 eq_refl H). notin. }
    destruct (has_bom [254; 255] sz bs) eqn:B2.
    { cbn [mbind outcome_bind bin.encType]. split.
      - intros H. by apply decoders_no_throw in H.
      - intros H. exfalso. eapply (Hclash _ _ _ B2 eq_refl H). notin. }
    destruct (has_bom [255; 254] sz bs) eqn:B3.
    { cbn [mbind outcome_bind bin.encType]. split.
      - intros H. by apply decoders_no_throw in H.
      - intros H. exfalso. eapply (Hclash _ _ _ B3 eq_refl H). notin. }
    destruct (has_bom [0; 0; 254; 255] sz bs) eqn:B4.
    { cbn [mbind outcome_bind bin.encType]. split.
      - intros [= <-]. eexists _, _. split_and!; [|exact B4|done].
        unfold unsupported_boms. set_solver.
      - intros (bom & msg & Hin & Hb & ->). unfold unsupported_boms in Hin.
        apply elem_of_cons in Hin as [[= -> ->]|Hin]; [done|].
        exfalso. pose proof (has_bom_head _ _ _ _ _ B4 eq_refl) as Hh.
        repeat (apply elem_of_cons in Hin as [[= -> _]|Hin];
                [rewrite (has_bom_head _ _ _ _ _ Hb eq_refl) in Hh; done|]).
        by apply elem_of_nil in Hin. }
    destruct (has_bom [255; 254; 0; 0] sz bs) eqn:B5.
    { exfalso. apply bool_decide_eq_true in B5 as [Hl Ht].
      apply bool_decide_eq_false in B3. apply B3. simpl in *. split; [lia|].
      destruct bs as [|a [|b l]]; simplify_eq/=. done. }
    destruct (has_bom [14; 254; 255] sz bs) eqn:B6.
    { cbn [mbind outcome_bind bin.encType]. split.
      - intros [= <-]. eexists _, _. split_and!; [|exact B6|done].
        unfold unsupported_boms. set_solver.
      - intros (bom & msg & Hin & Hb & ->). unfold unsupported_boms in Hin.
        apply elem_of_cons in Hin as [[= -> _]|Hin]; [congruence|].
        apply elem_of_cons in Hin as [[= -> ->]|Hin]; [done|].
        exfalso. pose proof (has_bom_head _ _ _ _ _ B6 eq_refl) as Hh.
        repeat (apply elem_of_cons in Hin as [[= -> _]|Hin];
                [rewrite (has_bom_head _ _ _ _ _ Hb eq_refl) in Hh; done|]).
        by apply elem_of_nil in Hin. }
    destruct (has_bom [251; 238; 40] sz bs) eqn:B7.
    { cbn [mbind outcome_bind bin.encType]. split.
      - intros [= <-]. eexists _, _. split_and!; [|exact B7|done].
        unfold unsupported_boms. set_solver.
      - intros (bom & msg & Hin & Hb & ->). unfold unsupported_boms in Hin.
        apply elem_of_cons in Hin as [[= -> _]|Hin]; [congruence|].
        apply elem_of_cons in Hin as [[= -> _]|Hin]; [congruence|].
        apply elem_of_cons in Hin as [[= -> ->]|Hin]; [done|].
        by apply elem_of_nil in Hin. }
    split.
    + destruct (bin.guess_loop (Some bs) sz sz 0 false) as [r|x|] eqn:Hg;
        cbn [mbind outcome_bind]; [| |done].
      * apply guess_loop_result in Hg as [_ He]. intros H. exfalso.
        revert H. apply parse_str_plain_no_throw. tauto.
      * by apply guess_loop_result in Hg.
    + intros (bom & msg & Hin & Hb & _). exfalso. unfold unsupported_boms in Hin.
      repeat (apply elem_of_cons in Hin as [[= -> _]|Hin]; [congruence|]).
      by apply elem_of_nil in Hin.
  - intros data sz. unfold bin.parse_str. destruct data as [bs|]; [|done].
    destruct (decide (sz = O)); [done|].
    destruct (bin.guess_encoding (Some bs) sz) as [r|x|] eqn:Hg;
      cbn [mbind outcome_bind]; [| |done].
    + apply guess_encoding_ret in Hg as (H32 & _).
      pose proof (decoders_no_throw M (bin_aux.advance (Some bs) (bin.bomSize r)) sz
        (invalid_argument "UTF-32 little endian: encoding not implemented."))
        as (Ha & Hc & Hu).
      destruct (bin.encType r); auto; done.
    + by apply guess_encoding_no_throw in Hg.
Qed.

End guess_facts.

(** ** Registration and dispatch, end to end *)

Section store_runs.
Context {idT : Type} `{EqDecision idT} `{SentinelInit idT} {W : Type}.
Implicit Types (k : idT) (hs : list (store.handler idT W)) (s : store.t idT W).

(** X13. Whatever mix of the two [add] overloads registered the handlers
    (each call naming at least one key), [find] on a key returns the
    handler whose call runs the lambda of the most recent call that named
    the key, through at most one wrapper, and returns null for a key no
    call named; [empty] is true only of the store nothing was registered
    on. *)
Theorem X13_find_runs_the_last_registration_naming_the_key
    (cs : list (reg_call (idT:=idT) (W:=W))) :
  Forall (λ c, reg_keys c ≠ []) cs →
  ∃ s, do_regs cs store.new = Ret s ∧
       (store.empty s = true ↔ cs = []) ∧
       ∀ k, match last_naming k cs with
            | Some g =>
                ∃ ptr, store.find k s = (Ret (Some ptr), probed k s) ∧
                       ∀ p w, store.call (probed k s) ptr p w = g p w
            | None => store.find k s = (Ret None, probed k s)
            end.
Proof.
  intros Hne. destruct (regs_inv_run cs Hne) as (s & Hs & Hinv).
  exists s. split; [done|]. split; [|by apply (regs_find cs)].
  destruct Hinv as [Hlen _].
  unfold store.empty. rewrite bool_decide_eq_true. split.
  - intros Hl. destruct cs; [done|simpl in Hlen; lia].
  - intros ->. simpl in Hs. injection Hs as <-. done.
Qed.

End store_runs.

Section exec_runs.
Context {U : Type}.
Implicit Types (h : base_msg_handler.t U) (w : world U).

(** X14. A lambda registered last with [on_command], [on_notify] or
    [on_message] is what [exec] runs for the matching message: a command
    whatever the high word of [wp] holds, a notification whose header
    carries the id and, read as [int], the code (so a negative code matches
    the [UINT] the header stores), and any message other than [WM_COMMAND]
    and [WM_NOTIFY].  [exec] answers with the lambda's result, or with [0]
    after the message box and [PostQuitMessage(-1)] when it throws. *)
Theorem X14_exec_runs_the_lambda_registered_last h (g : store.lambda (world U)) :
  constructed_handler h →
  (∀ cmd hi lp w, 0 ≤ cmd < 2 ^ 16 →
     let wp := cmd + hi * 2 ^ 16 in
     let r := base_msg_handler.exec WM_COMMAND wp lp
                (base_msg_handler.on_command cmd (store.UserFunc g) h) w in
     (r.1.1, r.2) = ran g (Any wp lp) w) ∧
  (∀ id0 code0 wp lp w nmhdr,
     nmhdrs w !! lp = Some nmhdr → idFrom nmhdr = id0 →
     int_of_UINT (code nmhdr) = code0 →
     let r := base_msg_handler.exec WM_NOTIFY wp lp
                (base_msg_handler.on_notify id0 code0 (store.UserFunc g) h) w in
     (r.1.1, r.2) = ran g (Any wp lp) w) ∧
  (∀ msg wp lp w, msg ≠ WM_COMMAND → msg ≠ WM_NOTIFY →
     let r := base_msg_handler.exec msg wp lp
                (base_msg_handler.on_message msg (store.UserFunc g) h) w in
     (r.1.1, r.2) = ran g (Any wp lp) w).
Proof.
  intros (Hm & Hc & Hn).
  assert (∀ {K} (s : store.t K (world U)) k f, constructed s →
            constructed (store.add k f s)) as Hadd.
  { intros K s k f Hs. unfold constructed, store.add in *. simpl.
    by destruct (store._handlers s). }
  split_and!.
  - intros cmd hi lp w Hcmd wp r. subst r.
    rewrite exec_cmds by (by apply Hadd). simpl.
    unfold wp. rewrite LOWORD_low by done.
    rewrite answer_after_add by done. by destruct (ran g _ w).
  - intros id0 code0 wp lp w nmhdr Hhdr <- <- r. subst r.
    rewrite (exec_nfys _ _ _ _ nmhdr) by (by try apply Hadd). simpl.
    rewrite answer_after_add by done. by destruct (ran g _ w).
  - intros msg wp lp w Hne1 Hne2 r. subst r.
    rewrite exec_msgs by (by try apply Hadd). simpl.
    rewrite answer_after_add by done. by destruct (ran g _ w).
Qed.

Lemma WM_UI_THREAD_routed :
  base_msg_handler.WM_UI_THREAD ≠ WM_COMMAND ∧
  base_msg_handler.WM_UI_THREAD ≠ WM_NOTIFY ∧
  base_msg_handler.WM_UI_THREAD ≠ WM_NCCREATE ∧
  base_msg_handler.WM_UI_THREAD ≠ WM_INITDIALOG ∧
  base_msg_handler.WM_UI_THREAD ≠ WM_NCDESTROY.
Proof. by vm_compute. Qed.

(** The answer to [WM_UI_THREAD] of a handler on which no user handler
    was registered for that message. *)
Lemma answer_ui_thread (s : store.t Z (world U)) l p w :
  registrations s
    = registrations (adds l (base_msg_handler._msgs (base_msg_handler.new (U:=U)))) →
  base_msg_handler.WM_UI_THREAD ∉ l.*1 →
  answer s base_msg_handler.WM_UI_THREAD p w
  = ran base_msg_handler.ui_thread_lambda p w.
Proof.
  intros Hregs Hnot.
  unfold registrations in Hregs at 2. rewrite adds_handlers in Hregs.
  simpl in Hregs.
  apply (answer_user s _ O
           (store.Handler base_msg_handler.WM_UI_THREAD
              (store.UserFunc base_msg_handler.ui_thread_lambda)));
    [|by rewrite Hregs|done].
  rewrite Hregs.
  change (?a :: ?b) with ([a] ++ b). rewrite last_match_app.
  assert (last_match base_msg_handler.WM_UI_THREAD
            ((λ kf : Z * store.function (world U), store.Handler kf.1 kf.2) <$> l)
          = None) as ->.
  { apply last_match_None. by rewrite <- list_fmap_compose. }
  done.
Qed.

Lemma ui_thread_lambda_runs (func : U → outcome unit * U) pPack w :
  pPack ≠ 0 → packs w !! pPack = Some func →
  ran base_msg_handler.ui_thread_lambda (Any 0xc0def00d pPack) w =
  match func (user w) with
  | (Undef, u1) => (Undef, set_user u1 w)
  | (o, u1) =>
      (Ret (Some 0),
       World u1 (delete pPack (packs w)) (nmhdrs w) (slots w) (handles w)
         (os_log w ++ caught o))
  end.
Proof.
  intros Hp Hpack. unfold ran, base_msg_handler.ui_thread_lambda. simpl.
  rewrite bool_decide_eq_true_2 by done. simpl. rewrite Hpack.
  unfold catch_all_excps. destruct (func (user w)) as [[[]|e|] u1]; simpl; try done.
  - unfold set_packs, set_user. simpl. by rewrite app_nil_r.
  - unfold set_packs, set_user, log. simpl. by rewrite <- app_assoc.
Qed.

(** X15. [run_thread_ui] on a live window or dialog on which no handler was
    registered for the library's own thread message runs the function,
    once, inside the window procedure, and frees the pack it allocated; a
    function that throws is reported with a message box followed by
    [PostQuitMessage(-1)]; the default procedure is not called. *)
Theorem X15_run_thread_ui_runs_and_frees_the_pack
    (func : U → outcome unit * U) pPack l :
  pPack ≠ 0 → base_msg_handler.WM_UI_THREAD ∉ l.*1 →
  (∀ def (m : base_window.machine U) this_ this,
     base_window.objects m !! this_ = Some this → this_ ≠ 0 →
     base_window._hWnd this ≠ 0 →
     base_window.GetWindowLongPtrW (base_window._hWnd this) m = this_ →
     constructed (base_msg_handler._msgs (base_window._msgHandler this)) →
     registrations (base_msg_handler._msgs (base_window._msgHandler this))
       = registrations (adds l (base_msg_handler._msgs base_msg_handler.new)) →
     packs (base_window.env m) !! pPack = None →
     match func (user (base_window.env m)) with
     | (Undef, _) => (base_window.run_thread_ui def this_ func pPack m).1 = Undef
     | (o, u1) =>
         ∃ m', base_window.run_thread_ui def this_ func pPack m = (Ret (), m') ∧
               user (base_window.env m') = u1 ∧
               packs (base_window.env m') = packs (base_window.env m) ∧
               os_log (base_window.env m') =
                 os_log (base_window.env m)
                 ++ SendMessageW (base_window._hWnd this)
                      base_msg_handler.WM_UI_THREAD 0xc0def00d pPack :: caught o
     end) ∧
  (∀ (m : base_dialog.machine U) this_ this,
     base_dialog.objects m !! this_ = Some this → this_ ≠ 0 →
     base_dialog._hWnd this ≠ 0 →
     base_dialog.GetWindowLongPtrW (base_dialog._hWnd this) m = this_ →
     constructed (base_msg_handler._msgs (base_dialog._msgHandler this)) →
     registrations (base_msg_handler._msgs (base_dialog._msgHandler this))
       = registrations (adds l (base_msg_handler._msgs base_msg_handler.new)) →
     packs (base_dialog.env m) !! pPack = None →
     match func (user (base_dialog.env m)) with
     | (Undef, _) => (base_dialog.run_thread_ui this_ func pPack m).1 = Undef
     | (o, u1) =>
         ∃ m', base_dialog.run_thread_ui this_ func pPack m = (Ret (), m') ∧
               user (base_dialog.env m') = u1 ∧
               packs (base_dialog.env m') = packs (base_dialog.env m) ∧
               os_log (base_dialog.env m') =
                 os_log (base_dialog.env m)
                 ++ SendMessageW (base_dialog._hWnd this)
                      base_msg_handler.WM_UI_THREAD 0xc0def00d pPack :: caught o
     end).
Proof.
  intros Hp Hl. destruct WM_UI_THREAD_routed as (Hc & Hn & Hcr & Hin & Hd).
  split.
  - intros def m this_ this Hobj Hthis Hh Hslot Hcon Hregs Hfree.
    unfold base_window.run_thread_ui. rewrite Hobj. rewrite decide_False by done.
    set (w1 := log _ _).
    unfold base_window._window_proc. rewrite decide_False by done.
    unfold base_window.GetWindowLongPtrW, slot_of in *. simpl. rewrite Hslot.
    rewrite decide_False by done.
    unfold base_window.dispatch. simpl. rewrite Hobj.
    rewrite exec_msgs by done.
    rewrite (answer_ui_thread _ l) by done.
    rewrite (ui_thread_lambda_runs func pPack w1 Hp)
      by (unfold w1; simpl; by rewrite lookup_insert_eq).
    unfold w1. simpl.
    destruct (func (user (base_window.env m))) as [[[]|e|] u1]; simpl; [| |done].
    + eexists. split; [done|]. simpl.
      rewrite delete_insert_eq, delete_id by done.
      split_and!; [done|done|]. by rewrite <- ?app_assoc, ?app_nil_r.
    + eexists. split; [done|]. simpl.
      rewrite delete_insert_eq, delete_id by done.
      split_and!; [done|done|]. by rewrite <- ?app_assoc, ?app_nil_r.
  - intros m this_ this Hobj Hthis Hh Hslot Hcon Hregs Hfree.
    unfold base_dialog.run_thread_ui. rewrite Hobj. rewrite decide_False by done.
    set (w1 := log _ _).
    unfold base_dialog._dialog_proc. rewrite decide_False by done.
    unfold base_dialog.retrieved, base_dialog.GetWindowLongPtrW, slot_of in *.
    simpl. rewrite Hslot.
    rewrite decide_False by done.
    unfold base_dialog.dispatch. simpl. rewrite Hobj.
    rewrite exec_msgs by done.
    rewrite (answer_ui_thread _ l) by done.
    rewrite (ui_thread_lambda_runs func pPack w1 Hp)
      by (unfold w1; simpl; by rewrite lookup_insert_eq).
    unfold w1. simpl.
    destruct (func (user (base_dialog.env m))) as [[[]|e|] u1]; simpl; [| |done].
    + eexists. split; [done|]. simpl.
      rewrite delete_insert_eq, delete_id by done.
      split_and!; [done|done|]. by rewrite <- ?app_assoc, ?app_nil_r.
    + eexists. split; [done|]. simpl.
      rewrite delete_insert_eq, delete_id by done.
      split_and!; [done|done|]. by rewrite <- ?app_assoc, ?app_nil_r.
Qed.

(** X16. A [WM_UI_THREAD] message that does not carry the magic number, or
    carries a null pointer, is answered [0] by the handler the constructor
    installs, with no effect and without looking at the pointer.
    [run_thread_ui] on an object that owns no window sends the message to
    the null handle: the function never runs and the pack stays
    allocated. *)
Theorem X16_thread_message_without_pack_or_window
    (func : U → outcome unit * U) pPack :
  (∀ h l wp lp w,
     constructed (base_msg_handler._msgs h) →
     registrations (base_msg_handler._msgs h)
       = registrations (adds l (base_msg_handler._msgs base_msg_handler.new)) →
     base_msg_handler.WM_UI_THREAD ∉ l.*1 →
     wp ≠ 0xc0def00d ∨ lp = 0 →
     let r := base_msg_handler.exec base_msg_handler.WM_UI_THREAD wp lp h w in
     r.1.1 = Ret (Some 0) ∧ r.2 = w) ∧
  (∀ def (m : base_window.machine U) this_ this,
     base_window.objects m !! this_ = Some this → base_window._hWnd this = 0 →
     ∃ m', base_window.run_thread_ui def this_ func pPack m = (Ret (), m') ∧
           user (base_window.env m') = user (base_window.env m) ∧
           packs (base_window.env m') = <[pPack := func]> (packs (base_window.env m)) ∧
           os_log (base_window.env m') =
             os_log (base_window.env m)
             ++ [SendMessageW 0 base_msg_handler.WM_UI_THREAD 0xc0def00d pPack]) ∧
  (∀ (m : base_dialog.machine U) this_ this,
     base_dialog.objects m !! this_ = Some this → base_dialog._hWnd this = 0 →
     ∃ m', base_dialog.run_thread_ui this_ func pPack m = (Ret (), m') ∧
           user (base_dialog.env m') = user (base_dialog.env m) ∧
           packs (base_dialog.env m') = <[pPack := func]> (packs (base_dialog.env m)) ∧
           os_log (base_dialog.env m') =
             os_log (base_dialog.env m)
             ++ [SendMessageW 0 base_msg_handler.WM_UI_THREAD 0xc0def00d pPack]).
Proof.
  destruct WM_UI_THREAD_routed as (Hc & Hn & _). split_and!.
  - intros h l wp lp w Hcon Hregs Hl Hstray r. subst r.
    rewrite exec_msgs by done. cbn [fst snd].
    rewrite (answer_ui_thread _ l) by done.
    unfold ran, base_msg_handler.ui_thread_lambda. cbn [wparam lparam].
    assert (bool_decide (wp = 3235835917) && bool_decide (lp ≠ 0) = false) as ->.
    { apply andb_false_iff. destruct Hstray as [Hw| ->].
      - left. by apply bool_decide_eq_false_2.
      - right. apply bool_decide_eq_false_2. by intros ?. }
    done.
  - intros def m this_ this Hobj Hh. unfold base_window.run_thread_ui.
    rewrite Hobj, Hh. rewrite decide_True by done. eexists. split; [done|]. done.
  - intros m this_ this Hobj Hh. unfold base_dialog.run_thread_ui.
    rewrite Hobj, Hh. rewrite decide_True by done. eexists. split; [done|]. done.
Qed.

End exec_runs.

Section teardown_facts.
Context {U : Type}.

(** X17. The destructor of a window or dialog object that still owns a
    handle clears the slot of that handle, and nothing else in the world:
    every later message for the handle, other than the creation message,
    is answered by the default ([DefWindowProcW] for a window, [FALSE] for
    a dialog) and the destroyed object is never looked up.  An object that
    owns no handle leaves every slot as it is. *)
Theorem X17_destructor_detaches_the_handle :
  (∀ def (m : base_window.machine U) this_ this,
     base_window.objects m !! this_ = Some this →
     ∃ m', base_window.destructor this_ m = (Ret (), m') ∧
       base_window.objects m' !! this_ = None ∧
       (base_window._hWnd this = 0 →
          base_window.userdata m' = base_window.userdata m) ∧
       (base_window._hWnd this ≠ 0 →
          base_window.GetWindowLongPtrW (base_window._hWnd this) m' = 0 ∧
          base_window.env m' =
            set_slot (base_window._hWnd this) 0 (base_window.env m) ∧
          ∀ later,
            Forall (λ c, c.1.1.1 = base_window._hWnd this ∧ c.1.1.2 ≠ WM_NCCREATE)
                   later →
            ∃ m'', base_window.deliver def later m' = (Ret (), m'') ∧
              base_window.objects m'' = base_window.objects m' ∧
              base_window.env m'' =
                foldl (λ w c, log (DefWindowProcW c.1.1.1 c.1.1.2 c.1.2 c.2) w)
                      (base_window.env m') later)) ∧
  (∀ (m : base_dialog.machine U) this_ this,
     base_dialog.objects m !! this_ = Some this →
     ∃ m', base_dialog.destructor this_ m = (Ret (), m') ∧
       base_dialog.objects m' !! this_ = None ∧
       (base_dialog._hWnd this = 0 →
          base_dialog.userdata m' = base_dialog.userdata m) ∧
       (base_dialog._hWnd this ≠ 0 →
          base_dialog.GetWindowLongPtrW (base_dialog._hWnd this) m' = 0 ∧
          base_dialog.env m' =
            set_slot (base_dialog._hWnd this) 0 (base_dialog.env m) ∧
          ∀ later,
            Forall (λ c, c.1.1.1 = base_dialog._hWnd this ∧ c.1.1.2 ≠ WM_INITDIALOG)
                   later →
            base_dialog.deliver later m' = (Ret (), m'))).
Proof.
  split.
  - intros def m this_ this Hobj. unfold base_window.destructor. rewrite Hobj.
    eexists. split; [done|]. split_and!.
    + simpl. apply lookup_delete_eq.
    + intros Hz. by rewrite decide_False by (by intros ?).
    + intros Hnz. rewrite decide_True by done.
      assert (base_window.GetWindowLongPtrW (base_window._hWnd this)
                (base_window.Machine
                   (delete this_ (base_window.objects m))
                   (base_window.createstructs m)
                   (set_slot (base_window._hWnd this) 0 (base_window.env m))) = 0)
        as Hslot.
      { apply (slot_of_set_slot (base_window.env m)). }
      split; [exact Hslot|]. split; [done|]. intros later Hlater.
      destruct (window_deliver_default def later _ _ Hslot Hlater)
        as (m'' & Hd & Ho & _ & He).
      exists m''. by split_and!.
  - intros m this_ this Hobj. unfold base_dialog.destructor. rewrite Hobj.
    eexists. split; [done|]. split_and!.
    + simpl. apply lookup_delete_eq.
    + intros Hz. by rewrite decide_False by (by intros ?).
    + intros Hnz. rewrite decide_True by done.
      assert (base_dialog.GetWindowLongPtrW (base_dialog._hWnd this)
                (base_dialog.Machine
                   (delete this_ (base_dialog.objects m))
                   (base_dialog.globalUiFont m)
                   (set_slot (base_dialog._hWnd this) 0 (base_dialog.env m))) = 0)
        as Hslot.
      { apply (slot_of_set_slot (base_dialog.env m)). }
      split; [exact Hslot|]. split; [done|]. intros later Hlater.
      by apply (dialog_deliver_default later _ _ Hslot).
Qed.

End teardown_facts.

Section control_runs.
Context {U : Type}.

Lemma register_all_to_registration (cs : list (reg_call (idT:=Z) (W:=world U)))
    this s :
  base_native_control._hWnd this = 0 →
  do_regs cs (base_native_control._msgs this) = Ret s →
  register_all (to_registration <$> cs) this
  = (Ret (), base_native_control.Make 0 (base_native_control._subclassId this) s).
Proof.
  revert this. induction cs as [|c cs IH]; intros this Hh Hdo.
  - simpl in *. injection Hdo as <-. destruct this as [h i ms]. simpl in *.
    by rewrite Hh.
  - rewrite do_regs_cons in Hdo. rewrite fmap_cons. cbn [register_all].
    destruct (do_reg c (base_native_control._msgs this)) as [s1|e|] eqn:Hc;
      [|done..]. cbn [mbind outcome_bind] in Hdo.
    assert (register (to_registration c) this
            = (Ret (), base_native_control.Make 0
                         (base_native_control._subclassId this) s1)) as Hr.
    { destruct c as [k g|ks g]; simpl in *.
      - unfold base_native_control.on_subclass_message. rewrite Hh.
        rewrite decide_False by (by intros ?). by injection Hc as <-.
      - unfold base_native_control.on_subclass_message_ids. rewrite Hh.
        rewrite decide_False by (by intros ?). by rewrite Hc. }
    rewrite Hr.
    exact (IH (base_native_control.Make 0
                 (base_native_control._subclassId this) s1) eq_refl Hdo).
Qed.

(** X18. A control on which lambdas were registered with any mix of the
    [on_subclass_message] overloads and which is then created answers a
    message, in its subclass procedure, with the lambda of the most recent
    registration naming that message ([0] after the message box and
    [PostQuitMessage(-1)] when the lambda throws), and hands a message no
    registration names to [DefSubclassProc]; for a message other than
    [WM_NCDESTROY] it calls nothing else. *)
Theorem X18_subclass_proc_runs_the_registered_lambda
    (cs : list (reg_call (idT:=Z) (W:=world U))) this
    (m : base_native_control.machine U) this_ hParent id0 className title
    pos size styles exStyles hInst os :
  Forall (λ c, reg_keys c ≠ []) cs → this_ ≠ 0 → returned os ≠ 0 →
  register_all (to_registration <$> cs) base_native_control.new = (Ret (), this) →
  base_native_control.objects m !! this_ = Some this →
  ∃ m1,
    base_native_control.create_window this_ (Some hParent) id0 className title
      pos size styles exStyles hInst os m = (Ret (returned os), m1) ∧
    ∀ def hWnd msg wp lp idSubclass, msg ≠ WM_NCDESTROY →
      let r := base_native_control._subclass_proc def hWnd msg wp lp idSubclass
                 this_ m1 in
      (r.1, base_native_control.env r.2) =
      match last_naming msg cs with
      | Some g =>
          passed_on 0 (ran g (Any wp lp) (base_native_control.env m1))
      | None =>
          (Ret (def hWnd msg wp lp),
           log (DefSubclassProc hWnd msg wp lp) (base_native_control.env m1))
      end.
Proof.
  intros Hne Hthis Hret Hreg Hobj.
  destruct (regs_inv_run cs Hne) as (s & Hs & Hinv).
  rewrite (register_all_to_registration cs base_native_control.new s eq_refl Hs)
    in Hreg. injection Hreg as <-.
  assert (∃ m1 sid,
    base_native_control.create_window this_ (Some hParent) id0 className title
      pos size styles exStyles hInst os m = (Ret (returned os), m1) ∧
    base_native_control.objects m1 !! this_
      = Some (base_native_control.Make (returned os) sid s)) as (m1 & sid & Hcw & Hobj1).
  { unfold base_native_control.create_window. rewrite Hobj. simpl.
    rewrite decide_False by done.
    unfold base_native_control._install_subclass_if_needed. simpl.
    rewrite lookup_insert_eq. simpl.
    destruct (store.empty s); simpl.
    - eexists _, _. split; [done|]. simpl. by rewrite lookup_insert_eq.
    - eexists _, _. split; [done|]. simpl. by rewrite lookup_insert_eq. }
  exists m1. split; [done|].
  intros def hWnd msg wp lp idSubclass Hmsg r. subst r.
  unfold base_native_control._subclass_proc, base_native_control.searched.
  rewrite decide_False by done. rewrite Hobj1. simpl.
  rewrite decide_False by done.
  pose proof (regs_find cs s Hinv msg) as Hfind.
  destruct (last_naming msg cs) as [g|].
  - destruct Hfind as (ptr & -> & Hcall). simpl.
    unfold catch_all_excps, passed_on, ran. rewrite Hcall.
    destruct (g (Any wp lp) (base_native_control.env m1)) as [[v|e|] w1]; simpl;
      [|rewrite decide_False by done..|done]; try rewrite decide_False by done; done.
  - rewrite Hfind. simpl. rewrite decide_False by done. done.
Qed.

Lemma find_registrations {K W} `{EqDecision K} (k : K) (s : store.t K W) :
  registrations (store.find k s).2 = registrations s.
Proof.
  unfold store.find, registrations. destruct (store._handlers s) as [|h0 rest] eqn:Hs.
  - simpl. by rewrite Hs.
  - by destruct (store.rev_scan _ _ _) as [[|j]|].
Qed.

Local Ltac keep :=
  simpl; split; [done|]; eexists; split_and!; [eassumption|done..].

(** What the subclass procedure leaves as it is. *)
Lemma subclass_proc_keeps def hWnd msg wp lp idSubclass refData
    (m : base_native_control.machine U) this_ this :
  base_native_control.objects m !! this_ = Some this →
  let m' := (base_native_control._subclass_proc def hWnd msg wp lp idSubclass
               refData m).2 in
  base_native_control.firstId m' = base_native_control.firstId m ∧
  ∃ this', base_native_control.objects m' !! this_ = Some this' ∧
    base_native_control._hWnd this' = base_native_control._hWnd this ∧
    base_native_control._subclassId this' = base_native_control._subclassId this ∧
    registrations (base_native_control._msgs this')
      = registrations (base_native_control._msgs this).
Proof.
  intros Hobj m'. subst m'.
  assert (let m1 := (base_native_control.searched msg wp lp refData m).2 in
          base_native_control.firstId m1 = base_native_control.firstId m ∧
          ∃ this', base_native_control.objects m1 !! this_ = Some this' ∧
            base_native_control._hWnd this' = base_native_control._hWnd this ∧
            base_native_control._subclassId this'
              = base_native_control._subclassId this ∧
            registrations (base_native_control._msgs this')
              = registrations (base_native_control._msgs this)) as Hs.
  { unfold base_native_control.searched.
    destruct (decide (refData = 0)); [keep|].
    destruct (base_native_control.objects m !! refData) as [self|] eqn:Hself;
      [|keep].
    destruct (decide (base_native_control._hWnd self = 0)); [keep|].
    pose proof (find_registrations msg (base_native_control._msgs self)) as Hfr.
    destruct (store.find msg (base_native_control._msgs self)) as [[userFunc|e|] s1];
      [|keep..]. simpl in Hfr.
    assert (∃ this', <[refData := base_native_control.Make
                         (base_native_control._hWnd self)
                         (base_native_control._subclassId self) s1]>
                       (base_native_control.objects m) !! this_ = Some this' ∧
              base_native_control._hWnd this' = base_native_control._hWnd this ∧
              base_native_control._subclassId this'
                = base_native_control._subclassId this ∧
              registrations (base_native_control._msgs this')
                = registrations (base_native_control._msgs this)) as Hupd.
    { destruct (decide (refData = this_)) as [->|Hne].
      - rewrite lookup_insert_eq. rewrite Hobj in Hself. injection Hself as <-.
        eexists. by split_and!.
      - rewrite lookup_insert_ne by done. eexists. by split_and!. }
    destruct userFunc as [ptr|]; [|by split].
    simpl. by destruct (catch_all_excps _ _ _) as [[v|e|] w1]. }
  unfold base_native_control._subclass_proc.
  destruct (base_native_control.searched msg wp lp refData m) as [[ran0|e|] m1];
    simpl in *; [|done..].
  by destruct (decide (msg = WM_NCDESTROY)), ran0.
Qed.

(** X19. The subclass procedure never clears the handle a control object
    holds, not even on [WM_NCDESTROY]: whatever calls the OS makes to it,
    the object keeps its handle, its subclass id and its registrations,
    and the id counter stays.  A control that was created once therefore
    goes on rejecting [create_window], [assign] and [on_subclass_message]
    after its window is gone. *)
Theorem X19_subclass_proc_never_releases_the_control def refData calls
    (m : base_native_control.machine U) this_ this :
  base_native_control.objects m !! this_ = Some this →
  let m' := (subclass_run def refData calls m).2 in
  base_native_control.firstId m' = base_native_control.firstId m ∧
  ∃ this', base_native_control.objects m' !! this_ = Some this' ∧
    base_native_control._hWnd this' = base_native_control._hWnd this ∧
    base_native_control._subclassId this' = base_native_control._subclassId this ∧
    registrations (base_native_control._msgs this')
      = registrations (base_native_control._msgs this) ∧
    (base_native_control._hWnd this ≠ 0 →
       (∀ parent id0 className title pos size styles exStyles hInst os,
          base_native_control.create_window this_ parent id0 className title
            pos size styles exStyles hInst os m'
          = (Throw (logic_error "Cannot create a control twice."), m')) ∧
       (∀ parent ctrlId dlgItem,
          base_native_control.assign this_ parent ctrlId dlgItem m'
          = (Throw (logic_error "Cannot assign an alredy created control."), m')) ∧
       (∀ msg f,
          base_native_control.on_subclass_message msg f this'
          = (Throw (logic_error
               "Cannot add a subclass handler after the window was created."),
             this'))).
Proof.
  intros Hobj m'. subst m'.
  assert (base_native_control.firstId (subclass_run def refData calls m).2
            = base_native_control.firstId m ∧
          ∃ this', base_native_control.objects (subclass_run def refData calls m).2
                     !! this_ = Some this' ∧
            base_native_control._hWnd this' = base_native_control._hWnd this ∧
            base_native_control._subclassId this'
              = base_native_control._subclassId this ∧
            registrations (base_native_control._msgs this')
              = registrations (base_native_control._msgs this))
    as (Hf & this' & Hobj' & Hh & Hsid & Hregs).
  { revert m this Hobj. induction calls as [|[[[[hWnd msg] wp] lp] idSubclass] rest IH];
      intros m this Hobj; [keep|].
    cbn [subclass_run].
    destruct (subclass_proc_keeps def hWnd msg wp lp idSubclass refData m this_ this
                Hobj) as (Hf1 & this1 & Hobj1 & Hh1 & Hs1 & Hr1).
    destruct (base_native_control._subclass_proc def hWnd msg wp lp idSubclass
                refData m) as [[v|e|] m1]; simpl in *; [|keep..].
    destruct (IH m1 this1 Hobj1) as (Hf2 & this2 & Hobj2 & Hh2 & Hs2 & Hr2).
    split; [congruence|]. exists this2. split_and!; congruence. }
  split; [done|]. exists this'. split_and!; try done.
  intros Hlive. split_and!.
  - intros. unfold base_native_control.create_window. rewrite Hobj'.
    by rewrite decide_True by congruence.
  - intros. unfold base_native_control.assign. rewrite Hobj'.
    by rewrite decide_True by congruence.
  - intros. unfold base_native_control.on_subclass_message.
    by rewrite decide_True by congruence.
Qed.

Lemma assign_installs (m : base_native_control.machine U) a this hParent cid item :
  base_native_control.objects m !! a = Some this →
  base_native_control._hWnd this = 0 →
  store.empty (base_native_control._msgs this) = false →
  base_native_control.assign a (Some hParent) cid item m =
  (Ret (),
   base_native_control.Machine
     (<[a := base_native_control.Make item
               ((base_native_control.firstId m + 1) mod 2 ^ 64)
               (base_native_control._msgs this)]>
        (base_native_control.objects m))
     ((base_native_control.firstId m + 1) mod 2 ^ 64)
     (log (SetWindowSubclass item "_subclass_proc"
             ((base_native_control.firstId m + 1) mod 2 ^ 64) a)
          (base_native_control.env m))).
Proof.
  intros Hobj Hh He. unfold base_native_control.assign. rewrite Hobj, Hh.
  rewrite decide_False by (by intros ?).
  unfold base_native_control._install_subclass_if_needed. simpl.
  rewrite lookup_insert_eq. simpl. rewrite He. simpl.
  by rewrite insert_insert_eq.
Qed.

Lemma assign_each_ids (ctrls : list (Z * Z * Z)) hParent
    (m : base_native_control.machine U) :
  0 ≤ base_native_control.firstId m < 2 ^ 64 →
  NoDup ctrls.*1.*1 →
  (∀ a, a ∈ ctrls.*1.*1 →
     ∃ this, base_native_control.objects m !! a = Some this ∧
             base_native_control._hWnd this = 0 ∧
             store.empty (base_native_control._msgs this) = false) →
  ∃ m', assign_each ctrls hParent m = (Ret (), m') ∧
    base_native_control.firstId m'
      = (base_native_control.firstId m + Z.of_nat (length ctrls)) mod 2 ^ 64 ∧
    (∀ b, b ∉ ctrls.*1.*1 →
       base_native_control.objects m' !! b = base_native_control.objects m !! b) ∧
    ∀ i a cid item, ctrls !! i = Some (a, cid, item) →
      ∃ this', base_native_control.objects m' !! a = Some this' ∧
        base_native_control._hWnd this' = item ∧
        base_native_control._subclassId this'
          = (base_native_control.firstId m + Z.of_nat i + 1) mod 2 ^ 64.
Proof.
  revert m. induction ctrls as [|[[a cid] item] rest IH]; intros m Hid Hnd Hall.
  - exists m. split_and!; [done| |done|done]. simpl.
    rewrite Z.add_0_r. by rewrite Z.mod_small.
  - simpl in Hnd. apply NoDup_cons in Hnd as [Ha Hnd].
    destruct (Hall a) as (this & Hobj & Hh & He); [simpl; apply list_elem_of_here|].
    cbn [assign_each]. rewrite (assign_installs m a this hParent cid item Hobj Hh He).
    set (m1 := base_native_control.Machine _ _ _).
    destruct (IH m1) as (m' & Hrun & Hfirst & Hframe & Hids).
    { unfold m1. simpl. apply Z.mod_pos_bound. lia. }
    { done. }
    { intros b Hb. destruct (Hall b) as (thisb & Hob & Hhb & Heb);
        [simpl; by apply list_elem_of_further|].
      exists thisb. split_and!; [|done..]. unfold m1. simpl.
      rewrite lookup_insert_ne; [done|]. by intros ->. }
    exists m'. split_and!.
    + done.
    + rewrite Hfirst. unfold m1. cbn [length base_native_control.firstId].
      rewrite Z.add_mod_idemp_l by lia. f_equal. lia.
    + intros b Hb. simpl in Hb. apply not_elem_of_cons in Hb as [Hne Hb].
      rewrite (Hframe b Hb). unfold m1. simpl. by rewrite lookup_insert_ne.
    + intros [|i] a' cid' item' Hi; simpl in Hi.
      * injection Hi as <- <- <-. rewrite (Hframe a Ha). unfold m1. simpl.
        rewrite lookup_insert_eq. eexists. split_and!; [done|done|]. simpl.
        f_equal. lia.
      * destruct (Hids i a' cid' item' Hi) as (this' & Ho & Hh' & Hs).
        exists this'. split_and!; [done|done|]. rewrite Hs. unfold m1.
        cbn [base_native_control.firstId].
        rewrite <- Z.add_assoc, Z.add_mod_idemp_l by lia. f_equal. lia.
Qed.

(** X21. Controls with subclass handlers that are assigned one after the
    other take the subclass ids [firstId + 1], [firstId + 2], ... of the
    64-bit counter, in the order of the calls: the counter ends advanced by
    their number, each object holds the handle [GetDlgItem] answered and
    its own id, and no two of at most [2^64] controls share an id. *)
Theorem X21_assigned_controls_take_successive_ids (ctrls : list (Z * Z * Z))
    hParent (m : base_native_control.machine U) :
  0 ≤ base_native_control.firstId m < 2 ^ 64 →
  NoDup ctrls.*1.*1 →
  (∀ a, a ∈ ctrls.*1.*1 →
     ∃ this, base_native_control.objects m !! a = Some this ∧
             base_native_control._hWnd this = 0 ∧
             store.empty (base_native_control._msgs this) = false) →
  ∃ m', assign_each ctrls hParent m = (Ret (), m') ∧
    base_native_control.firstId m'
      = (base_native_control.firstId m + Z.of_nat (length ctrls)) mod 2 ^ 64 ∧
    (∀ i a cid item, ctrls !! i = Some (a, cid, item) →
       ∃ this', base_native_control.objects m' !! a = Some this' ∧
         base_native_control._hWnd this' = item ∧
         base_native_control._subclassId this'
           = (base_native_control.firstId m + Z.of_nat i + 1) mod 2 ^ 64) ∧
    (Z.of_nat (length ctrls) ≤ 2 ^ 64 →
     ∀ i j ci cj this1 this2, (i < j)%nat → ctrls !! i = Some ci → ctrls !! j = Some cj →
       base_native_control.objects m' !! ci.1.1 = Some this1 →
       base_native_control.objects m' !! cj.1.1 = Some this2 →
       base_native_control._subclassId this1 ≠ base_native_control._subclassId this2).
Proof.
  intros Hid Hnd Hall.
  destruct (assign_each_ids ctrls hParent m Hid Hnd Hall)
    as (m' & Hrun & Hfirst & _ & Hids).
  exists m'. split_and!; [done..|].
  intros Hlen i j [[a1 c1] d1] [[a2 c2] d2] this1 this2 Hij Hi Hj Ho1 Ho2.
  destruct (Hids i _ _ _ Hi) as (t1 & Ht1 & _ & Hs1).
  destruct (Hids j _ _ _ Hj) as (t2 & Ht2 & _ & Hs2).
  simpl in Ho1, Ho2. rewrite Ho1 in Ht1. rewrite Ho2 in Ht2.
  injection Ht1 as <-. injection Ht2 as <-. rewrite Hs1, Hs2.
  apply lookup_lt_Some in Hj.
  intros Heq. revert Heq. generalize (base_native_control.firstId m) Hid.
  intros x Hx. Z.div_mod_to_equations. lia.
Qed.

End control_runs.

(** ** The further properties at concrete instances *)

Section more_instances.
Import examples more_examples.

Lemma X1_parse_uint_at_12_34_56_78 :
  is_byte 0x12 ∧ is_byte 0x34 ∧ is_byte 0x56 ∧ is_byte 0x78 ∧
  bin.parse_uint32_be (Some [0x12; 0x34; 0x56; 0x78]) = Ret 0x12345678 ∧
  bin.parse_uint32_le (Some [0x12; 0x34; 0x56; 0x78]) = Ret 0x78563412 ∧
  bin.parse_uint16_be (Some [0x12; 0x34]) = Ret 0x1234.
Proof.
  assert (is_byte 0x12) as H0 by (unfold is_byte; lia).
  assert (is_byte 0x34) as H1 by (unfold is_byte; lia).
  assert (is_byte 0x56) as H2 by (unfold is_byte; lia).
  assert (is_byte 0x78) as H3 by (unfold is_byte; lia).
  destruct (X1_parse_uint_is_positional 0x12 0x34 0x56 0x78 [] H0 H1 H2 H3)
    as (Hbe16 & _ & Hbe & Hle & _).
  split_and!; [exact H0|exact H1|exact H2|exact H3|exact Hbe|exact Hle|exact Hbe16].
Defined.

Lemma X2_uint16_round_trip_at_1234 :
  0 ≤ 0x1234 < 2 ^ 16 ∧
  ∃ b0 b1, bin.put_uint16_be 0x1234 [0; 0; 9] = Ret [b0; b1; 9] ∧
           bin.parse_uint16_be (Some [b0; b1; 9]) = Ret 0x1234.
Proof.
  assert (0 ≤ 0x1234 < 2 ^ 16) as Hn by lia.
  split; [exact Hn|].
  destruct X2_uint16_round_trip as (Hput & _ & _).
  destruct (Hput 0x1234 0 0 [9] Hn) as (b0 & b1 & _ & _ & Hw & Hr & _).
  exists b0, b1. split; [exact Hw|exact Hr].
Defined.

Lemma X3_uint32_round_trip_at_12345678 :
  0 ≤ 0x12345678 < 2 ^ 32 ∧
  ∃ b0 b1 b2 b3,
    bin.put_uint32_le 0x12345678 [0; 0; 0; 0] = Ret [b3; b2; b1; b0] ∧
    bin.parse_uint32_le (Some [b3; b2; b1; b0]) = Ret 0x12345678.
Proof.
  assert (0 ≤ 0x12345678 < 2 ^ 32) as Hn by lia.
  split; [exact Hn|].
  destruct X3_uint32_round_trip as (Hput & _ & _).
  destruct (Hput 0x12345678 0 0 0 0 [] Hn)
    as (b0 & b1 & b2 & b3 & _ & _ & _ & _ & _ & _ & Hw & Hr).
  exists b0, b1, b2, b3. split; [exact Hw|exact Hr].
Defined.

Lemma X4_str_from_ansi_at_hi_null :
  ((4 ≤ length hi_null)%nat ∨ 0 ∈ hi_null) ∧
  bin_aux.str_from_ansi (Some hi_null) 4 = Ret [72; 105].
Proof.
  assert ((4 ≤ length hi_null)%nat ∨ 0 ∈ hi_null) as Hbuf by (left; simpl; lia).
  split; [exact Hbuf|].
  destruct X4_str_from_ansi_stops_at_null as (H & _ & _).
  destruct (H hi_null 4%nat Hbuf) as (Hr & _). exact Hr.
Defined.

Lemma X5_str_from_utf16_at_ab :
  Forall is_byte ab_utf16be ∧ (5 ≤ length ab_utf16be)%nat ∧
  bin_aux.str_from_utf16 (Some ab_utf16be) 5 true = Ret [0x41; 0x42].
Proof.
  assert (Forall is_byte ab_utf16be) as Hb
    by (repeat constructor; unfold is_byte; lia).
  assert (5 ≤ length ab_utf16be)%nat as Hl by (simpl; lia).
  split; [exact Hb|]. split; [exact Hl|].
  destruct (X5_str_from_utf16_pairs_bytes ab_utf16be 5 true) as (H & _).
  destruct (H Hb Hl) as (Hr & _). exact Hr.
Defined.

Lemma X6_format_file_filter_at_a_pipe_b :
  a_pipe_b !! 2%nat = Some 98 ∧ 98 ≠ 124 ∧
  bin_aux.format_file_filter a_pipe_b = Ret [97; 0; 98; 0; 0] ∧
  [97; 0; 98; 0; 0] !! 2%nat = Some 98.
Proof.
  destruct (X6_format_file_filter_replaces_pipes a_pipe_b) as (Hr & _ & _ & Hk).
  split; [reflexivity|]. split; [discriminate|]. split; [exact Hr|].
  exact (Hk 2%nat 98 eq_refl ltac:(discriminate)).
Defined.

Lemma X7_guess_encoding_at_a_eacute :
  (2 ≤ 3)%nat ∧ Z.of_nat 3 < 2 ^ 64 ∧ (3 ≤ length a_eacute)%nat ∧
  (∀ bom, bom ∈ all_boms → has_bom bom 3 a_eacute = false) ∧
  bin.guess_encoding (Some a_eacute) 3
  = Ret {| bin.encType := bin.UTF8; bin.bomSize := 0 |}.
Proof.
  assert (∀ bom, bom ∈ all_boms → has_bom bom 3 a_eacute = false) as Hbom.
  { intros bom Hin. unfold all_boms in Hin.
    repeat (apply elem_of_cons in Hin as [->|Hin]; [reflexivity|]).
    by apply elem_of_nil in Hin. }
  assert (2 ≤ 3)%nat as H2 by lia.
  assert (Z.of_nat 3 < 2 ^ 64) as H64 by lia.
  assert (3 ≤ length a_eacute)%nat as Hl by (simpl; lia).
  split_and!; [exact H2|exact H64|exact Hl|exact Hbom|].
  exact (X7_guess_encoding_without_bom a_eacute 3 H2 H64 Hl Hbom).
Defined.

Lemma X8_guess_encoding_at_utf32le_mark :
  (4 ≤ 6)%nat ∧
  bin.guess_encoding (Some [0xFF; 0xFE; 0x00; 0x00; 0x41; 0x00]) 6
  = Ret {| bin.encType := bin.UTF16LE; bin.bomSize := 2 |}.
Proof.
  assert (4 ≤ 6)%nat as H4 by lia. split; [exact H4|].
  destruct (X8_guess_encoding_never_reports_utf32le
              (Some [0xFF; 0xFE; 0x00; 0x00; 0x41; 0x00]) 6) as (_ & _ & H).
  exact (H [0x41; 0x00] H4).
Defined.

Lemma X9_guess_encoding_at_lone_C2 :
  Z.of_nat (length [0xC2]) < 2 ^ 64 ∧
  bin.guess_encoding_vec [0xC2] = Undef ∧
  bin.guess_encoding (Some [0xC2; 0xA9]) 2 ≠ Undef.
Proof.
  assert (Z.of_nat (length [0xC2]) < 2 ^ 64) as H64 by (simpl; lia).
  destruct X9_guess_encoding_reads_past_a_lone_lead_byte as (Hdef & Hvec & _).
  split; [exact H64|]. split.
  - apply (Hvec [0xC2] H64). right. left. reflexivity.
  - apply Hdef; [simpl; lia|discriminate|lia].
Defined.

Lemma X10_parse_str_at_hi_null :
  (4 ≤ length hi_null)%nat ∧ Forall is_7bit (take 4 hi_null) ∧
  bin.parse_str no_conversion (Some hi_null) 4 = Ret [72; 105].
Proof.
  assert (4 ≤ length hi_null)%nat as Hl by (simpl; lia).
  assert (Forall is_7bit (take 4 hi_null)) as H7
    by (repeat constructor; unfold is_7bit; lia).
  split; [exact Hl|]. split; [exact H7|].
  destruct (X10_parse_str_of_7bit_text no_conversion) as (_ & _ & H & _).
  exact (H hi_null 4%nat Hl H7).
Defined.

Lemma X11_parse_str_at_utf16be_mark :
  Forall is_byte ab_utf16be ∧ (2 ≤ 4)%nat ∧ (4 ≤ length ab_utf16be)%nat ∧
  bin.parse_str no_conversion (Some (0xFE :: 0xFF :: ab_utf16be)) 4
    = Ret [0x41; 0x42] ∧
  bin.parse_str_vec no_conversion [0xFE; 0xFF; 0x00; 0x41] = Undef.
Proof.
  assert (Forall is_byte ab_utf16be) as Hb
    by (repeat constructor; unfold is_byte; lia).
  assert (2 ≤ 4)%nat as H2 by lia.
  assert (4 ≤ length ab_utf16be)%nat as Hl by (simpl; lia).
  destruct (X11_parse_str_keeps_size_after_mark no_conversion) as (Hvec & Hptr & _).
  split_and!; [exact Hb|exact H2|exact Hl| |].
  - destruct (Hptr ab_utf16be 4%nat Hb H2 Hl) as (Hbe & _). exact Hbe.
  - destruct (Hvec [0x00; 0x41]) as (Hbe & _). exact Hbe.
Defined.

Lemma X12_parse_str_at_utf32be_mark :
  (4 ≤ length [0x00; 0x00; 0xFE; 0xFF])%nat ∧
  bin.parse_str no_conversion (Some [0x00; 0x00; 0xFE; 0xFF]) 4
  = Throw (invalid_argument "UTF-32 big endian: encoding not implemented.").
Proof.
  assert (4 ≤ length [0x00; 0x00; 0xFE; 0xFF])%nat as Hl by (simpl; lia).
  split; [exact Hl|].
  destruct (X12_parse_str_throws_on_unsupported_marks no_conversion) as (H & _).
  apply (H [0x00; 0x00; 0xFE; 0xFF] 4%nat _ Hl).
  exists [0x00; 0x00; 0xFE; 0xFF], "UTF-32 big endian: encoding not implemented.".
  split; [left|]. split; reflexivity.
Defined.

Lemma X13_find_at_mixed_registrations :
  Forall (λ c, reg_keys c ≠ []) regs_mixed ∧
  ∃ s ptr1 ptr2,
    do_regs regs_mixed store.new = Ret s ∧
    store.find 1 s = (Ret (Some ptr1), probed 1 s) ∧
    (∀ p w, store.call (probed 1 s) ptr1 p w = counting 5 p w) ∧
    store.find 2 s = (Ret (Some ptr2), probed 2 s) ∧
    (∀ p w, store.call (probed 2 s) ptr2 p w = counting 7 p w) ∧
    store.find 3 s = (Ret None, probed 3 s).
Proof.
  assert (Forall (λ c, reg_keys c ≠ []) regs_mixed) as Hne
    by (repeat constructor; discriminate).
  split; [exact Hne|].
  destruct (X13_find_runs_the_last_registration_naming_the_key regs_mixed Hne)
    as (s & Hs & _ & Hk).
  destruct (Hk 1) as (ptr1 & Hf1 & Hc1).
  destruct (Hk 2) as (ptr2 & Hf2 & Hc2).
  exists s, ptr1, ptr2.
  split_and!; [exact Hs|exact Hf1|exact Hc1|exact Hf2|exact Hc2|exact (Hk 3)].
Defined.

Lemma X14_exec_at_command_5 :
  constructed_handler (base_msg_handler.new (U:=nat)) ∧ 0 ≤ 5 < 2 ^ 16 ∧
  (base_msg_handler.exec WM_COMMAND (5 + 3 * 2 ^ 16) 0 h_cmd w0).1.1 = Ret (Some 7) ∧
  user (base_msg_handler.exec WM_COMMAND (5 + 3 * 2 ^ 16) 0 h_cmd w0).2 = 1%nat.
Proof.
  assert (constructed_handler (base_msg_handler.new (U:=nat))) as Hc
    by (by vm_compute).
  assert (0 ≤ 5 < 2 ^ 16) as H5 by lia.
  split; [exact Hc|]. split; [exact H5|].
  destruct (X14_exec_runs_the_lambda_registered_last base_msg_handler.new
              (counting 7) Hc) as (Hcmd & _ & _).
  pose proof (Hcmd 5 3 0 w0 H5) as Hr. simpl in Hr.
  split.
  - exact (f_equal fst Hr).
  - exact (f_equal (λ r, user r.2) Hr).
Defined.

Lemma X15_run_thread_ui_at_window_7 :
  4000 ≠ 0 ∧
  (base_msg_handler.WM_UI_THREAD
   ∉ ([] : list (Z * store.function (world nat))).*1) ∧
  ∃ m', base_window.run_thread_ui def0 100 bump 4000 m_plain = (Ret (), m') ∧
        user (base_window.env m') = 1%nat ∧
        packs (base_window.env m') = ∅ ∧
        os_log (base_window.env m') =
          [SendMessageW 7 base_msg_handler.WM_UI_THREAD 0xc0def00d 4000].
Proof.
  assert (4000 ≠ 0) as Hp by discriminate.
  assert (base_msg_handler.WM_UI_THREAD
          ∉ ([] : list (Z * store.function (world nat))).*1) as Hl
    by apply not_elem_of_nil.
  split; [exact Hp|]. split; [exact Hl|].
  destruct (X15_run_thread_ui_runs_and_frees_the_pack bump 4000 [] Hp Hl) as (Hw & _).
  exact (Hw def0 m_plain 100 (base_window.Make 7 base_msg_handler.new)
           eq_refl ltac:(discriminate) ltac:(discriminate) eq_refl
           ltac:(discriminate) eq_refl eq_refl).
Defined.

Lemma X16_thread_message_at_fresh_window :
  (0 ≠ 0xc0def00d ∨ 0 = 0) ∧
  (base_msg_handler.exec base_msg_handler.WM_UI_THREAD 0 0
     (base_msg_handler.new (U:=nat)) w0).1.1 = Ret (Some 0) ∧
  ∃ m', base_window.run_thread_ui def0 100 bump 4000 m_fresh = (Ret (), m') ∧
        user (base_window.env m') = 0%nat ∧
        packs (base_window.env m') = {[ 4000 := bump ]}.
Proof.
  assert (0 ≠ 0xc0def00d ∨ 0 = 0) as Hs by (right; reflexivity).
  split; [exact Hs|].
  destruct (X16_thread_message_without_pack_or_window bump 4000) as (He & Hw & _).
  split.
  - destruct (He base_msg_handler.new [] 0 0 w0 ltac:(discriminate) eq_refl
                ltac:(apply not_elem_of_nil) Hs) as (Hr & _). exact Hr.
  - destruct (Hw def0 m_fresh 100 base_window.new eq_refl eq_refl)
      as (m' & Hr & Hu & Hpk & _).
    exists m'. split_and!; [exact Hr|exact Hu|exact Hpk].
Defined.

Lemma X17_destructor_at_live_window :
  base_window.objects m_live !! 100 = Some (base_window.Make 7 h_throw) ∧
  ∃ m' m'',
    base_window.destructor 100 m_live = (Ret (), m') ∧
    base_window.objects m' !! 100 = None ∧
    base_window.GetWindowLongPtrW 7 m' = 0 ∧
    base_window.deliver def0 [(7, WM_CLOSE, 0, 0)] m' = (Ret (), m'') ∧
    os_log (base_window.env m'') = [DefWindowProcW 7 WM_CLOSE 0 0].
Proof.
  split; [reflexivity|].
  destruct (@X17_destructor_detaches_the_handle nat) as (Hw & _).
  destruct (Hw def0 m_live 100 (base_window.Make 7 h_throw) eq_refl)
    as (m' & Hd & Hgone & _ & Hlive).
  destruct (Hlive ltac:(discriminate)) as (Hslot & Hworld & Hlater).
  destruct (Hlater [(7, WM_CLOSE, 0, 0)]) as (m'' & Hdel & _ & Henv).
  { repeat constructor. vm_compute. discriminate. }
  exists m', m''. split_and!; [exact Hd|exact Hgone|exact Hslot|exact Hdel|].
  rewrite Henv, Hworld. reflexivity.
Defined.

Lemma X18_subclass_proc_at_close :
  Forall (λ c, reg_keys c ≠ []) regs_close ∧ 200 ≠ 0 ∧ returned os_create56 ≠ 0 ∧
  ∃ m1,
    base_native_control.create_window 200 (Some 7) 10 "BUTTON" None (0, 0) (0, 0)
      0 0 1 os_create56 c_new = (Ret 56, m1) ∧
    (base_native_control._subclass_proc def0 56 WM_CLOSE 0 0 1 200 m1).1 = Ret 0 ∧
    (base_native_control._subclass_proc def0 56 WM_SETFONT 0 0 1 200 m1).1 = Ret 99.
Proof.
  assert (Forall (λ c, reg_keys c ≠ []) regs_close) as Hne
    by (repeat constructor; discriminate).
  assert (200 ≠ 0) as H200 by discriminate.
  assert (returned os_create56 ≠ 0) as Hret by discriminate.
  assert (register_all (to_registration <$> regs_close) base_native_control.new
          = (Ret (), (register_all (to_registration <$> regs_close)
                        base_native_control.new).2)) as Hreg.
  { vm_compute. reflexivity. }
  split_and!; [exact Hne|exact H200|exact Hret|].
  destruct (X18_subclass_proc_runs_the_registered_lambda regs_close
              (register_all (to_registration <$> regs_close)
                 base_native_control.new).2
              c_new 200 7 10 "BUTTON" None (0, 0) (0, 0) 0 0 1 os_create56
              Hne H200 Hret Hreg ltac:(reflexivity))
    as (m1 & Hcw & Hproc).
  exists m1. split; [exact Hcw|]. split.
  - exact (f_equal fst (Hproc def0 56 WM_CLOSE 0 0 1 ltac:(vm_compute; discriminate))).
  - exact (f_equal fst (Hproc def0 56 WM_SETFONT 0 0 1 ltac:(vm_compute; discriminate))).
Defined.

Lemma X19_control_after_its_window_is_gone :
  base_native_control.objects c_live !! 200 = Some c_live_obj ∧
  base_native_control._hWnd c_live_obj ≠ 0 ∧
  let m' := (subclass_run def0 200 [(55, WM_NCDESTROY, 0, 0, 1)] c_live).2 in
  base_native_control.create_window 200 (Some 7) 10 "BUTTON" None (0, 0) (0, 0)
    0 0 1 os_create56 m'
  = (Throw (logic_error "Cannot create a control twice."), m').
Proof.
  assert (base_native_control.objects c_live !! 200 = Some c_live_obj) as Hobj
    by reflexivity.
  assert (base_native_control._hWnd c_live_obj ≠ 0) as Hlive
    by (vm_compute; discriminate).
  split; [exact Hobj|]. split; [exact Hlive|].
  destruct (X19_subclass_proc_never_releases_the_control def0 200
              [(55, WM_NCDESTROY, 0, 0, 1)] c_live 200 c_live_obj Hobj)
    as (_ & this' & _ & _ & _ & _ & Hrej).
  destruct (Hrej Hlive) as (Hcw & _ & _). apply Hcw.
Defined.

Lemma X20_round_trip_at_hi :
  Forall is_byte [72; 105] ∧ (0 ∉ [72; 105]) ∧
  (w ← str.ansi_to_unicode [72; 105]; str.unicode_to_ansi w) = Ret [72; 105] ∧
  str.ansi_to_unicode hi_null = Ret [72; 105].
Proof.
  assert (Forall is_byte [72; 105]) as Hb
    by (repeat constructor; unfold is_byte; lia).
  assert (0 ∉ [72; 105]) as Hz.
  { intros Hin. repeat (apply elem_of_cons in Hin as [Hin|Hin]; [discriminate|]).
    by apply elem_of_nil in Hin. }
  destruct X20_ansi_unicode_round_trip as (Ha & _ & Hrt).
  split_and!; [exact Hb|exact Hz| |exact (Ha hi_null)].
  destruct (Hrt [72; 105] Hb Hz) as (Hr & _). exact Hr.
Defined.

Lemma X21_two_controls_take_ids_1_and_2 :
  0 ≤ base_native_control.firstId c_two < 2 ^ 64 ∧ NoDup two_items.*1.*1 ∧
  ∃ m', assign_each two_items 7 c_two = (Ret (), m') ∧
        base_native_control.firstId m' = 2 ∧
        base_native_control._subclassId <$> base_native_control.objects m' !! 200
          = Some 1 ∧
        base_native_control._subclassId <$> base_native_control.objects m' !! 201
          = Some 2.
Proof.
  assert (0 ≤ base_native_control.firstId c_two < 2 ^ 64) as Hid by (simpl; lia).
  assert (NoDup two_items.*1.*1) as Hnd.
  { apply NoDup_cons. split.
    - intros Hin. apply elem_of_cons in Hin as [Hin|Hin]; [discriminate|].
      by apply elem_of_nil in Hin.
    - apply NoDup_cons. split; [apply not_elem_of_nil|apply NoDup_nil_2]. }
  split; [exact Hid|]. split; [exact Hnd|].
  destruct (X21_assigned_controls_take_successive_ids two_items 7 c_two Hid Hnd)
    as (m' & Hrun & Hf & Hids & _).
  { intros a Hin.
    apply elem_of_cons in Hin as [->|Hin]; [eexists; split_and!; reflexivity|].
    apply elem_of_cons in Hin as [->|Hin]; [eexists; split_and!; reflexivity|].
    by apply elem_of_nil in Hin. }
  exists m'. split_and!.
  - exact Hrun.
  - rewrite Hf. reflexivity.
  - destruct (Hids 0%nat 200 10 55 eq_refl) as (t & Ho & _ & Hs).
    rewrite Ho. simpl. rewrite Hs. reflexivity.
  - destruct (Hids 1%nat 201 11 56 eq_refl) as (t & Ho & _ & Hs).
    rewrite Ho. simpl. rewrite Hs. reflexivity.
Defined.

End more_instances.
